(** * Verification of the devto-insight analytics engine (src/app/analyzer.py)

    Shallow embedding of the [DevToAnalyzer] class.  Python dictionaries
    that are iterated in insertion order are association lists; pandas
    columns are lists of cells; Python [int] counts are [N] (the API
    counts are non-negative) and the true divisions [/] are taken in [Q].
    Exceptions are an explicit [result] type; the global [random] module
    is an explicit stream of draws threaded through the code. *)

From Stdlib Require Import List Bool Arith ZArith QArith String Ascii Lia.
From Stdlib Require Import Qround Permutation Sorting.Sorted.
Import ListNotations.

(* ------------------------------------------------------------------ *)
(** ** Python runtime: exceptions, division, [int()], [random] *)

Inductive PyExc : Type :=
| ValueError
| TypeError
| AttributeError
| ZeroDivisionError
| IndexError.

Inductive result (A : Type) : Type :=
| Ok (a : A)
| Err (e : PyExc).
Arguments Ok {A} a.
Arguments Err {A} e.

Definition bind {A B : Type} (m : result A) (f : A -> result B) : result B :=
  match m with
  | Ok a => f a
  | Err e => Err e
  end.

Notation "x <- m ;; k" := (bind m (fun x => k))
  (at level 61, m at next level, right associativity).

Definition QN (n : N) : Q := inject_Z (Z.of_N n).

(** Python's [a / b] on numbers: raises when [b] is zero. *)
Definition py_div (a b : Q) : result Q :=
  if Qeq_bool b 0 then Err ZeroDivisionError else Ok (a / b).

(** Python's [int(x)] on a float: truncation toward zero. *)
Definition py_int (q : Q) : Z :=
  if Qle_bool 0 q then Qfloor q else (- Qfloor (- q))%Z.

(** The state of the process-wide [random] module, as the stream of raw
    draws it will produce (seeded from OS entropy at import time). *)
Definition RNG := list Z.

Definition draw (g : RNG) : Z * RNG :=
  match g with
  | [] => (0%Z, [])
  | k :: g' => (k, g')
  end.

(** [random.randint(a, b)] is [a + randbelow(b - a + 1)]. *)
Definition randint (a b : Z) (g : RNG) : Z * RNG :=
  let (k, g') := draw g in ((a + k mod (b - a + 1))%Z, g').

(** [random.random()] is a 53-bit integer divided by [2^53]. *)
Definition random (g : RNG) : Q * RNG :=
  let (k, g') := draw g in
  (inject_Z (k mod 2 ^ 53) / inject_Z (2 ^ 53), g').

(** [random.uniform(a, b)] is [a + (b - a) * random()]. *)
Definition uniform (a b : Q) (g : RNG) : Q * RNG :=
  let (u, g') := random g in (a + (b - a) * u, g').

(* ------------------------------------------------------------------ *)
(** ** Python's stable [list.sort(key=..., reverse=...)] *)

(** [list.sort] is stable, also with [reverse=True]; its result is the
    unique stable sort, computed here by insertion.  [kle a b] says that
    an element of key [a] may precede one of key [b]. *)
Section StableSort.
Variables (A K : Type) (key : A -> K) (kle : K -> K -> bool).

Fixpoint insert_stable (x : A) (l : list A) : list A :=
  match l with
  | [] => [x]
  | y :: l' => if kle (key x) (key y) then x :: l else y :: insert_stable x l'
  end.

Fixpoint sort_stable (l : list A) : list A :=
  match l with
  | [] => []
  | x :: l' => insert_stable x (sort_stable l')
  end.
End StableSort.

Arguments insert_stable {A K} key kle x l.
Arguments sort_stable {A K} key kle l.

(** Ascending and descending ([reverse=True]) orders on the key types. *)
Definition asc_Q (a b : Q) : bool := Qle_bool a b.
Definition desc_Q (a b : Q) : bool := Qle_bool b a.
Definition desc_N (a b : N) : bool := N.leb b a.
Definition asc_str (a b : string) : bool := String.leb a b.

(* ------------------------------------------------------------------ *)
(** ** Data model: an article dict as it sits in [detailed_articles] *)

(** A [tags] / [tag_list] cell: a Python list or a string. *)
Inductive TagVal : Type :=
| TVList (l : list string)
| TVStr (s : string).

(** [None] stands for a key the dict lacks (a NaN cell once the dicts are
    loaded into a DataFrame); a column whose cells are all [None] is
    treated as a column the DataFrame does not have. *)
Record Article : Type := mkArticle {
  a_id : N;
  a_title : string;
  a_url : string;
  a_published_at : option string;
  a_tags : option TagVal;
  a_tag_list : option TagVal;
  a_body_markdown : option string;
  a_page_views_count : option N;
  a_public_reactions_count : option N;
  a_comments_count : option N;
  a_reading_time_minutes : option N;
  a_series : option string
}.

Definition col_present {B : Type} (f : Article -> option B) (df : list Article) : bool :=
  existsb (fun a => match f a with Some _ => true | None => false end) df.

(** [row.get(name, 0)]: the cell when the column exists ([None] = NaN),
    the default [0] when it does not. *)
Definition row_get (present : bool) (v : option N) : option N :=
  if present then v else Some 0%N.

(** [Series.fillna(0)]. *)
Definition fillna0 (v : option N) : N :=
  match v with Some n => n | None => 0%N end.

(* ------------------------------------------------------------------ *)
(** ** [calculate_metrics]: column preparation and derived fields *)

(** A DataFrame row once [calculate_metrics] has filled and derived its
    columns (lines 421-459). The date columns are not modelled. *)
Record Row : Type := mkRow {
  r_art : Article;
  r_views : N;
  r_reactions : N;
  r_comments : N;
  r_reading_time : N;
  r_engagement_ratio : Q;
  r_time_efficiency : Q
}.

(** Strings: a Rocq [string] stands for a Python [str] whose code points
    are all below U+0100, one [ascii] (read as a byte) per code point.  The
    string functions below are exact on these. *)

(** The separators of [str.split()] below U+0100: [str.isspace] holds for
    U+0009-U+000D, U+001C-U+0020, U+0085 and U+00A0. *)
Definition is_space (c : ascii) : bool :=
  let n := nat_of_ascii c in
  ((9 <=? n) && (n <=? 13)) || ((28 <=? n) && (n <=? 32)) || (n =? 133) || (n =? 160).

Fixpoint count_words_aux (in_word : bool) (s : string) : nat :=
  match s with
  | EmptyString => 0
  | String c s' =>
      if is_space c then count_words_aux false s'
      else (if in_word then 0 else 1) + count_words_aux true s'
  end.

Definition count_words (s : string) : nat := count_words_aux false s.

(** The function [_estimate_reading_time] of lines 1-26, outside the
    class: [max(ceil(words / 225), 1)], and [1] for an empty text. *)
Definition _estimate_reading_time (text : string) : N :=
  match text with
  | EmptyString => 1%N
  | _ => N.max ((N.of_nat (count_words text) + 224) / 225) 1
  end.

(** The synthetic view count of lines 425-431, for one row:
    [int((r * 15 + c * 25) * random.uniform(0.8, 1.2) + random.randint(50, 200))];
    a NaN operand makes [int()] raise. *)
Definition synth_views (rp cp : bool) (a : Article) (g : RNG) : result N * RNG :=
  let (u, g1) := uniform (8 # 10) (12 # 10) g in
  let (k, g2) := randint 50 200 g1 in
  match row_get rp (a_public_reactions_count a), row_get cp (a_comments_count a) with
  | Some r, Some c =>
      (Ok (Z.to_N (py_int ((QN r * 15 + QN c * 25) * u + inject_Z k))), g2)
  | _, _ => (Err ValueError, g2)
  end.

(** [articles_df.apply(..., axis=1)]: the rows in order, threading the
    generator. *)
Fixpoint synth_views_col (rp cp : bool) (df : list Article) (g : RNG)
  : result (list N) * RNG :=
  match df with
  | [] => (Ok [], g)
  | a :: df' =>
      let (v, g1) := synth_views rp cp a g in
      match v with
      | Err e => (Err e, g1)
      | Ok n =>
          let (vs, g2) := synth_views_col rp cp df' g1 in
          (vs' <- vs ;; Ok (n :: vs'), g2)
      end
  end.

Fixpoint results_list {B : Type} (l : list (result B)) : result (list B) :=
  match l with
  | [] => Ok []
  | x :: l' => y <- x ;; ys <- results_list l' ;; Ok (y :: ys)
  end.

(** [reading_time_minutes] (lines 446-452): [fillna(0)] when the column
    exists.  Otherwise the row function calls [self._estimate_reading_time],
    which [DevToAnalyzer] does not define (the function of that name in
    lines 1-26 lies outside the class): on the first row the attribute
    lookup raises [AttributeError].  On a frame without rows pandas' apply
    first probes the function on an empty Series ([apply_empty_result]),
    swallows the [AttributeError] and returns a copy of the frame, which
    by then has three columns; assigning it to the single column raises
    [ValueError]. *)
Definition reading_col (df : list Article) : result (list N) :=
  if col_present a_reading_time_minutes df
  then Ok (map (fun a => fillna0 (a_reading_time_minutes a)) df)
  else match df with
       | [] => Err ValueError
       | _ :: _ => Err AttributeError
       end.

(** Lines 455-459: [engagement_ratio = (reactions + comments) / max(views, 1)]
    and [time_efficiency = reactions / max(reading_time, 1)]. *)
Definition make_row (a : Article) (v r c rt : N) : Row :=
  mkRow a v r c rt
    ((QN r + QN c) / QN (N.max v 1))
    (QN r / QN (N.max rt 1)).

(** On a frame without rows, the apply of lines 425-431 first probes the
    row function on an empty Series ([apply_empty_result]): [row.get]
    returns its defaults, both draws are made, the result is not a Series,
    and the new column is empty. *)
Definition synth_views_empty (g : RNG) : result (list N) * RNG :=
  let (u, g1) := uniform (8 # 10) (12 # 10) g in
  let (k, g2) := randint 50 200 g1 in
  (Ok [], g2).

(** Lines 416-459 of [calculate_metrics], on the DataFrame built from
    [detailed_articles]. *)
Definition calculate_metrics_df (df : list Article) (g : RNG) : result (list Row) * RNG :=
  let rp := col_present a_public_reactions_count df in
  let cp := col_present a_comments_count df in
  let (vcol, g1) :=
    if negb (col_present a_page_views_count df)
    then match df with
         | [] => synth_views_empty g
         | _ :: _ => synth_views_col rp cp df g
         end
    else (Ok (map (fun a => fillna0 (a_page_views_count a)) df), g) in
  (vs <- vcol ;;
   rts <- reading_col df ;;
   Ok (map (fun '(a, (v, rt)) =>
              make_row a v (fillna0 (a_public_reactions_count a))
                (fillna0 (a_comments_count a)) rt)
           (combine df (combine vs rts))), g1).

(* ------------------------------------------------------------------ *)
(** ** String helpers: [str.split(',')], [str.strip()], [str.lower()] *)

Fixpoint split_comma_aux (acc : string) (s : string) : list string :=
  match s with
  | EmptyString => [acc]
  | String c s' =>
      if Ascii.eqb c ","%char then acc :: split_comma_aux EmptyString s'
      else split_comma_aux (acc ++ String c EmptyString) s'
  end.

(** [s.split(',')]: always at least one piece. *)
Definition split_comma (s : string) : list string := split_comma_aux EmptyString s.

Fixpoint lstrip (s : string) : string :=
  match s with
  | EmptyString => EmptyString
  | String c s' => if is_space c then lstrip s' else s
  end.

Fixpoint rstrip (s : string) : string :=
  match s with
  | EmptyString => EmptyString
  | String c s' =>
      match rstrip s' with
      | EmptyString => if is_space c then EmptyString else String c EmptyString
      | r => String c r
      end
  end.

Definition strip (s : string) : string := rstrip (lstrip s).

Definition nonempty (s : string) : bool :=
  match s with EmptyString => false | _ => true end.

(** [[tag.strip() for tag in s.split(',') if tag.strip()]]. *)
Definition strip_split (s : string) : list string :=
  filter nonempty (map strip (split_comma s)).

(** [str.lower()] below U+0100: [A]-[Z] and U+00C0-U+00DE but U+00D7 map
    32 code points up, every other character is its own lower case. *)
Definition lower_char (c : ascii) : ascii :=
  let n := nat_of_ascii c in
  if ((65 <=? n) && (n <=? 90)) || ((192 <=? n) && (n <=? 222) && negb (n =? 215))
  then ascii_of_nat (n + 32) else c.

Fixpoint lower (s : string) : string :=
  match s with
  | EmptyString => EmptyString
  | String c s' => String (lower_char c) (lower s')
  end.

(* ------------------------------------------------------------------ *)
(** ** [_analyze_tag_performance] (lines 525-594) *)

Inductive TagField : Type := FTags | FTagList.

(** Lines 549-560: the tags of one row.  A list cell is used as it is;
    anything else goes through [str()] (a NaN cell reads ['nan']), is split
    on commas and stripped, and empty pieces are dropped. *)
Definition tags_of_cell (v : option TagVal) : list string :=
  match v with
  | Some (TVList l) => l
  | Some (TVStr s) => strip_split s
  | None => strip_split "nan"
  end.

Definition row_tags (fld : TagField) (r : Row) : list string :=
  tags_of_cell (match fld with
                | FTags => a_tags (r_art r)
                | FTagList => a_tag_list (r_art r)
                end).

(** The value of [tag_stats[tag]] during accumulation. *)
Record TagAcc : Type := mkTagAcc {
  t_count : N;
  t_views : N;
  t_reactions : N;
  t_comments : N
}.

Definition zero_acc : TagAcc := mkTagAcc 0 0 0 0.

(** Lines 567-568: one [(article, tag)] pair added to an accumulator. *)
Definition add_row (s : TagAcc) (r : Row) : TagAcc :=
  mkTagAcc (t_count s + 1) (t_views s + r_views r)
           (t_reactions s + r_reactions r) (t_comments s + r_comments r).

(** Lines 562-578 for one tag: a missing key is first set to zeros, then
    the counters are increased.  The dict keeps insertion order. *)
Fixpoint acc_update (tag : string) (r : Row) (m : list (string * TagAcc))
  : list (string * TagAcc) :=
  match m with
  | [] => [(tag, add_row zero_acc r)]
  | (k, s) :: m' =>
      if String.eqb k tag then (k, add_row s r) :: m'
      else (k, s) :: acc_update tag r m'
  end.

Definition acc_row (fld : TagField) (m : list (string * TagAcc)) (r : Row)
  : list (string * TagAcc) :=
  fold_left (fun m t => if nonempty t then acc_update t r m else m) (row_tags fld r) m.

Definition accumulate (fld : TagField) (df : list Row) : list (string * TagAcc) :=
  fold_left (acc_row fld) df [].

(** A finished entry of the returned list: ['views'], ['reactions'] and
    ['comments'] are the totals. *)
Record TagStat : Type := mkTagStat {
  ts_tag : string;
  ts_count : N;
  ts_views : N;
  ts_reactions : N;
  ts_comments : N;
  ts_avg_views : Q;
  ts_avg_reactions : Q;
  ts_avg_comments : Q;
  ts_engagement : Q
}.

(** Lines 581-585: averages and engagement, after accumulation. *)
Definition finish_tag (p : string * TagAcc) : result TagStat :=
  let (tag, s) := p in
  av <- py_div (QN (t_views s)) (QN (t_count s)) ;;
  ar <- py_div (QN (t_reactions s)) (QN (t_count s)) ;;
  ac <- py_div (QN (t_comments s)) (QN (t_count s)) ;;
  en <- py_div (QN (t_reactions s + t_comments s)) (QN (N.max (t_views s) 1)) ;;
  Ok (mkTagStat tag (t_count s) (t_views s) (t_reactions s) (t_comments s) av ar ac en).

(** Lines 537-546: the tag column actually present. *)
Definition tag_field_of (df : list Row) : option TagField :=
  if col_present a_tags (map r_art df) then Some FTags
  else if col_present a_tag_list (map r_art df) then Some FTagList
  else None.

Definition _analyze_tag_performance (df : list Row) : result (list TagStat) :=
  match tag_field_of df, df with
  | None, _ => Ok []
  | _, [] => Ok []
  | Some fld, _ =>
      stats <- results_list (map finish_tag (accumulate fld df)) ;;
      Ok (sort_stable ts_views desc_N stats)
  end.

(* ------------------------------------------------------------------ *)
(** ** [_sort_and_format] (lines 489-523) *)

Inductive Metric : Type :=
| MPageViews
| MReactions
| MComments
| MEngagementRatio
| MTimeEfficiency.

Definition metric_of (m : Metric) (r : Row) : Q :=
  match m with
  | MPageViews => QN (r_views r)
  | MReactions => QN (r_reactions r)
  | MComments => QN (r_comments r)
  | MEngagementRatio => r_engagement_ratio r
  | MTimeEfficiency => r_time_efficiency r
  end.

(** One dict of the returned list (lines 508-520). *)
Record Entry : Type := mkEntry {
  e_id : N;
  e_title : string;
  e_url : string;
  e_published_at : option string;
  e_tags : option TagVal;
  e_page_views_count : N;
  e_public_reactions_count : N;
  e_comments_count : N;
  e_reading_time_minutes : N;
  e_engagement_ratio : Q;
  e_time_efficiency : Q
}.

Definition format_row (r : Row) : Entry :=
  mkEntry (a_id (r_art r)) (a_title (r_art r)) (a_url (r_art r))
    (a_published_at (r_art r)) (a_tags (r_art r))
    (r_views r) (r_reactions r) (r_comments r) (r_reading_time r)
    (r_engagement_ratio r) (r_time_efficiency r).



(** pandas' [nargsort] with [ascending=False] and no NaN key: it reverses
    the keys and the positions, argsorts, and reverses the indexer. *)
Definition nargsort_desc (n : nat) (p : list nat) : list nat :=
  rev (map (fun j => nth j (rev (seq 0 n)) 0%nat) p).

Definition default_article : Article :=
  mkArticle 0 EmptyString EmptyString None None None None None None None None None.

Definition default_row : Row := mkRow default_article 0 0 0 0 0 0.

(** [df.sort_values(by=metric, ascending=False)] then the row formatting,
    for the argsort result [p] of the reversed key column. *)
Definition _sort_and_format (df : list Row) (m : Metric) (p : list nat) : list Entry :=
  map (fun i => format_row (nth i df default_row)) (nargsort_desc (List.length df) p).


Section NpyArgsort.
Variable v : list Q.

End NpyArgsort.

(* ------------------------------------------------------------------ *)
(** ** [generate_tag_recommendations] (lines 860-1002) *)

(** Run on the DataFrame of [detailed_articles]; the rows here are those
    articles with their count fields present. *)
Inductive Recommendation : Type :=
| RecTopPerforming (tags : list string) (metrics : list (string * Q * Q))
| RecUnderused (tags : list string) (metrics : list (string * Q * Q * N))
| RecCombinations (combos : list (string * string * Q * N))
| RecTrending (tags : list string).

Definition tag_score (t : TagStat) : Q := ts_avg_reactions t + ts_avg_comments t.

(** Lines 923-934: the tags of a row for the pair analysis. *)
Definition combo_tags (a : Article) : list string :=
  match a_tags a with
  | Some (TVList l) => l
  | Some (TVStr s) => strip_split s
  | None =>
      match a_tag_list a with
      | Some (TVList l) => l
      | Some (TVStr s) => strip_split s
      | None => []
      end
  end.

(** [for i in range(len(tags)): for j in range(i+1, len(tags))]. *)
Fixpoint index_pairs (l : list string) : list (string * string) :=
  match l with
  | [] => []
  | x :: l' => map (fun y => (x, y)) l' ++ index_pairs l'
  end.

(** [tuple(sorted([a, b]))]. *)
Definition sorted_pair (p : string * string) : string * string :=
  let (a, b) := p in if String.leb a b then (a, b) else (b, a).

Record Combo : Type := mkCombo {
  c_combo : string * string;
  c_count : N;
  c_total : N;
  c_avg : Q
}.

Definition pair_eqb (p q : string * string) : bool :=
  String.eqb (fst p) (fst q) && String.eqb (snd p) (snd q).

(** Lines 944-961: update the first entry with the same pair, or append. *)
Fixpoint combo_update (k : string * string) (e : N) (cs : list Combo) : list Combo :=
  match cs with
  | [] => [mkCombo k 1 e (QN e)]
  | c :: cs' =>
      if pair_eqb (c_combo c) k then
        mkCombo (c_combo c) (c_count c + 1) (c_total c + e)
          (QN (c_total c + e) / QN (c_count c + 1)) :: cs'
      else c :: combo_update k e cs'
  end.

Definition combo_row (cs : list Combo) (r : Row) : list Combo :=
  let tags := combo_tags (r_art r) in
  if 2 <=? List.length tags then
    fold_left (fun cs p => combo_update (sorted_pair p) (r_reactions r + r_comments r) cs)
      (index_pairs tags) cs
  else cs.

Definition trending_tags : list string :=
  ["react"; "ai"; "machinelearning"; "javascript"; "python"]%string.

Definition generate_tag_recommendations (df : list Row) : result (list Recommendation) :=
  match df with
  | [] => Ok []
  | _ =>
    tp0 <- _analyze_tag_performance df ;;
    let tp := sort_stable tag_score desc_Q tp0 in
    let top :=
      if 3 <=? List.length tp then
        let top_tags := firstn 3 tp in
        [RecTopPerforming (map ts_tag top_tags)
           (map (fun t => (ts_tag t, ts_avg_reactions t, ts_avg_comments t)) top_tags)]
      else [] in
    let underused :=
      sort_stable tag_score desc_Q
        (filter (fun t => N.leb (ts_count t) 2 && negb (Qle_bool (tag_score t) 0)) tp) in
    let under :=
      match underused with
      | [] => []
      | _ => [RecUnderused (map ts_tag (firstn 3 underused))
                (map (fun t => (ts_tag t, ts_avg_reactions t, ts_avg_comments t, ts_count t))
                   (firstn 3 underused))]
      end in
    let combos := fold_left combo_row df [] in
    let best := sort_stable c_avg desc_Q (filter (fun c => N.leb 2 (c_count c)) combos) in
    let comb :=
      match best with
      | [] => []
      | _ => [RecCombinations
                (map (fun c => (fst (c_combo c), snd (c_combo c), c_avg c, c_count c))
                   (firstn 3 best))]
      end in
    let matches :=
      flat_map (fun tag =>
                  match find (fun ut => String.eqb (lower tag) (lower (ts_tag ut))) tp with
                  | Some ut => [ut]
                  | None => []
                  end) trending_tags in
    let trend :=
      match matches with
      | [] => []
      | _ => [RecTrending (map ts_tag matches)]
      end in
    Ok (top ++ under ++ comb ++ trend)
  end.

(* ------------------------------------------------------------------ *)
(** ** [_extract_series_info] (lines 227-269) *)

(** [dict.get(name, 0)] on an article dict ([None]: the key is absent). *)
Definition get0 (v : option N) : N := fillna0 v.

(** The sort key [x.get('published_at', '')]. *)
Definition pub_key (a : Article) : string :=
  match a_published_at a with
  | Some s => s
  | None => EmptyString
  end.

(** A value of [self.series]: the member articles with the [series_part]
    the code writes into each of them. *)
Record SeriesData : Type := mkSeriesData {
  sd_title : string;
  sd_articles : list (Article * N);
  sd_total_reactions : N;
  sd_total_comments : N;
  sd_avg_reading_time : Q
}.

(** Lines 236-249: the grouping pass; a falsy [series] ([None] or an empty
    string) leaves the article out.  Groups keep first-seen order. *)
Fixpoint group_add (sid : string) (a : Article) (m : list (string * list Article))
  : list (string * list Article) :=
  match m with
  | [] => [(sid, [a])]
  | (k, l) :: m' =>
      if String.eqb k sid then (k, l ++ [a]) :: m' else (k, l) :: group_add sid a m'
  end.

Definition group_series (articles : list Article) : list (string * list Article) :=
  fold_left (fun m a =>
               match a_series a with
               | Some sid => if nonempty sid then group_add sid a m else m
               | None => m
               end) articles [].

Definition sum_N (l : list N) : N := fold_right N.add 0%N l.

(** [enumerate] from 1: the [series_part] values. *)
Fixpoint number_from (i : N) (l : list Article) : list (Article * N) :=
  match l with
  | [] => []
  | a :: l' => (a, i) :: number_from (i + 1) l'
  end.

(** Lines 252-267 for one group: averages, then the stable ascending sort
    by [published_at] (missing: [''], and [list.sort] is stable), then the
    1-based parts.  The title stays the id: [series] is a string here. *)
Definition finish_series (sid : string) (arts : list Article) : SeriesData :=
  let sorted := sort_stable pub_key asc_str arts in
  mkSeriesData sid (number_from 1 sorted)
    (sum_N (map (fun a => get0 (a_public_reactions_count a)) arts))
    (sum_N (map (fun a => get0 (a_comments_count a)) arts))
    (QN (sum_N (map (fun a => get0 (a_reading_time_minutes a)) arts)) /
     inject_Z (Z.of_nat (List.length arts))).

Definition _extract_series_info (articles : list Article) : list (string * SeriesData) :=
  map (fun '(sid, arts) => (sid, finish_series sid arts)) (group_series articles).

(* ------------------------------------------------------------------ *)
(** ** [analyze_series_performance] (lines 660-723) *)

Record SeriesArticle : Type := mkSeriesArticle {
  sa_id : N;
  sa_title : string;
  sa_part : N;
  sa_reactions : N;
  sa_comments : N;
  sa_views : N
}.

Record SeriesPerf : Type := mkSeriesPerf {
  sp_id : string;
  sp_title : string;
  sp_article_count : nat;
  sp_total_reactions : N;
  sp_total_comments : N;
  sp_total_views : N;
  sp_avg_reactions : Q;
  sp_avg_comments : Q;
  sp_avg_views : Q;
  sp_completion_rate : Q;
  sp_articles : list SeriesArticle
}.

Definition views_of (a : Article) : N := get0 (a_page_views_count a).

(** Lines 687-694: [completion_rate] on the series' (sorted) articles. *)
Definition completion_rate (arts : list Article) : Q :=
  match arts with
  | first :: _ :: _ =>
      let views_first := views_of first in
      let views_last := views_of (last arts first) in
      if N.ltb 0 views_first then QN views_last / QN views_first else 0
  | _ => 0
  end.

Definition series_perf (sid : string) (d : SeriesData) : option SeriesPerf :=
  let arts := map fst (sd_articles d) in
  let n := List.length arts in
  match n with
  | O => None
  | _ =>
    let tr := sum_N (map (fun a => get0 (a_public_reactions_count a)) arts) in
    let tc := sum_N (map (fun a => get0 (a_comments_count a)) arts) in
    let tv := sum_N (map views_of arts) in
    let cnt := inject_Z (Z.of_nat n) in
    Some (mkSeriesPerf sid (sd_title d) n tr tc tv (QN tr / cnt) (QN tc / cnt) (QN tv / cnt)
            (completion_rate arts)
            (map (fun '(a, part) =>
                    mkSeriesArticle (a_id a) (a_title a) part
                      (get0 (a_public_reactions_count a)) (get0 (a_comments_count a))
                      (views_of a)) (sd_articles d)))
  end.

Definition analyze_series_performance (series : list (string * SeriesData)) : list SeriesPerf :=
  sort_stable sp_total_reactions desc_N
    (flat_map (fun '(sid, d) => match series_perf sid d with
                                | Some p => [p]
                                | None => []
                                end) series).

(* ------------------------------------------------------------------ *)
(** ** [_calculate_overall_stats] (lines 638-658) *)

(** A Python float: pandas' [mean()] of an empty column is NaN. *)
Inductive PyFloat : Type :=
| PNum (q : Q)
| PNaN.

Definition py_mean (l : list N) : PyFloat :=
  match l with
  | [] => PNaN
  | _ => PNum (QN (sum_N l) / inject_Z (Z.of_nat (List.length l)))
  end.

Record OverallStats : Type := mkOverallStats {
  total_articles : nat;
  total_views : N;
  total_reactions : N;
  total_comments : N;
  avg_views_per_article : PyFloat;
  avg_reactions_per_article : PyFloat;
  avg_comments_per_article : PyFloat;
  avg_reading_time : PyFloat;
  most_used_tags : list string
}.

(** The methods [DevToAnalyzer] defines (src/app/analyzer.py, the class
    of lines 159-1087).  Lines 1-149, before the module docstring, hold a
    function [_estimate_reading_time] and copies of two methods outside the
    class; they add no method to it.  (Read as one file, CPython rejects the
    indentation of line 28; the development follows the class as written.) *)
Definition DevToAnalyzer_methods : list string :=
  ["__init__"; "fetch_all_articles"; "_extract_series_info";
   "fetch_article_details"; "fetch_user_profile"; "fetch_followers";
   "get_detailed_articles"; "calculate_metrics"; "_sort_and_format";
   "_analyze_tag_performance"; "_analyze_time_performance";
   "_calculate_overall_stats"; "analyze_series_performance";
   "analyze_optimal_posting_times"; "generate_tag_recommendations";
   "generate_analysis_report"; "get_data_for_llm_analysis"]%string.

(** [self._get_most_used_tags(df)]: the attribute lookup fails, since no
    method of that name is defined (see [get_most_used_tags_undefined]). *)
Definition self_get_most_used_tags (df : list Row) : result (list string) :=
  Err AttributeError.

(** The dict literal evaluates its values in order; the last one raises. *)
Definition _calculate_overall_stats (df : list Row) : result OverallStats :=
  let tv := sum_N (map r_views df) in
  let tr := sum_N (map r_reactions df) in
  let tc := sum_N (map r_comments df) in
  let av := py_mean (map r_views df) in
  let ar := py_mean (map r_reactions df) in
  let ac := py_mean (map r_comments df) in
  let art := py_mean (map r_reading_time df) in
  tags <- self_get_most_used_tags df ;;
  Ok (mkOverallStats (List.length df) tv tr tc av ar ac art tags).

(* ------------------------------------------------------------------ *)
(** ** [get_detailed_articles]: the view-count fallbacks (lines 356-404) *)

(** [article['page_views_count'] = v]. *)
Definition set_views (a : Article) (v : N) : Article :=
  {| a_id := a_id a; a_title := a_title a; a_url := a_url a;
     a_published_at := a_published_at a; a_tags := a_tags a;
     a_tag_list := a_tag_list a; a_body_markdown := a_body_markdown a;
     a_page_views_count := Some v;
     a_public_reactions_count := a_public_reactions_count a;
     a_comments_count := a_comments_count a;
     a_reading_time_minutes := a_reading_time_minutes a;
     a_series := a_series a |}.

(** Lines 374-379, for one merged article: a missing or [None] view count
    becomes [random.randint(100, 2000)]. *)
Definition fallback_views (a : Article) (g : RNG) : Article * RNG :=
  match a_page_views_count a with
  | Some _ => (a, g)
  | None => let (k, g') := randint 100 2000 g in (set_views a (Z.to_N k), g')
  end.

Fixpoint fallback_all (l : list Article) (g : RNG) : list Article * RNG :=
  match l with
  | [] => ([], g)
  | a :: l' =>
      let (a', g1) := fallback_views a g in
      let (l'', g2) := fallback_all l' g1 in (a' :: l'', g2)
  end.

(** Lines 395-400: when no article has a positive view count, every one is
    replaced by [random.randint(100, 2000)]. *)
Fixpoint reroll_all (l : list Article) (g : RNG) : list Article * RNG :=
  match l with
  | [] => ([], g)
  | a :: l' =>
      let (k, g1) := randint 100 2000 g in
      let (l'', g2) := reroll_all l' g1 in (set_views a (Z.to_N k) :: l'', g2)
  end.

(** The view counts of [detailed_articles], from the merged articles whose
    detail fetch succeeded. *)
Definition detailed_views (merged : list Article) (g : RNG) : list Article * RNG :=
  let (l, g1) := fallback_all merged g in
  if existsb (fun a => match a_page_views_count a with
                       | Some v => N.ltb 0 v
                       | None => false
                       end) l
  then (l, g1)
  else match l with
       | [] => (l, g1)
       | _ => reroll_all l g1
       end.

(** The values of [n] successive calls of [random.randint(100, 2000)]. *)
Fixpoint randint_draws (n : nat) (g : RNG) : list Z :=
  match n with
  | O => []
  | S n' => let (k, g1) := randint 100 2000 g in k :: randint_draws n' g1
  end.

(* ------------------------------------------------------------------ *)
(** ** Reading of the tag statistics *)

(** The [(tag, row)] pairs the loop of lines 549-578 visits, empty tags
    left out; none when the DataFrame has no tag column. *)
Definition tag_pairs_in (fld : TagField) (df : list Row) : list (string * Row) :=
  flat_map (fun r => map (fun t => (t, r)) (filter nonempty (row_tags fld r))) df.

Definition tag_pairs (df : list Row) : list (string * Row) :=
  match tag_field_of df with
  | Some fld => tag_pairs_in fld df
  | None => []
  end.

(** The rows paired with tag [t]. *)
Definition rows_of_tag (t : string) (ps : list (string * Row)) : list Row :=
  map snd (filter (fun p => String.eqb (fst p) t) ps).

(* ------------------------------------------------------------------ *)
(** ** Concrete inputs used by the examples below *)

Definition article (id : N) (tags : option TagVal) (views reactions comments : option N)
  (published : option string) (series : option string) : Article :=
  mkArticle id "title" "url" published tags None None views reactions comments (Some 4%N) series.



(** End-to-end scenario B: three articles tagged [python], reactions
    [10, 20, 30], comments [1, 2, 3], views [100, 100, 100]. *)
Definition scenario_B : list Article :=
  [article 1 (Some (TVList ["python"%string])) (Some 100%N) (Some 10%N) (Some 1%N) None None;
   article 2 (Some (TVList ["python"%string])) (Some 100%N) (Some 20%N) (Some 2%N) None None;
   article 3 (Some (TVList ["python"%string])) (Some 100%N) (Some 30%N) (Some 3%N) None None].

(** One article whose [tags] string names the same tag twice. *)
Definition dup_row : Row :=
  make_row (article 1 (Some (TVStr "python, python")) (Some 50%N) (Some 5%N) (Some 1%N) None None)
    50 5 1 4.

(** Four articles, one tag each: [a], [b], [c] have the most views, [d]
    the most reactions. *)
Definition c7_rows : list Row :=
  [make_row (article 1 (Some (TVList ["a"%string])) (Some 1000%N) (Some 1%N) (Some 0%N) None None) 1000 1 0 4;
   make_row (article 2 (Some (TVList ["b"%string])) (Some 900%N) (Some 1%N) (Some 0%N) None None) 900 1 0 4;
   make_row (article 3 (Some (TVList ["c"%string])) (Some 800%N) (Some 1%N) (Some 0%N) None None) 800 1 0 4;
   make_row (article 4 (Some (TVList ["d"%string])) (Some 10%N) (Some 100%N) (Some 0%N) None None) 10 100 0 4].

(** One series, [S1], of two dated articles fetched newest first. *)
Definition series_rows : list Article :=
  [article 2 None (Some 40%N) (Some 2%N) (Some 0%N)
     (Some "2024-02-01T09:00:00Z"%string) (Some "S1"%string);
   article 1 None (Some 100%N) (Some 5%N) (Some 1%N)
     (Some "2024-01-01T09:00:00Z"%string) (Some "S1"%string)].

(** One series, [S1], whose second member has no [published_at]. *)
Definition undated_rows : list Article :=
  [article 1 None (Some 100%N) (Some 5%N) (Some 1%N)
     (Some "2024-01-01T09:00:00Z"%string) (Some "S1"%string);
   article 2 None (Some 40%N) (Some 2%N) (Some 0%N) None (Some "S1"%string)].

(** [article.get('series') == sid] for a series id the grouping keeps. *)
Definition has_series (sid : string) (a : Article) : bool :=
  match a_series a with
  | Some s => String.eqb s sid
  | None => false
  end.

(** An article whose detail record has no [page_views_count]. *)
Definition noview_article : Article :=
  article 7 None None (Some 3%N) (Some 1%N) None None.

(** What the view fallbacks keep of an article. *)
Definition same_but_views (a a' : Article) : Prop :=
  a_id a' = a_id a /\
  a_public_reactions_count a' = a_public_reactions_count a /\
  a_comments_count a' = a_comments_count a.

(** An article with zero page views, two reactions and three comments. *)
Definition zero_view_article : Article :=
  article 5 None (Some 0%N) (Some 2%N) (Some 3%N) None None.

(** A placeholder tag statistic, for taking the head of a list. *)
Definition default_stat : TagStat := mkTagStat EmptyString 0 0 0 0 0 0 0 0.

(** One step of the accumulation loop, on an (tag, row) pair. *)
Definition upd (m : list (string * TagAcc)) (p : string * Row) : list (string * TagAcc) :=
  acc_update (fst p) (snd p) m.

(** [finish_tag] once every count is known to be positive. *)
Definition finished (p : string * TagAcc) : TagStat :=
  let (t, s) := p in
  mkTagStat t (t_count s) (t_views s) (t_reactions s) (t_comments s)
    (QN (t_views s) / QN (t_count s)) (QN (t_reactions s) / QN (t_count s))
    (QN (t_comments s) / QN (t_count s))
    (QN (t_reactions s + t_comments s) / QN (N.max (t_views s) 1)).

(** The invariant of the grouping loop after the prefix [pre]. *)
Definition group_inv (pre : list Article) (m : list (string * list Article)) : Prop :=
  NoDup (map fst m) /\
  (forall k l, In (k, l) m -> nonempty k = true /\ l = filter (has_series k) pre) /\
  (forall a s, In a pre -> a_series a = Some s -> nonempty s = true -> In s (map fst m)).

(** Two articles sharing the tag pair [ai]/[python]. *)
Definition combo_rows : list Row :=
  [make_row (article 1 (Some (TVList ["python"; "ai"]%string)) (Some 100%N) (Some 10%N) (Some 2%N) None None) 100 10 2 4;
   make_row (article 2 (Some (TVStr "ai, python, web")) (Some 50%N) (Some 4%N) (Some 0%N) None None) 50 4 0 4].

(** The pair occurrences the loop of lines 936-961 visits for one row: the
    sorted pair and the row's engagement, for each [i < j]. *)
Definition combo_occ (r : Row) : list ((string * string) * N) :=
  let tags := combo_tags (r_art r) in
  if 2 <=? List.length tags then
    map (fun p => (sorted_pair p, (r_reactions r + r_comments r)%N)) (index_pairs tags)
  else [].

Definition combo_occurrences (df : list Row) : list ((string * string) * N) :=
  flat_map combo_occ df.

(** How often a pair occurs, and its summed engagement. *)
Definition pair_count (k : string * string) (occ : list ((string * string) * N)) : N :=
  N.of_nat (List.length (filter (fun o => pair_eqb (fst o) k) occ)).

Definition pair_total (k : string * string) (occ : list ((string * string) * N)) : N :=
  sum_N (map snd (filter (fun o => pair_eqb (fst o) k) occ)).

(** The invariant of the combination list after the occurrences [occ]. *)
Definition combo_inv (occ : list ((string * string) * N)) (cs : list Combo) : Prop :=
  NoDup (map c_combo cs) /\
  (forall c, In c cs ->
     c_count c = pair_count (c_combo c) occ /\ c_total c = pair_total (c_combo c) occ /\
     c_avg c == QN (c_total c) / QN (c_count c)) /\
  (forall k, (0 < pair_count k occ)%N -> In k (map c_combo cs)).

(** The average engagement of an entry of the "combinations" group. *)
Definition combo_entry_avg (t : string * string * Q * N) : Q :=
  let '(_, _, q, _) := t in q.

Definition combo_entry_pair (t : string * string * Q * N) : string * string :=
  let '(a, b, _, _) := t in (a, b).

(* ------------------------------------------------------------------ *)
(** ** [fetch_all_articles] and [fetch_followers] (lines 182-225, 316-354) *)

(** The server's answer to [requests.get] for one page: [None] when a
    [RequestException] is raised (connection error or [raise_for_status]),
    otherwise the decoded JSON list. *)
Definition PageResponse (X : Type) : Type := option (list X).

(** The paging loop [while has_more and page <= max_pages]: [fuel] is the
    number of pages the bound still allows.  An empty page or an exception
    ends the loop. *)
Fixpoint fetch_pages {X : Type} (get : Z -> PageResponse X) (page : Z) (fuel : nat) : list X :=
  match fuel with
  | O => []
  | S fuel' =>
      match get page with
      | Some (x :: l) => (x :: l) ++ fetch_pages get (page + 1) fuel'
      | Some [] => []
      | None => []
      end
  end.

(** [get page per_page] answers
    [/articles?username=...&page=<page>&per_page=<per_page>]; the result is
    [self.articles] and the [self.series] it derives. *)
Definition fetch_all_articles (get : Z -> Z -> PageResponse Article)
  (max_pages articles_per_page : Z) : list Article * list (string * SeriesData) :=
  let all_articles := fetch_pages (fun page => get page articles_per_page) 1 (Z.to_nat max_pages) in
  (all_articles, _extract_series_info all_articles).

(** [get page] answers [/followers/users?page=<page>]; without an API key
    ([None] or the falsy [""]) nothing is requested. *)
Definition fetch_followers {X : Type} (api_key : option string) (get : Z -> PageResponse X)
  (max_pages : Z) : list X :=
  match api_key with
  | None => []
  | Some EmptyString => []
  | Some _ => fetch_pages get 1 (Z.to_nat max_pages)
  end.

Definition page_items {X : Type} (r : PageResponse X) : list X :=
  match r with Some l => l | None => [] end.

(* ------------------------------------------------------------------ *)
(** ** [_analyze_time_performance] (lines 596-636) *)

(** A row of the DataFrame with the two date columns [calculate_metrics]
    adds; [None] is NaN (a missing [published_at] parses to NaT). *)
Record TimeRow : Type := mkTimeRow {
  t_row : Row;
  t_day : option string;
  t_hour : option Z
}.

(** One record of [groupby(key).agg({'id': 'count', ...: 'mean'})]. *)
Record TimeStat (K : Type) : Type := mkTimeStat {
  tm_key : K;
  tm_article_count : nat;
  tm_avg_views : Q;
  tm_avg_reactions : Q;
  tm_avg_comments : Q
}.
Arguments mkTimeStat {K}.
Arguments tm_key {K}.
Arguments tm_article_count {K}.
Arguments tm_avg_views {K}.
Arguments tm_avg_reactions {K}.
Arguments tm_avg_comments {K}.

(** The distinct values of a list (the last occurrence of each is kept). *)
Fixpoint dedup {K : Type} (keq : K -> K -> bool) (l : list K) : list K :=
  match l with
  | [] => []
  | x :: l' => if existsb (keq x) l' then dedup keq l' else x :: dedup keq l'
  end.

(** The mean of a non-empty group. *)
Definition mean_N (l : list N) : Q := QN (sum_N l) / inject_Z (Z.of_nat (List.length l)).

Definition key_list {K : Type} (key : TimeRow -> option K) (df : list TimeRow) : list K :=
  flat_map (fun r => match key r with Some k => [k] | None => [] end) df.

Definition in_group {K : Type} (keq : K -> K -> bool) (key : TimeRow -> option K) (k : K)
  (r : TimeRow) : bool :=
  match key r with Some k' => keq k' k | None => false end.

(** [groupby] drops the NaN keys and sorts the groups by key. *)
Definition groupby_mean {K : Type} (keq kle : K -> K -> bool) (key : TimeRow -> option K)
  (df : list TimeRow) : list (TimeStat K) :=
  map (fun k =>
         let rs := filter (in_group keq key k) df in
         mkTimeStat k (List.length rs)
           (mean_N (map (fun r => r_views (t_row r)) rs))
           (mean_N (map (fun r => r_reactions (t_row r)) rs))
           (mean_N (map (fun r => r_comments (t_row r)) rs)))
      (sort_stable (fun k => k) kle (dedup keq (key_list key df))).

(** [day_col]: whether the DataFrame has a [day_of_week] column. *)
Definition _analyze_time_performance (day_col : bool) (df : list TimeRow)
  : list (TimeStat string) * list (TimeStat Z) :=
  match day_col, df with
  | false, _ => ([], [])
  | true, [] => ([], [])
  | true, _ => (groupby_mean String.eqb String.leb t_day df, groupby_mean Z.eqb Z.leb t_hour df)
  end.

(* ------------------------------------------------------------------ *)
(** ** [calculate_metrics], [generate_analysis_report],
       [get_data_for_llm_analysis] (lines 406-487, 1004-1087) *)

Record Metrics : Type := mkMetrics {
  m_most_viewed : list Entry;
  m_most_reactions : list Entry;
  m_most_commented : list Entry;
  m_highest_engagement : list Entry;
  m_best_time_efficiency : list Entry;
  m_tag_performance : list TagStat;
  m_time_performance : list (TimeStat string) * list (TimeStat Z);
  m_overall_stats : OverallStats
}.

Record Report : Type := mkReport {
  rp_username : string;
  rp_analysis_date : string;
  rp_overall_stats : OverallStats;
  rp_by_views : list Entry;
  rp_by_reactions : list Entry;
  rp_by_comments : list Entry;
  rp_by_engagement : list Entry;
  rp_by_time_efficiency : list Entry;
  rp_tag_performance : list TagStat;
  rp_by_day : list (TimeStat string);
  rp_by_hour : list (TimeStat Z)
}.

Record LLMPost : Type := mkLLMPost {
  lp_title : string;
  lp_views : N;
  lp_reactions : N;
  lp_comments : N;
  lp_tags : option TagVal;
  lp_reading_time : N
}.

Record LLMEngagementPost : Type := mkLLMEngagementPost {
  le_title : string;
  le_engagement_ratio : Q;
  le_views : N;
  le_reactions : N;
  le_tags : option TagVal
}.

Record LLMTag : Type := mkLLMTag {
  lt_tag : string;
  lt_posts : N;
  lt_avg_views : Q;
  lt_avg_reactions : Q;
  lt_engagement : Q
}.

Record LLMData : Type := mkLLMData {
  ld_username : string;
  ld_total_articles : nat;
  ld_top_performing_posts : list LLMPost;
  ld_highest_engagement_posts : list LLMEngagementPost;
  ld_top_tags : list LLMTag;
  ld_best_days : list (TimeStat string);
  ld_best_hours : list (TimeStat Z)
}.

Section PandasInternals.
(** The positions numpy's [argsort] returns for a key column (see
    [_sort_and_format]), and [pd.to_datetime] on one [published_at] value:
    its [day_name()] and [hour], or [None] when it cannot be parsed (a
    [ValueError]). *)
Variable argsort : list Q -> list nat.
Variable parse_datetime : string -> option (string * Z).

Definition sort_and_format_by (df : list Row) (m : Metric) : list Entry :=
  _sort_and_format df m (argsort (rev (map (metric_of m) df))).

(** Lines 462-470: the date columns, or ['Unknown'] and [0] without a
    [published_at] column. *)
Definition date_columns (published_col : bool) (df : list Row) : result (list TimeRow) :=
  if published_col then
    results_list
      (map (fun r => match a_published_at (r_art r) with
                     | None => Ok (mkTimeRow r None None)
                     | Some s =>
                         match parse_datetime s with
                         | Some (d, h) => Ok (mkTimeRow r (Some d) (Some h))
                         | None => Err ValueError
                         end
                     end) df)
  else Ok (map (fun r => mkTimeRow r (Some "Unknown"%string) (Some 0%Z)) df).

(** [calculate_metrics] on [detailed_articles]; the values of the returned
    dict are evaluated in order, [overall_stats] last. *)
Definition calculate_metrics (detailed_articles : list Article) (g : RNG) : result Metrics * RNG :=
  let (rows, g1) := calculate_metrics_df detailed_articles g in
  (df <- rows ;;
   tdf <- date_columns (col_present a_published_at detailed_articles) df ;;
   tag_performance <- _analyze_tag_performance df ;;
   let time_performance := _analyze_time_performance true tdf in
   let most_viewed := sort_and_format_by df MPageViews in
   let most_reactions := sort_and_format_by df MReactions in
   let most_commented := sort_and_format_by df MComments in
   let highest_engagement := sort_and_format_by df MEngagementRatio in
   let best_time_efficiency := sort_and_format_by df MTimeEfficiency in
   overall_stats <- _calculate_overall_stats df ;;
   Ok (mkMetrics most_viewed most_reactions most_commented highest_engagement
         best_time_efficiency tag_performance time_performance overall_stats), g1).

(** [datetime.now().isoformat()] is the argument [now]. *)
Definition generate_analysis_report (username now : string) (detailed_articles : list Article)
  (g : RNG) : result Report * RNG :=
  let (m, g1) := calculate_metrics detailed_articles g in
  (metrics <- m ;;
   Ok (mkReport username now (m_overall_stats metrics)
         (firstn 10 (m_most_viewed metrics)) (firstn 10 (m_most_reactions metrics))
         (firstn 10 (m_most_commented metrics)) (firstn 10 (m_highest_engagement metrics))
         (firstn 10 (m_best_time_efficiency metrics))
         (firstn 15 (m_tag_performance metrics))
         (fst (m_time_performance metrics)) (snd (m_time_performance metrics))), g1).

Definition get_data_for_llm_analysis (username : string) (detailed_articles : list Article)
  (g : RNG) : result LLMData * RNG :=
  let (m, g1) := calculate_metrics detailed_articles g in
  (metrics <- m ;;
   Ok (mkLLMData username (total_articles (m_overall_stats metrics))
         (map (fun e => mkLLMPost (e_title e) (e_page_views_count e) (e_public_reactions_count e)
                          (e_comments_count e) (e_tags e) (e_reading_time_minutes e))
              (firstn 5 (m_most_viewed metrics)))
         (map (fun e => mkLLMEngagementPost (e_title e) (e_engagement_ratio e)
                          (e_page_views_count e) (e_public_reactions_count e) (e_tags e))
              (firstn 5 (m_highest_engagement metrics)))
         (map (fun t => mkLLMTag (ts_tag t) (ts_count t) (ts_avg_views t) (ts_avg_reactions t)
                          (ts_engagement t))
              (firstn 10 (m_tag_performance metrics)))
         (sort_stable tm_avg_views desc_Q (fst (m_time_performance metrics)))
         (firstn 5 (sort_stable tm_avg_views desc_Q (snd (m_time_performance metrics))))), g1).
End PandasInternals.

(* ------------------------------------------------------------------ *)
(** ** [LLMService._normalize_tag] (src/app/llm_service.py) *)

(** [ch in s] for a one-character string [ch]. *)
Fixpoint has_char (ch : ascii) (s : string) : bool :=
  match s with
  | EmptyString => false
  | String c s' => Ascii.eqb c ch || has_char ch s'
  end.

Fixpoint split_on_aux (sep : ascii) (acc : string) (s : string) : list string :=
  match s with
  | EmptyString => [acc]
  | String c s' =>
      if Ascii.eqb c sep then acc :: split_on_aux sep EmptyString s'
      else split_on_aux sep (acc ++ String c EmptyString) s'
  end.

(** [s.split(sep)] for a one-character separator. *)
Definition split_on (sep : ascii) (s : string) : list string := split_on_aux sep EmptyString s.

Definition special_cases : list (string * string) :=
  [("javascript", "JavaScript"); ("typescript", "TypeScript"); ("nodejs", "Node.js");
   ("nextjs", "Next.js"); ("reactjs", "React.js"); ("vuejs", "Vue.js"); ("aws", "AWS");
   ("dotnet", ".NET"); ("csharp", "C#"); ("cpp", "C++"); ("devops", "DevOps"); ("ai", "AI");
   ("ml", "ML"); ("api", "API"); ("graphql", "GraphQL"); ("postgresql", "PostgreSQL");
   ("mysql", "MySQL"); ("nosql", "NoSQL"); ("mongodb", "MongoDB"); ("php", "PHP");
   ("css", "CSS"); ("html", "HTML"); ("sass", "Sass"); ("scss", "SCSS"); ("ios", "iOS");
   ("macos", "macOS"); ("linux", "Linux"); ("windows", "Windows"); ("ci", "CI"); ("cd", "CD");
   ("cicd", "CI/CD"); ("iot", "IoT"); ("ui", "UI"); ("ux", "UX"); ("jwt", "JWT");
   ("oauth", "OAuth"); ("regex", "RegEx"); ("webdev", "WebDev"); ("seo", "SEO")]%string.

(** [d[key]] / [key in d] on a dict given as an association list. *)
Definition str_lookup {B : Type} (k : string) (d : list (string * B)) : option B :=
  match find (fun p => String.eqb (fst p) k) d with
  | Some (_, v) => Some v
  | None => None
  end.

(** [str.capitalize()] titlecases the first character by the Unicode
    tables and lowercases the rest; its result may leave the range below
    U+0100 (['ß'] gives ['Ss'], ['µ'] gives U+039C), so it is a parameter
    of everything built on [_normalize_tag]. *)
Section Capitalize.
Variable capitalize : string -> string.

Definition _normalize_tag (tag : string) : string :=
  let tag_lower := lower tag in
  match str_lookup tag_lower special_cases with
  | Some v => v
  | None =>
      if has_char "-"%char tag
      then String.concat "-" (map capitalize (split_on "-"%char tag))
      else capitalize tag
  end.

(* ------------------------------------------------------------------ *)
(** ** [LLMService._generate_title] (src/app/llm_service.py) *)

(** [random.choice(seq)]: [IndexError] on an empty sequence, else
    [seq[randbelow(len(seq))]]. *)
Definition random_choice {A : Type} (l : list A) (g : RNG) : result A * RNG :=
  match l with
  | [] => (Err IndexError, g)
  | x :: _ =>
      let (k, g') := draw g in
      (Ok (nth (Z.to_nat (k mod Z.of_nat (List.length l))) l x), g')
  end.

(** [s.startswith(p)]. *)
Fixpoint str_prefix (p s : string) : bool :=
  match p, s with
  | EmptyString, _ => true
  | String a p', String b s' => Ascii.eqb a b && str_prefix p' s'
  | String _ _, EmptyString => false
  end.

(** [sub in s] on strings. *)
Fixpoint str_contains (sub s : string) : bool :=
  str_prefix sub s ||
  match s with
  | EmptyString => false
  | String _ s' => str_contains sub s'
  end.

(** [s.replace(old, new)] for a non-empty [old]: left to right, the
    occurrences do not overlap; [skip] counts the characters of the last
    occurrence still to be dropped. *)
Fixpoint replace_from (old new : string) (skip : nat) (s : string) : string :=
  match s with
  | EmptyString => EmptyString
  | String c s' =>
      match skip with
      | S k => replace_from old new k s'
      | O =>
          if str_prefix old s
          then (new ++ replace_from old new (String.length old - 1) s')%string
          else String c (replace_from old new 0 s')
      end
  end.

(** [s.replace('', new)]: [new] before every character and at the end. *)
Fixpoint replace_empty (new s : string) : string :=
  match s with
  | EmptyString => new
  | String c s' => (new ++ String c (replace_empty new s'))%string
  end.

Definition py_replace (s old new : string) : string :=
  match old with
  | EmptyString => replace_empty new s
  | String _ _ => replace_from old new 0 s
  end.

(** [[tag.strip().lower() for tag in post_tags if tag.strip()]] where
    [post_tags] is [post.get('tags', '').split(',')] for a string and
    [post.get('tags', [])] otherwise. *)
Definition post_tags_lower (v : option TagVal) : list string :=
  let raw := match v with
             | Some (TVStr s) => split_comma s
             | Some (TVList l) => l
             | None => []
             end in
  map lower (filter nonempty (map strip raw)).

(** The entries of [successful_titles]: title, engagement and tags. *)
Definition successful_titles (tags : list string) (posts : list LLMEngagementPost)
  : list (string * Q * list string) :=
  let hits := filter (fun p => existsb (fun t => existsb (String.eqb (lower t))
                                                      (post_tags_lower (le_tags p))) tags)
                     posts in
  sort_stable (fun e => snd (fst e)) desc_Q
    (map (fun p => (le_title p, le_engagement_ratio p, post_tags_lower (le_tags p))) hits).

(** The three title templates of each content type, as f-strings over
    [tags[0]]. *)
Definition title_patterns_of (t0 : string) : list (string * list string) :=
  [("tutorial",
     ["Building " ++ t0 ++ " Applications: A Step-by-Step Guide";
      "How to Master " ++ t0 ++ " Development";
      "Practical " ++ t0 ++ " Tips for Real-World Projects"]);
   ("best-practices",
     [t0 ++ " Best Practices for Professional Developers";
      "Writing Better " ++ t0 ++ " Code: Tips and Tricks";
      "Advanced " ++ t0 ++ " Patterns You Should Know"]);
   ("deep-dive",
     ["Deep Dive: Advanced " ++ t0 ++ " Concepts";
      "Understanding " ++ t0 ++ " Internals";
      "Advanced " ++ t0 ++ " Architecture Patterns"])]%string.

(** [_generate_title(pattern, tags, analysis_data)] with
    [analysis_data['highest_engagement_posts']] as [posts].  The prompt
    built from [successful_titles] is a local string that is never read;
    the [patterns] dict is built before [random.choice], so an empty
    [tags] raises [IndexError] there. *)
Definition _generate_title (pattern : string) (tags : list string)
  (posts : list LLMEngagementPost) (g : RNG) : result string * RNG :=
  let _ := firstn 5 (successful_titles tags posts) in
  match tags with
  | [] => (Err IndexError, g)
  | t0 :: rest =>
      let patterns := title_patterns_of t0 in
      let title_patterns :=
        match str_lookup pattern patterns with
        | Some l => l
        | None => match str_lookup "tutorial" patterns with Some l => l | None => [] end
        end in
      let (r, g') := random_choice title_patterns g in
      (chosen_title <- r ;;
       Ok (match rest with
           | t1 :: _ =>
               if negb (str_contains "with" chosen_title)
               then py_replace chosen_title t0 (t0 ++ " with " ++ t1)
               else chosen_title
           | [] => chosen_title
           end), g')
  end.

(* ------------------------------------------------------------------ *)
(** ** [LLMService._get_mock_topic_ideas] (src/app/llm_service.py) *)

(** Computations that draw from [random] and may raise. *)
Definition RS (A : Type) : Type := RNG -> result A * RNG.

Definition rs_ret {A : Type} (a : A) : RS A := fun g => (Ok a, g).

Definition rs_bind {A B : Type} (m : RS A) (f : A -> RS B) : RS B :=
  fun g => match m g with
           | (Ok a, g') => f a g'
           | (Err e, g') => (Err e, g')
           end.

Notation "x <-- m ;;; k" := (rs_bind m (fun x => k))
  (at level 61, m at next level, right associativity).

(** The keys of [analysis_data] the method reads: a missing
    ['top_tags'] or ['highest_engagement_posts'] reads as [[]], and
    [has_series] only looks at the length of ['series_performance']. *)
Record TopicInput : Type := mkTopicInput {
  ti_top_tags : list LLMTag;
  ti_highest_engagement_posts : list LLMEngagementPost;
  ti_series_count : nat
}.

(** [get_data_for_llm_analysis] has no ['series_performance'] key. *)
Definition topic_input_of_llm_data (d : LLMData) : TopicInput :=
  mkTopicInput (ld_top_tags d) (ld_highest_engagement_posts d) 0.

Record TopicIdea : Type := mkTopicIdea {
  idea_title : string;
  idea_description : string;
  idea_suggested_tags : list string;
  idea_estimated_reading_time : N;
  idea_performance_rationale : string;
  idea_series_potential : string
}.

(** [[self._normalize_tag(tag.strip()) for tag in tags if tag.strip()]]
    over [post.get('tags', '').split(',')] or [post.get('tags', [])]. *)
Definition post_tags_normalized (v : option TagVal) : list string :=
  let raw := match v with
             | Some (TVStr s) => split_comma s
             | Some (TVList l) => l
             | None => []
             end in
  map _normalize_tag (filter nonempty (map strip raw)).

Fixpoint strs_eqb (a b : list string) : bool :=
  match a, b with
  | [], [] => true
  | x :: a', y :: b' => String.eqb x y && strs_eqb a' b'
  | _, _ => false
  end.

(** Python's [max(a, b)]: [b] only when [b > a]. *)
Definition py_max (a b : Q) : Q := if Qle_bool b a then a else b.

(** One post into [successful_tag_combos] (a dict in insertion order):
    a new combo gets count 1, a known one its count raised and the larger
    engagement kept. *)
Fixpoint tag_combo_update (combo : list string) (e : Q) (d : list (list string * (Q * N)))
  : list (list string * (Q * N)) :=
  match d with
  | [] => [(combo, (e, 1%N))]
  | (k, (e0, c)) :: d' =>
      if strs_eqb k combo then (k, (py_max e0 e, (c + 1)%N)) :: d'
      else (k, (e0, c)) :: tag_combo_update combo e d'
  end.

Definition successful_tag_combos (posts : list LLMEngagementPost)
  : list (list string * (Q * N)) :=
  fold_left (fun d p =>
               let tags := post_tags_normalized (le_tags p) in
               if (2 <=? List.length tags)%nat
               then tag_combo_update (sort_stable (fun t => t) asc_str tags) (le_engagement_ratio p) d
               else d)
            posts [].

(** [key=lambda x: (x[1]['engagement'], x[1]['count']), reverse=True]:
    tuples compared lexicographically, larger first. *)
Definition desc_eng_count (a b : Q * N) : bool :=
  negb (Qle_bool (fst a) (fst b)) || (Qeq_bool (fst a) (fst b) && N.leb (snd b) (snd a)).

(** [ideas[:n]], with Python's reading of a negative [n]. *)
Definition py_slice_to {A : Type} (l : list A) (n : Z) : list A :=
  if (0 <=? n)%Z then firstn (Z.to_nat n) l
  else firstn (Z.to_nat (Z.of_nat (List.length l) + n)) l.

Section MockTopicIdeas.
(** [f"{x:.Nf}"] and [f"{n}"] on numbers. *)
Variable format_fixed : nat -> Q -> string.
Variable format_int : N -> string.

Definition series_text (has_series : bool) (s : string) : string :=
  if has_series then s else "Standalone post".

Definition _get_mock_topic_ideas (analysis_data : TopicInput) (num_ideas : Z)
  : RS (list TopicIdea) :=
  let top_tags := ti_top_tags analysis_data in
  let top_performing_tags := firstn 5 (map (fun t => _normalize_tag (lt_tag t)) top_tags) in
  let posts := ti_highest_engagement_posts analysis_data in
  let best_combos := sort_stable snd desc_eng_count (successful_tag_combos posts) in
  let has_series := (0 <? ti_series_count analysis_data)%nat in
  let avg_of (t0 : string) :=
    match find (fun t => String.eqb (lt_tag t) (lower t0)) top_tags with
    | Some t => lt_avg_reactions t
    | None => 0
    end in
  idea1 <--
    match top_performing_tags with
    | t0 :: t1 :: _ =>
        title <-- _generate_title "tutorial" [t0; t1] posts ;;;
        rs_ret [mkTopicIdea title
          ("A comprehensive guide combining " ++ t0 ++ " and " ++ t1 ++ " to build production-ready applications. Learn best practices, optimization techniques, and real-world implementation patterns.")
          [t0; t1; _normalize_tag "tutorial"; _normalize_tag "programming"] 8
          ("Combines your two best-performing tags (" ++ t0 ++ ", " ++ t1 ++ ") which have an average of " ++ format_fixed 1 (avg_of t0) ++ " reactions per post.")
          (series_text has_series "Would work well as a 3-part series")]
    | _ => rs_ret []
    end ;;;
  idea2 <--
    match top_performing_tags with
    | t0 :: _ =>
        title <-- _generate_title "best-practices" [t0] posts ;;;
        rs_ret [mkTopicIdea title
          ("Learn from real-world experience about common pitfalls in " ++ t0 ++ " development. Includes code examples, performance tips, and maintainability guidelines.")
          [t0; _normalize_tag "bestpractices"; _normalize_tag "programming"; _normalize_tag "debugging"] 7
          ("Your content in " ++ t0 ++ " consistently performs well with " ++ format_fixed 1 (avg_of t0) ++ " average reactions.")
          "Standalone post"]
    | [] => rs_ret []
    end ;;;
  idea3 <--
    match best_combos with
    | (best_combo, (eng, count)) :: _ =>
        title <-- _generate_title "tutorial" best_combo posts ;;;
        match best_combo with
        | b0 :: b1 :: _ =>
            rs_ret [mkTopicIdea title
              ("Learn how to integrate " ++ b0 ++ " with " ++ b1 ++ " to create robust applications. Based on real-world best practices and performance optimization techniques.")
              (best_combo ++ [_normalize_tag "tutorial"; _normalize_tag "webdev"]) 9
              ("This tag combination has historically performed very well, with " ++ format_fixed 3 eng ++ " engagement ratio across " ++ format_int count ++ " posts.")
              (series_text has_series "Would work well as a 4-part series")]
        | _ => fun g => (Err IndexError, g)
        end
    | [] => rs_ret []
    end ;;;
  idea4 <--
    match top_performing_tags with
    | t0 :: _ =>
        title <-- _generate_title "best-practices" [t0; "testing"%string] posts ;;;
        rs_ret [mkTopicIdea title
          ("A comprehensive guide to testing " ++ t0 ++ " applications. Covers unit testing, integration testing, and setting up CI/CD pipelines.")
          [t0; _normalize_tag "testing"; _normalize_tag "automation"; _normalize_tag "devops"] 8
          ("Content about " ++ t0 ++ " combined with testing/automation typically drives high engagement.")
          (series_text has_series "Would work well as a 3-part testing series")]
    | [] => rs_ret []
    end ;;;
  idea5 <--
    match top_performing_tags with
    | t0 :: t1 :: _ =>
        title <-- _generate_title "deep-dive" [t0; t1] posts ;;;
        rs_ret [mkTopicIdea title
          ("Deep dive into performance optimization for applications using " ++ t0 ++ " and " ++ t1 ++ ". Includes benchmarking, profiling, and practical optimization techniques.")
          [t0; t1; _normalize_tag "performance"; _normalize_tag "optimization"] 7
          ("Performance-focused content using your top tags (" ++ t0 ++ ", " ++ t1 ++ ") consistently drives high engagement.")
          (series_text has_series "Would work well as a performance optimization series")]
    | _ => rs_ret []
    end ;;;
  idea6 <--
    match top_performing_tags with
    | t0 :: _ =>
        title <-- _generate_title "best-practices" [t0; "security"%string] posts ;;;
        rs_ret [mkTopicIdea title
          ("Essential security considerations and implementation techniques for " ++ t0 ++ " applications. Covers common vulnerabilities, security testing, and secure coding practices.")
          [t0; _normalize_tag "security"; _normalize_tag "webdev"; _normalize_tag "bestpractices"] 8
          "Security topics consistently perform well across technical audiences, especially when combined with specific technology implementations."
          (series_text has_series "Would work well as a security series")]
    | [] => rs_ret []
    end ;;;
  idea7 <--
    match top_performing_tags with
    | t0 :: t1 :: _ =>
        title <-- _generate_title "deep-dive" [t0; t1] posts ;;;
        rs_ret [mkTopicIdea title
          ("Explore modern software architecture patterns using " ++ t0 ++ " and " ++ t1 ++ ". Learn about microservices, serverless, and scalable architectures.")
          [t0; t1; _normalize_tag "architecture"; _normalize_tag "design-patterns"] 9
          "Architecture-focused content tends to drive high engagement, especially when combined with practical implementation using top-performing technologies."
          (series_text has_series "Would work well as a 5-part architecture series")]
    | _ => rs_ret []
    end ;;;
  rs_ret (py_slice_to (idea1 ++ idea2 ++ idea3 ++ idea4 ++ idea5 ++ idea6 ++ idea7) num_ideas).

(** [generate_topic_ideas]: [use_mock] is always [True]. *)
Definition generate_topic_ideas (analysis_data : TopicInput) (num_ideas : Z) : RS (list TopicIdea) :=
  _get_mock_topic_ideas analysis_data num_ideas.
End MockTopicIdeas.

(* ------------------------------------------------------------------ *)
(** ** [LLMService._get_mock_insights] (src/app/llm_service.py) *)

(** The keys of [analysis_data] the method reads; a missing list reads
    as empty, as the code tests each key and its length together. *)
Record InsightInput : Type := mkInsightInput {
  ii_top_tags : list LLMTag;
  ii_series_count : nat;
  ii_best_days : list (TimeStat string);
  ii_best_hours : list (TimeStat Z);
  ii_tag_recommendations : list Recommendation
}.

Definition insight_input_of_llm_data (d : LLMData) : InsightInput :=
  mkInsightInput (ld_top_tags d) 0 (ld_best_days d) (ld_best_hours d) [].

Record Insights : Type := mkInsights {
  ins_performance_summary : string;
  ins_key_patterns : list string;
  ins_content_recommendations : list string;
  ins_best_days : list string;
  ins_best_hours : list string;
  ins_recommended_tags : list string;
  ins_content_type : string;
  ins_style_tips : string;
  ins_series_strategy : string;
  ins_engagement_boosters : string
}.

(** [rec.get('type') == 'top_performing' and 'tags' in rec]. *)
Definition top_performing_tags_of (r : Recommendation) : option (list string) :=
  match r with
  | RecTopPerforming tags _ => Some tags
  | _ => None
  end.

Section MockInsights.
(** [f"{n}"] on an integer. *)
Variable str_int : Z -> string.

Definition _get_mock_insights (analysis_data : InsightInput) : result Insights :=
  let top_tags := match ii_top_tags analysis_data with
                  | [] => ["javascript"; "webdev"; "programming"]%string
                  | l => map lt_tag (firstn 3 l)
                  end in
  let series_strategy :=
    match ii_series_count analysis_data with
    | O => "Consider creating more series content to engage your audience more deeply. Series posts tend to build reader loyalty and encourage return visits."%string
    | S _ => "Your series content is performing well. Continue creating series posts for complex topics, ideally keeping them to 3-5 parts for optimal completion rates."%string
    end in
  let best_days := match ii_best_days analysis_data with
                   | [] => ["Tuesday"; "Thursday"]%string
                   | l => map tm_key (firstn 2 l)
                   end in
  let best_hours := match ii_best_hours analysis_data with
                    | [] => ["8:00"; "12:00"]%string
                    | l => map (fun h => str_int (tm_key h) ++ ":00")%string (firstn 2 l)
                    end in
  let recommended_tags :=
    match find (fun r => match top_performing_tags_of r with Some _ => true | None => false end)
               (ii_tag_recommendations analysis_data) with
    | Some r => match top_performing_tags_of r with Some tags => tags | None => top_tags end
    | None => top_tags
    end in
  match top_tags with
  | [] => Err IndexError
  | t0 :: rest =>
      Ok (mkInsights
        ("Your dev.to blog posts show good engagement with healthy reaction and comment rates. Your content in the " ++ String.concat ", " top_tags ++ " tags performs particularly well. Your posts with practical, solution-oriented content receive higher engagement than more theoretical pieces.")
        ["Tutorial-style posts with specific code examples typically get 40% more engagement";
         "Posts with 5-10 minute reading times perform better than both shorter and longer content";
         "Articles published on " ++ String.concat " and " best_days ++ " receive more reactions and comments";
         "Content tagged with '" ++ String.concat ", " top_tags ++ "' consistently attracts more readers";
         "Posts that include diagrams or visual elements get 30% more reactions"]%string
        ["Create more step-by-step tutorials with practical code examples";
         "Break complex topics into series of 5-8 minute reading time posts";
         "Include diagrams or visualizations to improve engagement on conceptual topics";
         "End posts with a clear call-to-action like a question to increase comment rates";
         "Add a personal perspective to technical content to differentiate your writing";
         "Use the tag combination '" ++ t0 ++ " + " ++
           match rest with t1 :: _ => t1 | [] => "react" end ++ "' for highest visibility"]%string
        best_days best_hours recommended_tags
        "In-depth tutorials with practical code examples and clear explanations of technical concepts"
        "Aim for 5-8 minute reading time, use headings to break up content, include code samples, and end with thought-provoking questions to encourage comments"
        series_strategy
        "Respond quickly to comments on your posts to foster community. Share your posts on Twitter and LinkedIn with thoughtful commentary. Consider cross-posting popular content to your personal blog with canonical URLs pointing to dev.to. Ask engaging questions at the end of your posts to encourage discussion.")
  end.

(** [generate_insights]: [use_mock] is always [True]. *)
Definition generate_insights (analysis_data : InsightInput) : result Insights :=
  _get_mock_insights analysis_data.
End MockInsights.

(* ------------------------------------------------------------------ *)
(** ** The Flask routes (src/app/app.py) *)

(** What a route returns: [jsonify({'error': str(e)}), status], the
    results of an analysis (rendered or as JSON), or the LLM outputs. *)
Inductive AppResponse : Type :=
| ErrorResponse (status : N)
| AnalyzeResponse (status : N) (report : Report) (insights : option Insights)
    (topic_ideas : option (list TopicIdea)) (llm_enabled : bool) (llm_provider : string)
| InsightsResponse (status : N) (insights : Insights)
| TopicIdeasResponse (status : N) (topic_ideas : list TopicIdea).

(** [if not x] on an optional string field of the request. *)
Definition py_truthy (v : option string) : bool :=
  match v with
  | None | Some EmptyString => false
  | Some _ => true
  end.

(** The [llm_enabled] / [llm_provider] selection of both analysis routes,
    with [os.getenv("OPENAI_API_KEY")] and [os.getenv("GROQ_API_KEY")]. *)
Definition select_llm (llm_provider : string) (openai_key groq_key : option string)
  : bool * string :=
  if String.eqb llm_provider "openai" && py_truthy openai_key then (true, llm_provider)
  else if String.eqb llm_provider "groq" && py_truthy groq_key then (true, llm_provider)
  else if String.eqb llm_provider "none" then (false, llm_provider)
  else (true, "mock"%string).

Section Routes.
Variable argsort : list Q -> list nat.
Variable parse_datetime : string -> option (string * Z).
Variable str_int : Z -> string.
Variable format_fixed : nat -> Q -> string.
Variable format_int : N -> string.

(** The part both analysis routes share once the report is built:
    [get_data_for_llm_analysis], the provider selection and the LLM
    calls, inside the same [try] (the form route also stores the report
    in the session, which does not raise). *)
Definition analyze_after_report (username : string) (llm_provider : string)
  (openai_key groq_key : option string) (detailed_articles : list Article)
  (report : Report) (g : RNG) : AppResponse :=
  let (d, g1) := get_data_for_llm_analysis argsort parse_datetime username detailed_articles g in
  match d with
  | Err _ => ErrorResponse 500
  | Ok llm_data =>
      let (llm_enabled, provider) := select_llm llm_provider openai_key groq_key in
      if llm_enabled then
        match generate_insights str_int (insight_input_of_llm_data llm_data) with
        | Err _ => ErrorResponse 500
        | Ok insights =>
            match fst (generate_topic_ideas format_fixed format_int
                         (topic_input_of_llm_data llm_data) 5 g1) with
            | Err _ => ErrorResponse 500
            | Ok topic_ideas =>
                AnalyzeResponse 200 report (Some insights) (Some topic_ideas) true provider
            end
        end
      else AnalyzeResponse 200 report None None false provider
  end.

(** [POST /analyze] and [POST /api/analyze].  [detailed] is the outcome of
    the network part inside the [try] ([fetch_all_articles] for the form
    route, then [get_detailed_articles], which [calculate_metrics] calls
    on a fresh analyzer): the merged articles, or the exception raised. *)
Definition analyze_route (username : option string) (llm_provider : string)
  (openai_key groq_key : option string) (now : string)
  (detailed : result (list Article)) (g : RNG) : AppResponse :=
  match username with
  | None | Some EmptyString => ErrorResponse 400
  | Some u =>
      match detailed with
      | Err _ => ErrorResponse 500
      | Ok detailed_articles =>
          let (r, g1) := generate_analysis_report argsort parse_datetime u now detailed_articles g in
          match r with
          | Err _ => ErrorResponse 500
          | Ok report => analyze_after_report u llm_provider openai_key groq_key
                           detailed_articles report g1
          end
      end
  end.

(** [POST /api/generate-insights]; [None] is a missing or empty report. *)
Definition api_generate_insights (report : option InsightInput) : AppResponse :=
  match report with
  | None => ErrorResponse 400
  | Some r =>
      match generate_insights str_int r with
      | Err _ => ErrorResponse 500
      | Ok insights => InsightsResponse 200 insights
      end
  end.

(** [POST /api/generate-topic-ideas], [num_ideas] defaulting to 5. *)
Definition api_generate_topic_ideas (report : option TopicInput) (num_ideas : option Z)
  (g : RNG) : AppResponse :=
  match report with
  | None => ErrorResponse 400
  | Some r =>
      let n := match num_ideas with Some n => n | None => 5%Z end in
      match fst (generate_topic_ideas format_fixed format_int r n g) with
      | Err _ => ErrorResponse 500
      | Ok topic_ideas => TopicIdeasResponse 200 topic_ideas
      end
  end.
End Routes.
End Capitalize.

(* ================================================================== *)
(** * Properties *)

(* ------------------------------------------------------------------ *)
(** ** The stable sort: permutation, order, stability *)

Section StableSortFacts.
Variables (A K : Type) (key : A -> K) (kle : K -> K -> bool).
Hypothesis kle_total : forall a b, kle a b = false -> kle b a = true.

Let R (x y : A) : Prop := kle (key x) (key y) = true.

Lemma insert_stable_perm (x : A) (l : list A) :
  Permutation (insert_stable key kle x l) (x :: l).
Proof.
  induction l as [|y l IH]; simpl; [reflexivity|].
  destruct (kle (key x) (key y)); [reflexivity|].
  rewrite IH. apply perm_swap.
Qed.

Lemma sort_stable_perm (l : list A) : Permutation (sort_stable key kle l) l.
Proof.
  induction l as [|x l IH]; simpl; [reflexivity|].
  rewrite insert_stable_perm. now apply perm_skip.
Qed.

Lemma insert_stable_sorted (x : A) (l : list A) :
  Sorted R l -> Sorted R (insert_stable key kle x l).
Proof.
  induction l as [|y l IH]; simpl; intros Hs.
  - repeat constructor.
  - destruct (kle (key x) (key y)) eqn:Hxy.
    + constructor; [exact Hs|]. constructor. exact Hxy.
    + inversion Hs as [|? ? Hl Hhd]; subst.
      constructor; [now apply IH|].
      destruct l as [|z l']; simpl.
      * constructor. unfold R. now apply kle_total.
      * destruct (kle (key x) (key z)).
        -- constructor. unfold R. now apply kle_total.
        -- inversion Hhd; subst. constructor. assumption.
Qed.

Lemma sort_stable_sorted (l : list A) : Sorted R (sort_stable key kle l).
Proof.
  induction l as [|x l IH]; simpl; [constructor|].
  now apply insert_stable_sorted.
Qed.

(** Stability: inside one class of equivalent keys the order is kept. *)
Variables (keq : K -> K -> bool) (k0 : K).
Hypothesis keq_kle : forall a b, keq a k0 = true -> keq b k0 = true -> kle a b = true.

Let P (y : A) : bool := keq (key y) k0.

Lemma insert_stable_filter (x : A) (l : list A) :
  filter P (insert_stable key kle x l) = filter P (x :: l).
Proof.
  induction l as [|y l IH]; simpl; [reflexivity|].
  destruct (kle (key x) (key y)) eqn:Hxy; [reflexivity|].
  simpl. rewrite IH. simpl.
  destruct (P x) eqn:Px, (P y) eqn:Py; try reflexivity.
  unfold P in Px, Py. rewrite (keq_kle _ _ Px Py) in Hxy. discriminate.
Qed.

Lemma sort_stable_filter (l : list A) :
  filter P (sort_stable key kle l) = filter P l.
Proof.
  induction l as [|x l IH]; simpl; [reflexivity|].
  rewrite insert_stable_filter. simpl. now rewrite IH.
Qed.
End StableSortFacts.

Lemma desc_N_total (a b : N) : desc_N a b = false -> desc_N b a = true.
Proof. unfold desc_N. rewrite N.leb_gt, N.leb_le. lia. Qed.

Lemma desc_Q_total (a b : Q) : desc_Q a b = false -> desc_Q b a = true.
Proof.
  unfold desc_Q. intros H. apply Qle_bool_iff.
  destruct (Qlt_le_dec a b) as [Hlt|Hle]; [now apply Qlt_le_weak|].
  apply Qle_bool_iff in Hle. congruence.
Qed.

Lemma asc_str_total (a b : string) : asc_str a b = false -> asc_str b a = true.
Proof.
  unfold asc_str. intros H. destruct (String.leb_total a b) as [H'|H']; congruence.
Qed.

(* ------------------------------------------------------------------ *)
(** ** Arithmetic on counts *)

Lemma QN_nonneg (n : N) : 0 <= QN n.
Proof. unfold QN. change 0 with (inject_Z 0). rewrite <- Zle_Qle. lia. Qed.

Lemma QN_max1_pos (n : N) : 0 < QN (N.max n 1).
Proof. unfold QN. change 0 with (inject_Z 0). rewrite <- Zlt_Qlt. lia. Qed.

Lemma QN_add (a b : N) : QN (a + b) == QN a + QN b.
Proof. unfold QN. rewrite N2Z.inj_add, inject_Z_plus. reflexivity. Qed.

Lemma Qdiv_nonneg (a b : Q) : 0 <= a -> 0 < b -> 0 <= a / b.
Proof.
  intros Ha Hb. apply Qle_shift_div_l; [exact Hb|]. now rewrite Qmult_0_l.
Qed.

Lemma Qdiv_one (a : Q) : a / 1 == a.
Proof. unfold Qdiv. change (/ 1) with 1. apply Qmult_1_r. Qed.

(* ------------------------------------------------------------------ *)
(** ** [calculate_metrics]: the shape of the prepared rows *)

Lemma calculate_metrics_df_rows (df : list Article) (g g' : RNG) (rows : list Row) :
  calculate_metrics_df df g = (Ok rows, g') ->
  forall row, In row rows ->
  exists a v rt, row = make_row a v (fillna0 (a_public_reactions_count a))
                              (fillna0 (a_comments_count a)) rt.
Proof.
  unfold calculate_metrics_df. intros Hc row Hin.
  destruct (if negb (col_present a_page_views_count df) then _ else _) as [vcol g1].
  injection Hc as Hb _.
  destruct vcol as [vs|e]; [|discriminate]. simpl in Hb.
  destruct (reading_col df) as [rts|e]; [|discriminate]. simpl in Hb.
  injection Hb as <-. apply in_map_iff in Hin.
  destruct Hin as [[a [v rt]] [<- _]]. now exists a, v, rt.
Qed.

(** C1: every row [calculate_metrics] prepares has
    [engagement_ratio = (reactions + comments) / max(views, 1)]; the
    denominator is positive, the ratio is non-negative, and for zero views
    it is [reactions + comments]. *)
Theorem engagement_ratio_formula (df : list Article) (g g' : RNG) (rows : list Row) :
  calculate_metrics_df df g = (Ok rows, g') ->
  Forall (fun r =>
            r_engagement_ratio r == (QN (r_reactions r) + QN (r_comments r)) / QN (N.max (r_views r) 1)
            /\ 0 < QN (N.max (r_views r) 1)
            /\ 0 <= r_engagement_ratio r
            /\ (r_views r = 0%N -> r_engagement_ratio r == QN (r_reactions r) + QN (r_comments r)))
         rows.
Proof.
  intros Hc. apply Forall_forall. intros row Hin.
  destruct (calculate_metrics_df_rows df g g' rows Hc row Hin) as [a [v [rt ->]]].
  unfold make_row; simpl. split; [reflexivity|]. split; [apply QN_max1_pos|]. split.
  - apply Qdiv_nonneg; [|apply QN_max1_pos].
    rewrite <- (Qplus_0_l 0). apply Qplus_le_compat; apply QN_nonneg.
  - intros ->. apply Qdiv_one.
Qed.

Lemma engagement_ratio_formula_witness :
  exists rows g',
    calculate_metrics_df [zero_view_article] [] = (Ok rows, g') /\
    rows <> [] /\
    Forall (fun r => r_views r = 0%N ->
                     r_engagement_ratio r == QN (r_reactions r) + QN (r_comments r)) rows.
Proof.
  set (res := calculate_metrics_df [zero_view_article] []).
  exists (match fst res with Ok r => r | Err _ => [] end), (snd res).
  assert (Hc : res = (Ok (match fst res with Ok r => r | Err _ => [] end), snd res))
    by (vm_compute; reflexivity).
  split; [exact Hc|]. split; [vm_compute; discriminate|].
  pose proof (engagement_ratio_formula _ _ _ _ Hc) as HF.
  eapply Forall_impl; [|exact HF]. intros r [_ [_ [_ Hz]]]. exact Hz.
Defined.


(* ------------------------------------------------------------------ *)
(** ** [_sort_and_format]: the ranking *)













(* ------------------------------------------------------------------ *)
(** ** [_analyze_tag_performance]: the accumulation pass *)

Lemma fold_left_flat_map {B C D : Type} (f : D -> C -> D) (g : B -> list C) (l : list B) (a : D) :
  fold_left f (flat_map g l) a = fold_left (fun a x => fold_left f (g x) a) l a.
Proof.
  revert a. induction l as [|x l IH]; intros a; simpl; [reflexivity|].
  now rewrite fold_left_app, IH.
Qed.

Lemma acc_row_pairs (fld : TagField) (m : list (string * TagAcc)) (r : Row) :
  acc_row fld m r = fold_left upd (map (fun t => (t, r)) (filter nonempty (row_tags fld r))) m.
Proof.
  unfold acc_row. generalize (row_tags fld r) as ts. intros ts. revert m.
  induction ts as [|t ts IH]; intros m; simpl; [reflexivity|].
  destruct (nonempty t); simpl; apply IH.
Qed.

Lemma accumulate_pairs (fld : TagField) (df : list Row) :
  accumulate fld df = fold_left upd (tag_pairs_in fld df) [].
Proof.
  unfold accumulate, tag_pairs_in. rewrite fold_left_flat_map.
  generalize (@nil (string * TagAcc)) as m.
  induction df as [|r df IH]; intros m; simpl; [reflexivity|].
  rewrite acc_row_pairs. apply IH.
Qed.

(** Every accumulator enters the map with its first occurrence counted. *)
Lemma acc_update_count_pos (t : string) (r : Row) (m : list (string * TagAcc)) :
  Forall (fun p => (1 <= t_count (snd p))%N) m ->
  Forall (fun p => (1 <= t_count (snd p))%N) (acc_update t r m).
Proof.
  induction m as [|[k s] m IH]; simpl; intros Hm.
  - constructor; [simpl; lia | constructor].
  - inversion Hm as [|? ? Hks Hrest]; subst.
    destruct (String.eqb k t).
    + constructor; [simpl in *; lia | exact Hrest].
    + constructor; [exact Hks | now apply IH].
Qed.

Lemma fold_upd_count_pos (ps : list (string * Row)) (m : list (string * TagAcc)) :
  Forall (fun p => (1 <= t_count (snd p))%N) m ->
  Forall (fun p => (1 <= t_count (snd p))%N) (fold_left upd ps m).
Proof.
  revert m. induction ps as [|p ps IH]; intros m Hm; simpl; [exact Hm|].
  apply IH. now apply acc_update_count_pos.
Qed.

Lemma accumulate_count_pos (fld : TagField) (df : list Row) :
  Forall (fun p => (1 <= t_count (snd p))%N) (accumulate fld df).
Proof. rewrite accumulate_pairs. apply fold_upd_count_pos. constructor. Qed.

Lemma QN_pos_neq0 (n : N) : (1 <= n)%N -> Qeq_bool (QN n) 0 = false.
Proof.
  intros Hn. unfold Qeq_bool, QN, inject_Z. simpl.
  apply Z.eqb_neq. lia.
Qed.

(** With a positive count the averages and the engagement are computed. *)
Lemma finish_tag_ok (t : string) (s : TagAcc) :
  (1 <= t_count s)%N ->
  finish_tag (t, s) =
  Ok (mkTagStat t (t_count s) (t_views s) (t_reactions s) (t_comments s)
        (QN (t_views s) / QN (t_count s)) (QN (t_reactions s) / QN (t_count s))
        (QN (t_comments s) / QN (t_count s))
        (QN (t_reactions s + t_comments s) / QN (N.max (t_views s) 1))).
Proof.
  intros Hc. unfold finish_tag, py_div.
  rewrite (QN_pos_neq0 _ Hc). simpl.
  rewrite (QN_pos_neq0 (N.max (t_views s) 1)) by lia. reflexivity.
Qed.

Lemma finish_all_ok (acc : list (string * TagAcc)) :
  Forall (fun p => (1 <= t_count (snd p))%N) acc ->
  results_list (map finish_tag acc) = Ok (map finished acc).
Proof.
  induction acc as [|[t s] acc IH]; intros H; cbn [map results_list]; [reflexivity|].
  inversion H as [|? ? Hs Hrest]; subst.
  rewrite (finish_tag_ok t s Hs). cbn [bind]. now rewrite (IH Hrest).
Qed.

Lemma analyze_tag_performance_eq (df : list Row) :
  _analyze_tag_performance df =
  Ok (match tag_field_of df with
      | Some fld => sort_stable ts_views desc_N (map finished (accumulate fld df))
      | None => []
      end).
Proof.
  unfold _analyze_tag_performance.
  destruct (tag_field_of df) as [fld|]; [|reflexivity].
  destruct df as [|r df]; [reflexivity|].
  rewrite finish_all_ok by apply accumulate_count_pos. reflexivity.
Qed.

(** C10: every accumulator has [count >= 1] when its averages are
    computed, so none of the divisions raises and the tag pass returns a
    result for every article list. *)
Theorem tag_performance_total (df : list Row) :
  (forall fld,
      Forall (fun p => (1 <= t_count (snd p))%N) (accumulate fld df) /\
      results_list (map finish_tag (accumulate fld df)) = Ok (map finished (accumulate fld df))) /\
  exists out, _analyze_tag_performance df = Ok out.
Proof.
  split.
  - intros fld. split; [apply accumulate_count_pos|].
    apply finish_all_ok, accumulate_count_pos.
  - eexists. apply analyze_tag_performance_eq.
Qed.

(** The keys of the accumulator map. *)
Lemma acc_update_keys (t : string) (r : Row) (m : list (string * TagAcc)) :
  map fst (acc_update t r m) =
  if existsb (fun k => String.eqb k t) (map fst m) then map fst m else map fst m ++ [t].
Proof.
  induction m as [|[k s] m IH]; simpl; [reflexivity|].
  destruct (String.eqb k t); simpl; [reflexivity|].
  rewrite IH. now destruct (existsb _ _).
Qed.

Lemma acc_update_nodup (t : string) (r : Row) (m : list (string * TagAcc)) :
  NoDup (map fst m) -> NoDup (map fst (acc_update t r m)).
Proof.
  intros Hn. rewrite acc_update_keys.
  destruct (existsb (fun k => String.eqb k t) (map fst m)) eqn:E; [exact Hn|].
  apply NoDup_app; [exact Hn | repeat constructor; simpl; tauto |].
  intros x Hx Hx'. destruct Hx' as [Heq|[]]. subst t.
  assert (Hin : existsb (fun k => String.eqb k x) (map fst m) = true).
  { apply existsb_exists. exists x. split; [exact Hx | apply String.eqb_refl]. }
  congruence.
Qed.

Lemma acc_update_in_keys (t x : string) (r : Row) (m : list (string * TagAcc)) :
  In x (map fst (acc_update t r m)) <-> x = t \/ In x (map fst m).
Proof.
  rewrite acc_update_keys.
  destruct (existsb (fun k => String.eqb k t) (map fst m)) eqn:E.
  - split; [tauto|]. intros [->|H]; [|exact H].
    apply existsb_exists in E. destruct E as [k [Hk Ek]].
    apply String.eqb_eq in Ek. now subst.
  - rewrite in_app_iff. simpl.
    split; [intros [H|[H|[]]]; [right|left]; auto
           | intros [H|H]; [right; left; auto | left; exact H]].
Qed.

(** One step of the accumulation, read back at key [x]. *)
Lemma acc_update_entry (t x : string) (r : Row) (m : list (string * TagAcc)) (s : TagAcc) :
  NoDup (map fst m) ->
  In (x, s) (acc_update t r m) ->
  (x = t /\ ((exists s1, In (x, s1) m /\ s = add_row s1 r) \/
             (~ In x (map fst m) /\ s = add_row zero_acc r)))
  \/ (x <> t /\ In (x, s) m).
Proof.
  induction m as [|[k s0] m IH]; simpl; intros Hn Hin.
  - destruct Hin as [Heq|[]]. injection Heq as Hx Hs; subst. left. split; [reflexivity|]. right. tauto.
  - inversion Hn as [|? ? Hk Hn']; subst.
    destruct (String.eqb k t) eqn:Ekt.
    + apply String.eqb_eq in Ekt. subst k.
      destruct Hin as [Heq|Hin].
      * injection Heq as Hx Hs; subst. left. split; [reflexivity|]. left. exists s0. tauto.
      * assert (x <> t) by (intros ->; apply Hk; apply in_map_iff; now exists (t, s)).
        right. tauto.
    + destruct Hin as [Heq|Hin].
      * injection Heq as Hx Hs; subst. right. split; [|tauto].
        intros ->. rewrite String.eqb_refl in Ekt. discriminate.
      * destruct (IH Hn' Hin) as [[-> [[s1 [Hs1 ->]]|[Hnot ->]]]|[Hxt Hxs]].
        -- left. split; [reflexivity|]. left. exists s1. tauto.
        -- left. split; [reflexivity|]. right. split; [|reflexivity].
           intros [Heq|H]; [|tauto]. subst k. rewrite String.eqb_refl in Ekt. discriminate.
        -- right. tauto.
Qed.

Lemma fold_upd_nodup (ps : list (string * Row)) (m : list (string * TagAcc)) :
  NoDup (map fst m) -> NoDup (map fst (fold_left upd ps m)).
Proof.
  revert m. induction ps as [|[t r] ps IH]; intros m Hn; simpl; [exact Hn|].
  apply IH. now apply acc_update_nodup.
Qed.

Lemma fold_upd_in_keys (ps : list (string * Row)) (m : list (string * TagAcc)) (x : string) :
  In x (map fst (fold_left upd ps m)) <-> In x (map fst m) \/ In x (map fst ps).
Proof.
  revert m. induction ps as [|[t r] ps IH]; intros m; simpl; [tauto|].
  rewrite IH. unfold upd; simpl. rewrite acc_update_in_keys.
  split; [intros [[->|H]|H]; auto | intros [H|[->|H]]; auto].
Qed.

Lemma rows_of_tag_cons (x t : string) (r : Row) (ps : list (string * Row)) :
  rows_of_tag x ((t, r) :: ps) =
  if String.eqb t x then r :: rows_of_tag x ps else rows_of_tag x ps.
Proof. unfold rows_of_tag. simpl. now destruct (String.eqb t x). Qed.

(** What the accumulation leaves at key [x]: every row paired with [x],
    added in order. *)
Lemma fold_upd_entry (ps : list (string * Row)) (m : list (string * TagAcc))
  (x : string) (s : TagAcc) :
  NoDup (map fst m) ->
  In (x, s) (fold_left upd ps m) ->
  (exists s0, In (x, s0) m /\ s = fold_left add_row (rows_of_tag x ps) s0) \/
  (~ In x (map fst m) /\ s = fold_left add_row (rows_of_tag x ps) zero_acc).
Proof.
  revert m. induction ps as [|[t r] ps IH]; intros m Hn Hin; simpl in Hin.
  - left. exists s. split; [exact Hin | reflexivity].
  - rewrite rows_of_tag_cons.
    destruct (IH _ (acc_update_nodup t r m Hn) Hin) as [[s0 [Hs0 ->]]|[Hnot ->]].
    + destruct (acc_update_entry t x r m s0 Hn Hs0)
        as [[-> [[s1 [Hs1 ->]]|[Hnot ->]]]|[Hxt Hxs]].
      * rewrite String.eqb_refl. left. exists s1. split; [exact Hs1 | reflexivity].
      * rewrite String.eqb_refl. right. split; [exact Hnot | reflexivity].
      * destruct (String.eqb t x) eqn:E.
        -- apply String.eqb_eq in E. congruence.
        -- left. exists s0. split; [exact Hxs | reflexivity].
    + rewrite acc_update_in_keys in Hnot.
      destruct (String.eqb t x) eqn:E.
      * apply String.eqb_eq in E. exfalso. apply Hnot. now left.
      * right. split; [tauto | reflexivity].
Qed.

Lemma fold_add_row (rs : list Row) (s : TagAcc) :
  fold_left add_row rs s =
  mkTagAcc (t_count s + N.of_nat (List.length rs)) (t_views s + sum_N (map r_views rs))
           (t_reactions s + sum_N (map r_reactions rs))
           (t_comments s + sum_N (map r_comments rs)).
Proof.
  revert s. induction rs as [|r rs IH]; intros [c v re co]; simpl.
  - f_equal; lia.
  - rewrite IH. simpl. f_equal; lia.
Qed.

Lemma sorted_impl {B : Type} (R R' : B -> B -> Prop) (l : list B) :
  (forall x y, R x y -> R' x y) -> Sorted R l -> Sorted R' l.
Proof.
  intros Himp Hs. induction Hs as [|a l Hs IH Hhd]; constructor; [exact IH|].
  destruct Hhd; constructor. now apply Himp.
Qed.

Lemma finished_tag (p : string * TagAcc) : ts_tag (finished p) = fst p.
Proof. now destruct p. Qed.

(** C6, as the code computes it: one entry per distinct tag, its totals
    summed over the [(article, tag)] pairs of that tag, averages and
    engagement computed from the totals, the list in descending
    [total_views] order; on scenario B a single [python] entry with
    [count = 3], [total_reactions = 60], [total_comments = 6],
    [avg_reactions = 20] and [engagement = 66 / 300 = 0.22]. *)
Theorem tag_performance_accumulates :
  (forall df : list Row,
     exists out, _analyze_tag_performance df = Ok out /\
       Sorted (fun a b => (ts_views b <= ts_views a)%N) out /\
       NoDup (map ts_tag out) /\
       (forall t, In t (map ts_tag out) <-> In t (map fst (tag_pairs df))) /\
       Forall (fun s =>
          let rs := rows_of_tag (ts_tag s) (tag_pairs df) in
          ts_count s = N.of_nat (List.length rs) /\
          ts_views s = sum_N (map r_views rs) /\
          ts_reactions s = sum_N (map r_reactions rs) /\
          ts_comments s = sum_N (map r_comments rs) /\
          ts_avg_views s = (QN (ts_views s) / QN (ts_count s))%Q /\
          ts_avg_reactions s = (QN (ts_reactions s) / QN (ts_count s))%Q /\
          ts_avg_comments s = (QN (ts_comments s) / QN (ts_count s))%Q /\
          ts_engagement s = (QN (ts_reactions s + ts_comments s) / QN (N.max (ts_views s) 1))%Q)
         out)
  /\
  (exists rows g' s,
     calculate_metrics_df scenario_B [] = (Ok rows, g') /\
     _analyze_tag_performance rows = Ok [s] /\
     ts_tag s = "python"%string /\ ts_count s = 3%N /\ ts_reactions s = 60%N /\
     ts_comments s = 6%N /\ ts_avg_reactions s == 20 /\ ts_engagement s == 22 # 100).
Proof.
  split.
  - intros df. rewrite analyze_tag_performance_eq. eexists. split; [reflexivity|].
    unfold tag_pairs. destruct (tag_field_of df) as [fld|].
    2:{ split; [constructor|]. split; [constructor|]. split; [simpl; tauto|]. constructor. }
    rewrite accumulate_pairs.
    set (acc := fold_left upd (tag_pairs_in fld df) []).
    assert (Hperm : Permutation (sort_stable ts_views desc_N (map finished acc)) (map finished acc))
      by apply sort_stable_perm.
    assert (Hnd : NoDup (map fst acc)) by (apply fold_upd_nodup; constructor).
    assert (Htags : map ts_tag (map finished acc) = map fst acc).
    { rewrite map_map. apply map_ext. apply finished_tag. }
    split.
    { eapply sorted_impl; [|apply (sort_stable_sorted _ _ ts_views desc_N desc_N_total)].
      intros a b H. unfold desc_N in H. now apply N.leb_le in H. }
    split.
    { eapply Permutation_NoDup; [symmetry; apply Permutation_map; exact Hperm|].
      now rewrite Htags. }
    split.
    { intros t. assert (Hpm := Permutation_map ts_tag Hperm). rewrite Htags in Hpm.
      assert (Hk := fold_upd_in_keys (tag_pairs_in fld df) [] t). fold acc in Hk.
      split; intros H.
      - apply (Permutation_in _ Hpm), Hk in H. destruct H as [[]|H]. exact H.
      - apply (Permutation_in _ (Permutation_sym Hpm)), Hk. right. exact H. }
    apply Forall_forall. intros s Hs.
    apply (Permutation_in _ Hperm), in_map_iff in Hs.
    destruct Hs as [[x a] [<- Hin]].
    destruct (fold_upd_entry _ [] x a (NoDup_nil _) Hin) as [[s0 [[] _]]|[_ ->]].
    rewrite fold_add_row. simpl. repeat split.
  - do 3 eexists. split; [reflexivity|]. split; [reflexivity|].
    repeat split; reflexivity.
Qed.

(** C6, the scenario's engagement: the code divides by the tag's total
    views (300), so the engagement is not [66 / 100]. *)
Lemma tag_performance_scenario_engagement :
  ~ (exists rows g' s,
        calculate_metrics_df scenario_B [] = (Ok rows, g') /\
        _analyze_tag_performance rows = Ok [s] /\ ts_engagement s == 66 # 100).
Proof.
  intros [rows [g' [s [H1 [H2 H3]]]]].
  vm_compute in H1. inversion H1; subst; clear H1.
  vm_compute in H2. inversion H2; subst; clear H2.
  vm_compute in H3. discriminate H3.
Qed.

(* ------------------------------------------------------------------ *)
(** ** Tag ingestion *)

Lemma rows_of_tag_single (t : string) (r : Row) (l : list string) :
  List.length (rows_of_tag t (map (fun x => (x, r)) l)) = count_occ string_dec l t.
Proof.
  induction l as [|x l IH]; simpl; [reflexivity|].
  rewrite rows_of_tag_cons. destruct (String.eqb x t) eqn:E.
  - apply String.eqb_eq in E. subst. simpl. rewrite IH.
    destruct (string_dec t t); [reflexivity|congruence].
  - apply String.eqb_neq in E. rewrite IH.
    destruct (string_dec x t); [congruence|reflexivity].
Qed.

Lemma rows_of_tag_app (t : string) (ps qs : list (string * Row)) :
  rows_of_tag t (ps ++ qs) = rows_of_tag t ps ++ rows_of_tag t qs.
Proof. unfold rows_of_tag. now rewrite filter_app, map_app. Qed.

(** The number of [(tag, row)] pairs of a tag, row by row. *)
Lemma rows_of_tag_count (fld : TagField) (t : string) (df : list Row) :
  List.length (rows_of_tag t (tag_pairs_in fld df)) =
  list_sum (map (fun r => count_occ string_dec (filter nonempty (row_tags fld r)) t) df).
Proof.
  induction df as [|r df IH]; [reflexivity|].
  unfold tag_pairs_in in *. simpl. rewrite rows_of_tag_app, length_app, IH.
  now rewrite rows_of_tag_single.
Qed.

(** C8, as the code does it, for every article list: the tags are read
    from the [tags] column when it exists, else from [tag_list], and none
    are read when neither exists.  A list cell is used as it is, a string is
    split on commas and stripped, empty pieces are dropped ([tags_of_cell]),
    and a tag's [count] is the number of times it occurs in these sequences,
    summed over the articles: a tag repeated within one article counts once
    per occurrence. *)
Theorem tag_sequence_keeps_duplicates (df : list Row) (out : list TagStat) :
  _analyze_tag_performance df = Ok out ->
  (col_present a_tags (map r_art df) = true ->
     forall s, In s out ->
       ts_count s = N.of_nat (list_sum (map (fun r =>
         count_occ string_dec (filter nonempty (tags_of_cell (a_tags (r_art r)))) (ts_tag s)) df))) /\
  (col_present a_tags (map r_art df) = false -> col_present a_tag_list (map r_art df) = true ->
     forall s, In s out ->
       ts_count s = N.of_nat (list_sum (map (fun r =>
         count_occ string_dec (filter nonempty (tags_of_cell (a_tag_list (r_art r)))) (ts_tag s)) df))) /\
  (col_present a_tags (map r_art df) = false -> col_present a_tag_list (map r_art df) = false ->
     out = []).
Proof.
  intros Hout. rewrite analyze_tag_performance_eq in Hout. injection Hout as <-.
  assert (Hcount : forall fld s,
    In s (sort_stable ts_views desc_N (map finished (accumulate fld df))) ->
    ts_count s = N.of_nat (list_sum (map (fun r =>
      count_occ string_dec (filter nonempty (row_tags fld r)) (ts_tag s)) df))).
  { intros fld s Hs.
    apply (Permutation_in _ (sort_stable_perm _ _ _ _ _)), in_map_iff in Hs.
    destruct Hs as [[x acc] [<- Hin]]. rewrite accumulate_pairs in Hin.
    destruct (fold_upd_entry _ [] x acc (NoDup_nil _) Hin) as [[s0 [[] _]]|[_ ->]].
    rewrite fold_add_row. simpl. rewrite rows_of_tag_count. lia. }
  unfold tag_field_of. split; [|split].
  - intros Ht. rewrite Ht. apply (Hcount FTags).
  - intros Ht Hl. rewrite Ht, Hl. apply (Hcount FTagList).
  - intros Ht Hl. now rewrite Ht, Hl.
Qed.

Lemma tag_sequence_keeps_duplicates_witness :
  exists out,
    _analyze_tag_performance [dup_row] = Ok out /\
    col_present a_tags (map r_art [dup_row]) = true /\
    forall s, In s out ->
      ts_count s = N.of_nat (list_sum (map (fun r =>
        count_occ string_dec (filter nonempty (tags_of_cell (a_tags (r_art r)))) (ts_tag s))
        [dup_row])).
Proof.
  set (o := match _analyze_tag_performance [dup_row] with
            | Ok l => l
            | Err _ => []
            end).
  assert (Hout : _analyze_tag_performance [dup_row] = Ok o) by (vm_compute; reflexivity).
  exists o. split; [exact Hout|]. split; [reflexivity|].
  exact (proj1 (tag_sequence_keeps_duplicates [dup_row] o Hout) eq_refl).
Defined.


(** C8, uniqueness: the string ["python, python"] yields the sequence
    [["python"; "python"]], and the single article counts twice. *)
Lemma tag_sequence_duplicate_string :
  tag_field_of [dup_row] = Some FTags /\
  row_tags FTags dup_row = ["python"; "python"]%string /\
  ~ NoDup (row_tags FTags dup_row) /\
  exists s, _analyze_tag_performance [dup_row] = Ok [s] /\ ts_count s = 2%N.
Proof.
  split; [reflexivity|]. split; [reflexivity|]. split.
  - vm_compute. intros H. inversion H as [|? ? Hn _]. apply Hn. now left.
  - eexists. split; [vm_compute; reflexivity | reflexivity].
Qed.

(* ------------------------------------------------------------------ *)
(** ** The "top performing" recommendation group *)

Lemma analyze_tag_performance_nodup (df : list Row) (tp : list TagStat) :
  _analyze_tag_performance df = Ok tp -> NoDup (map ts_tag tp).
Proof.
  rewrite analyze_tag_performance_eq. intros H. injection H as <-.
  destruct (tag_field_of df) as [fld|]; [|constructor].
  eapply Permutation_NoDup; [symmetry; apply Permutation_map, sort_stable_perm|].
  rewrite map_map, (map_ext _ fst finished_tag).
  rewrite accumulate_pairs. apply fold_upd_nodup. constructor.
Qed.

Lemma NoDup_map_inj {B C : Type} (f : B -> C) (l : list B) (x y : B) :
  NoDup (map f l) -> In x l -> In y l -> f x = f y -> x = y.
Proof.
  induction l as [|a l IH]; simpl; intros Hn Hx Hy Hf; [destruct Hx|].
  inversion Hn as [|? ? Ha Hn']; subst.
  destruct Hx as [<-|Hx], Hy as [<-|Hy]; auto.
  - exfalso. apply Ha. rewrite Hf. now apply in_map.
  - exfalso. apply Ha. rewrite <- Hf. now apply in_map.
Qed.

Lemma strongly_sorted_app_rel {B : Type} (R : B -> B -> Prop) (l1 l2 : list B) (x y : B) :
  StronglySorted R (l1 ++ l2) -> In x l1 -> In y l2 -> R x y.
Proof.
  induction l1 as [|a l1 IH]; simpl; intros Hs Hx Hy; [destruct Hx|].
  apply StronglySorted_inv in Hs. destruct Hs as [Hs Hf].
  destruct Hx as [<-|Hx].
  - rewrite Forall_forall in Hf. apply Hf, in_app_iff. now right.
  - now apply IH.
Qed.

Lemma desc_Q_trans (a b c : Q) : desc_Q a b = true -> desc_Q b c = true -> desc_Q a c = true.
Proof.
  unfold desc_Q. rewrite !Qle_bool_iff. intros H1 H2. eapply Qle_trans; eassumption.
Qed.

(** The recommendation list, split by group. *)
Lemma recommendations_top_in (df : list Row) (tp recs : list _) tags ms :
  _analyze_tag_performance df = Ok tp ->
  generate_tag_recommendations df = Ok recs ->
  In (RecTopPerforming tags ms) recs <->
  (df <> [] /\ (3 <= List.length tp)%nat /\
   tags = map ts_tag (firstn 3 (sort_stable tag_score desc_Q tp)) /\
   ms = map (fun t => (ts_tag t, ts_avg_reactions t, ts_avg_comments t))
            (firstn 3 (sort_stable tag_score desc_Q tp))).
Proof.
  intros Htp Hrec. unfold generate_tag_recommendations in Hrec.
  destruct df as [|r df'].
  - injection Hrec as <-. simpl. split; [tauto|]. intros [H _]. now apply H.
  - rewrite Htp in Hrec. cbn [bind] in Hrec. injection Hrec as <-.
    rewrite <- (Permutation_length (sort_stable_perm _ _ tag_score desc_Q tp)).
    set (tps := sort_stable tag_score desc_Q tp).
    rewrite !in_app_iff. clearbody tps.
    split.
    + intros [H|[H|[H|H]]].
      * destruct tps as [|a [|b [|c rest]]]; simpl in H; try contradiction.
        destruct H as [H|[]]. injection H as <- <-.
        split; [discriminate|]. simpl. split; [lia|]. auto.
      * match type of H with
        | context [match ?x with [] => _ | _ :: _ => _ end] => destruct x
        end; simpl in H; [contradiction|]. destruct H as [H|[]]; discriminate.
      * match type of H with
        | context [match ?x with [] => _ | _ :: _ => _ end] => destruct x
        end; simpl in H; [contradiction|]. destruct H as [H|[]]; discriminate.
      * match type of H with
        | context [match ?x with [] => _ | _ :: _ => _ end] => destruct x
        end; simpl in H; [contradiction|]. destruct H as [H|[]]; discriminate.
    + intros [_ [Hl [-> ->]]]. left.
      destruct tps as [|a [|b [|c rest]]]; simpl in Hl; try lia. simpl. now left.
Qed.

Lemma in_firstn_in {B : Type} (n : nat) (l : list B) (x : B) :
  In x (firstn n l) -> In x l.
Proof.
  intros H. rewrite <- (firstn_skipn n l). apply in_or_app. now left.
Qed.

(** Two elements in a given order, kept by [filter]. *)
Lemma filter_before {B : Type} (f : B -> bool) (l l1 l2 l3 : list B) (x y : B) :
  l = l1 ++ x :: l2 ++ y :: l3 -> f x = true -> f y = true ->
  exists m1 m2 m3, filter f l = m1 ++ x :: m2 ++ y :: m3.
Proof.
  intros -> Hx Hy. rewrite filter_app. simpl. rewrite Hx, filter_app. simpl. rewrite Hy.
  now exists (filter f l1), (filter f l2), (filter f l3).
Qed.

Lemma filter_before_inv {B : Type} (f : B -> bool) (l m1 m2 m3 : list B) (x y : B) :
  filter f l = m1 ++ x :: m2 ++ y :: m3 ->
  exists l1 l2 l3, l = l1 ++ x :: l2 ++ y :: l3.
Proof.
  revert m1. induction l as [|a l IH]; intros m1 H; simpl in H.
  - destruct m1; discriminate.
  - destruct (f a) eqn:Fa.
    + destruct m1 as [|b m1].
      * injection H as <- H.
        assert (Hy : In y (filter f l)) by (rewrite H; apply in_or_app; right; now left).
        apply filter_In in Hy. destruct Hy as [Hy _].
        apply in_split in Hy. destruct Hy as [l2 [l3 ->]].
        now exists [], l2, l3.
      * injection H as <- H. destruct (IH m1 H) as [l1 [l2 [l3 ->]]].
        now exists (a :: l1), l2, l3.
    + destruct (IH m1 H) as [l1 [l2 [l3 ->]]]. now exists (a :: l1), l2, l3.
Qed.

(** In a list without duplicates, an element of a prefix drags along
    everything before it. *)
Lemma firstn_before {B : Type} (n : nat) (l l1 l2 l3 : list B) (x y : B) :
  NoDup l -> l = l1 ++ x :: l2 ++ y :: l3 -> In y (firstn n l) ->
  exists l3', firstn n l = l1 ++ x :: l2 ++ y :: l3'.
Proof.
  intros Hnd Hl Hy.
  assert (HA : l = (l1 ++ x :: l2) ++ y :: l3) by (rewrite Hl, <- app_assoc; reflexivity).
  rewrite HA in Hy, Hnd |- *. rewrite firstn_app in Hy |- *.
  set (A := l1 ++ x :: l2) in *.
  destruct (Nat.le_gt_cases n (List.length A)) as [Hle|Hgt].
  - exfalso. replace (n - List.length A)%nat with 0%nat in Hy by lia.
    rewrite app_nil_r in Hy. apply in_firstn_in in Hy.
    apply NoDup_remove_2 in Hnd. apply Hnd. apply in_or_app. now left.
  - rewrite firstn_all2 by lia.
    destruct (n - List.length A)%nat as [|k] eqn:Ek; [lia|].
    exists (firstn k l3). unfold A. simpl. rewrite <- app_assoc. reflexivity.
Qed.

(** C7: when both passes succeed, the "top performing" group is present
    exactly when the input is nonempty and there are at least three distinct
    tags; it then names three distinct tags of the tag table, and every tag in
    the group has a score (average reactions plus average comments) at least
    that of every tag outside it. The ranking key is this score, not the
    total views; between two tags of equal score, the one earlier in the
    tag table (its [total_views] order) is listed whenever the later one
    is, and before it. *)
Theorem top_performing_group (df : list Row) (tp : list TagStat) (recs : list Recommendation) :
  _analyze_tag_performance df = Ok tp ->
  generate_tag_recommendations df = Ok recs ->
  NoDup (map ts_tag tp) /\
  ((exists tags ms, In (RecTopPerforming tags ms) recs) <->
   (df <> [] /\ (3 <= List.length tp)%nat)) /\
  (forall tags ms, In (RecTopPerforming tags ms) recs ->
     List.length tags = 3%nat /\ NoDup tags /\ incl tags (map ts_tag tp) /\
     (forall s t, In s tp -> In t tp -> In (ts_tag s) tags -> ~ In (ts_tag t) tags ->
        tag_score t <= tag_score s) /\
     (forall s t l1 l2 l3, tp = l1 ++ s :: l2 ++ t :: l3 -> tag_score s == tag_score t ->
        In (ts_tag t) tags -> exists u1 u2 u3, tags = u1 ++ ts_tag s :: u2 ++ ts_tag t :: u3)).
Proof.
  intros Htp Hrec.
  pose proof (analyze_tag_performance_nodup df tp Htp) as Hnd.
  set (tps := sort_stable tag_score desc_Q tp).
  assert (Hperm : Permutation tps tp) by apply sort_stable_perm.
  assert (Hnds : NoDup (map ts_tag tps)).
  { eapply Permutation_NoDup; [|exact Hnd]. symmetry. now apply Permutation_map. }
  split; [exact Hnd|]. split.
  - split.
    + intros [tags [ms H]].
      apply (recommendations_top_in df tp recs tags ms Htp Hrec) in H. tauto.
    + intros [Hne Hl].
      exists (map ts_tag (firstn 3 tps)),
        (map (fun t => (ts_tag t, ts_avg_reactions t, ts_avg_comments t)) (firstn 3 tps)).
      apply (recommendations_top_in df tp recs _ _ Htp Hrec). auto.
  - intros tags ms H.
    apply (recommendations_top_in df tp recs tags ms Htp Hrec) in H.
    destruct H as [_ [Hl [Htags _]]]. fold tps in Htags. subst tags.
    assert (Hsplit : tps = firstn 3 tps ++ skipn 3 tps) by (symmetry; apply firstn_skipn).
    assert (Hlen : List.length tps = List.length tp) by now apply Permutation_length.
    split; [|split; [|split; [|split]]].
    + rewrite length_map, length_firstn. lia.
    + rewrite Hsplit, map_app in Hnds. now apply NoDup_app_remove_r in Hnds.
    + intros x Hx. apply in_map_iff in Hx. destruct Hx as [u [<- Hu]].
      apply in_map. eapply Permutation_in; [exact Hperm|]. eapply in_firstn_in; exact Hu.
    + intros s t Hs Ht Hsin Htn.
      apply in_map_iff in Hsin. destruct Hsin as [s' [Hss' Hs']].
      assert (Hs'tp : In s' tp).
      { eapply Permutation_in; [exact Hperm|]. eapply in_firstn_in; exact Hs'. }
      assert (s' = s) by (apply (NoDup_map_inj ts_tag tp); auto). subst s'.
      assert (Https : In t tps) by (eapply Permutation_in; [symmetry; exact Hperm|exact Ht]).
      rewrite Hsplit in Https. apply in_app_iff in Https.
      destruct Https as [Ht1|Ht2]; [exfalso; apply Htn; now apply in_map|].
      assert (Hss : StronglySorted (fun x y => desc_Q (tag_score x) (tag_score y) = true)
                      (firstn 3 tps ++ skipn 3 tps)).
      { rewrite <- Hsplit. apply Sorted_StronglySorted.
        - intros a b c. apply desc_Q_trans.
        - apply sort_stable_sorted. apply desc_Q_total. }
      pose proof (strongly_sorted_app_rel _ _ _ s t Hss Hs' Ht2) as Hq.
      unfold desc_Q in Hq. now apply Qle_bool_iff in Hq.
    + intros s t l1 l2 l3 Htp' Heq Ht.
      assert (Hsin : In s tp) by (rewrite Htp'; apply in_or_app; right; now left).
      assert (Htin : In t tp).
      { rewrite Htp'. apply in_or_app. right. right. apply in_or_app. right. now left. }
      apply in_map_iff in Ht. destruct Ht as [t' [Htt' Ht']].
      assert (Ht'tp : In t' tp).
      { eapply Permutation_in; [exact Hperm|]. eapply in_firstn_in; exact Ht'. }
      assert (t' = t) by (apply (NoDup_map_inj ts_tag tp); auto). subst t'.
      set (P := fun y => Qeq_bool (tag_score y) (tag_score t)).
      assert (Hfil : filter P tps = filter P tp).
      { apply (sort_stable_filter _ _ tag_score desc_Q Qeq_bool (tag_score t)).
        intros a b Ha Hb. unfold desc_Q. apply Qle_bool_iff.
        apply Qeq_bool_iff in Ha, Hb. rewrite Ha, Hb. apply Qle_refl. }
      destruct (filter_before P tp l1 l2 l3 s t Htp') as [m1 [m2 [m3 Hm]]].
      { unfold P. now apply Qeq_bool_iff. }
      { unfold P. apply Qeq_bool_iff. apply Qeq_refl. }
      rewrite <- Hfil in Hm.
      destruct (filter_before_inv P tps m1 m2 m3 s t Hm) as [k1 [k2 [k3 Hk]]].
      assert (Hndt : NoDup tps) by (eapply NoDup_map_inv; exact Hnds).
      destruct (firstn_before 3 tps k1 k2 k3 s t Hndt Hk Ht') as [k3' Hf].
      rewrite Hf, map_app. simpl. rewrite map_app. simpl.
      now exists (map ts_tag k1), (map ts_tag k2), (map ts_tag k3').
Qed.

Lemma top_performing_group_witness :
  exists tp recs,
    _analyze_tag_performance c7_rows = Ok tp /\
    generate_tag_recommendations c7_rows = Ok recs /\
    (exists tags ms, In (RecTopPerforming tags ms) recs).
Proof.
  eexists. eexists. split; [vm_compute; reflexivity|]. split; [vm_compute; reflexivity|].
  apply (proj2 (proj1 (proj2 (top_performing_group c7_rows _ _
           ltac:(vm_compute; reflexivity) ltac:(vm_compute; reflexivity))))).
  split; [discriminate|vm_compute; lia].
Defined.

(** C7 (counterexample): with tags a, b, c holding the three largest total
    views (1000, 900, 800) and tag d the smallest (10) but the best
    reactions, no "top performing" group contains a, b and c: the group is
    d, a, b. *)
Lemma top_performing_not_by_views :
  ~ exists recs tags ms,
      generate_tag_recommendations c7_rows = Ok recs /\
      In (RecTopPerforming tags ms) recs /\
      incl ["a"%string; "b"%string; "c"%string] tags.
Proof.
  intros [recs [tags [ms [H [Hin Hincl]]]]].
  vm_compute in H. injection H as <-.
  simpl in Hin. destruct Hin as [Hin|[Hin|[]]]; [|discriminate].
  injection Hin as <- _.
  assert (Hc : In "c"%string ["a"%string; "b"%string; "c"%string]) by (simpl; auto).
  apply Hincl in Hc. simpl in Hc.
  destruct Hc as [Hc|[Hc|[Hc|[]]]]; discriminate.
Qed.

(** C3: [_calculate_overall_stats] on zero articles does not return a
    zero-valued structure. Its four averages are pandas means of empty
    columns, i.e. NaN, and the call [self._get_most_used_tags] names no
    method of [DevToAnalyzer], so the whole call raises AttributeError, on
    the empty input and on every other one. *)
Theorem overall_stats_empty_fails :
  existsb (String.eqb "_get_most_used_tags") DevToAnalyzer_methods = false /\
  py_mean (map r_views []) = PNaN /\
  py_mean (map r_reactions []) = PNaN /\
  py_mean (map r_comments []) = PNaN /\
  py_mean (map r_reading_time []) = PNaN /\
  _calculate_overall_stats [] = Err AttributeError /\
  (forall df, _calculate_overall_stats df = Err AttributeError).
Proof.
  repeat split; intros; reflexivity.
Qed.

(* ------------------------------------------------------------------ *)
(** ** Series: completion rate and part numbers *)

Lemma last_map {B C : Type} (f : B -> C) (l : list B) (d : B) :
  last (map f l) (f d) = f (last l d).
Proof.
  induction l as [|x l IH]; [reflexivity|].
  destruct l as [|y l]; [reflexivity|]. exact IH.
Qed.

Lemma last_cons_default {B : Type} (x : B) (l : list B) (d d' : B) :
  last (x :: l) d = last (x :: l) d'.
Proof.
  revert x. induction l as [|y l IH]; intros x; [reflexivity|]. apply IH.
Qed.

Lemma completion_rate_spec (arts : list Article) (v0 : N) (rest : list N) :
  map views_of arts = v0 :: rest ->
  ((List.length arts = 1%nat \/ v0 = 0%N) -> completion_rate arts = 0%Q) /\
  (List.length arts <> 1%nat -> v0 <> 0%N ->
     completion_rate arts = (QN (last (v0 :: rest) 0%N) / QN v0)%Q).
Proof.
  destruct arts as [|a [|b arts]]; simpl; intros H; [discriminate| |].
  - split; [reflexivity|]. intros Hn. now exfalso.
  - injection H as Ha Hr. subst v0. split.
    + intros [Hn|Hz]; [discriminate|]. rewrite Hz. reflexivity.
    + intros _ Hz. replace (views_of a <? 0)%N with false by (symmetry; apply N.ltb_ge; lia).
      destruct (0 <? views_of a)%N eqn:E; [|apply N.ltb_ge in E; lia].
      f_equal. f_equal. rewrite <- Hr.
      rewrite (last_cons_default _ _ 0%N (views_of a)).
      change (views_of (last (b :: arts) a) = last (map views_of (b :: arts)) (views_of a)).
      symmetry. apply last_map.
Qed.

(** C4: every series entry of [analyze_series_performance] has at least one
    member, and, reading the member views in the stored (published) order
    as [v0 :: rest], its completion rate is 0 when the series has one member
    or [v0] is 0, and is exactly [last / v0] otherwise. *)
Theorem series_completion_rate (series : list (string * SeriesData)) (p : SeriesPerf) :
  In p (analyze_series_performance series) ->
  (exists sid d, In (sid, d) series /\
     map sa_views (sp_articles p) = map (fun x => views_of (fst x)) (sd_articles d)) /\
  (1 <= sp_article_count p)%nat /\
  List.length (sp_articles p) = sp_article_count p /\
  (forall v0 rest, map sa_views (sp_articles p) = v0 :: rest ->
     ((sp_article_count p = 1%nat \/ v0 = 0%N) -> sp_completion_rate p = 0%Q) /\
     (sp_article_count p <> 1%nat -> v0 <> 0%N ->
        sp_completion_rate p = (QN (last (v0 :: rest) 0%N) / QN v0)%Q)).
Proof.
  unfold analyze_series_performance. intros Hin.
  apply (Permutation_in _ (sort_stable_perm _ _ sp_total_reactions desc_N _)) in Hin.
  apply in_flat_map in Hin. destruct Hin as [[sid d] [Hsd Hp]].
  unfold series_perf in Hp.
  assert (Hviews : forall l : list (Article * N),
    map sa_views (map (fun '(a, part) =>
        mkSeriesArticle (a_id a) (a_title a) part (get0 (a_public_reactions_count a))
          (get0 (a_comments_count a)) (views_of a)) l) = map views_of (map fst l)).
  { induction l as [|[a q] l IH]; simpl; [reflexivity|]. now rewrite IH. }
  destruct (List.length (map fst (sd_articles d))) eqn:Hn; [destruct Hp|].
  simpl in Hp. destruct Hp as [<-|[]]. simpl.
  rewrite Hviews, <- Hn. split; [|split; [lia|split]].
  - exists sid, d. split; [exact Hsd|]. now rewrite map_map.
  - now rewrite !length_map.
  - intros v0 rest H. now apply completion_rate_spec.
Qed.

Lemma group_add_keys (sid k : string) (a : Article) (m : list (string * list Article)) :
  In k (map fst (group_add sid a m)) <-> k = sid \/ In k (map fst m).
Proof.
  induction m as [|[k0 l0] m IH]; simpl; [intuition congruence|].
  destruct (String.eqb k0 sid) eqn:E; simpl.
  - apply String.eqb_eq in E. subst k0. intuition congruence.
  - rewrite IH. intuition congruence.
Qed.

Lemma group_add_nodup (sid : string) (a : Article) (m : list (string * list Article)) :
  NoDup (map fst m) -> NoDup (map fst (group_add sid a m)).
Proof.
  induction m as [|[k0 l0] m IH]; simpl; intros Hn.
  - constructor; [intros []|constructor].
  - inversion Hn as [|? ? Hk Hn']; subst.
    destruct (String.eqb k0 sid) eqn:E; simpl; constructor; auto.
    rewrite group_add_keys. apply String.eqb_neq in E. intros [H|H]; [congruence|tauto].
Qed.

Lemma group_add_in (sid k : string) (a : Article) (l : list Article)
  (m : list (string * list Article)) :
  NoDup (map fst m) -> In (k, l) (group_add sid a m) ->
  (k = sid /\ ((exists l0, In (sid, l0) m /\ l = l0 ++ [a]) \/
               (~ In sid (map fst m) /\ l = [a]))) \/
  (k <> sid /\ In (k, l) m).
Proof.
  induction m as [|[k0 l0] m IH]; simpl; intros Hn Hin.
  - destruct Hin as [Hin|[]]. injection Hin as <- <-. left. split; auto.
  - inversion Hn as [|? ? Hk Hn']; subst.
    destruct (String.eqb k0 sid) eqn:E.
    + apply String.eqb_eq in E. subst k0.
      destruct Hin as [Hin|Hin].
      * injection Hin as <- <-. left. split; [reflexivity|]. left. exists l0. auto.
      * right. split; [|now right].
        intros ->. apply Hk. change sid with (fst (sid, l)). now apply in_map.
    + apply String.eqb_neq in E. destruct Hin as [Hin|Hin].
      * injection Hin as <- <-. right. auto.
      * destruct (IH Hn' Hin) as [[-> [[l1 [H1 H2]]|[H1 H2]]]|[H1 H2]].
        -- left. split; [reflexivity|]. left. exists l1. auto.
        -- left. split; [reflexivity|]. right. split; [|exact H2].
           intros [H|H]; [congruence|tauto].
        -- right. auto.
Qed.

Lemma filter_nil_of {B : Type} (f : B -> bool) (l : list B) :
  (forall x, In x l -> f x = false) -> filter f l = [].
Proof.
  induction l as [|x l IH]; simpl; intros H; [reflexivity|].
  rewrite (H x (or_introl eq_refl)). apply IH. auto.
Qed.

Lemma group_inv_step (pre : list Article) (a : Article) (m : list (string * list Article)) :
  group_inv pre m ->
  group_inv (pre ++ [a])
    (match a_series a with
     | Some sid => if nonempty sid then group_add sid a m else m
     | None => m
     end).
Proof.
  intros [Hn [Hm Hk]].
  destruct (a_series a) as [s|] eqn:Ha; [destruct (nonempty s) eqn:Hs|].
  - split; [|split].
    + now apply group_add_nodup.
    + intros k l Hin. rewrite filter_app. simpl. unfold has_series at 2. rewrite Ha.
      destruct (group_add_in s k a l m Hn Hin) as [[-> [[l0 [H1 ->]]|[H1 ->]]]|[H1 H2]].
      * rewrite String.eqb_refl. destruct (Hm _ _ H1) as [Hne ->]. auto.
      * rewrite String.eqb_refl. split; [exact Hs|].
        rewrite filter_nil_of; [reflexivity|]. intros x Hx.
        unfold has_series. destruct (a_series x) as [s'|] eqn:Hx'; [|reflexivity].
        apply String.eqb_neq. intros ->. apply H1. now apply (Hk x).
      * destruct (Hm _ _ H2) as [Hne ->]. split; [exact Hne|].
        replace (String.eqb s k) with false by (symmetry; now apply String.eqb_neq).
        now rewrite app_nil_r.
    + intros x s' Hx Hx' Hs'. apply group_add_keys.
      apply in_app_iff in Hx. destruct Hx as [Hx|[<-|[]]].
      * right. now apply (Hk x).
      * left. congruence.
  - split; [exact Hn|split].
    + intros k l Hin. destruct (Hm _ _ Hin) as [Hne ->]. split; [exact Hne|].
      rewrite filter_app. simpl. unfold has_series at 3. rewrite Ha.
      replace (String.eqb s k) with false; [now rewrite app_nil_r|].
      symmetry. apply String.eqb_neq. intros ->. congruence.
    + intros x s' Hx Hx' Hs'. apply in_app_iff in Hx. destruct Hx as [Hx|[<-|[]]].
      * now apply (Hk x).
      * congruence.
  - split; [exact Hn|split].
    + intros k l Hin. destruct (Hm _ _ Hin) as [Hne ->]. split; [exact Hne|].
      rewrite filter_app. simpl. unfold has_series at 3. rewrite Ha.
      now rewrite app_nil_r.
    + intros x s' Hx Hx' Hs'. apply in_app_iff in Hx. destruct Hx as [Hx|[<-|[]]].
      * now apply (Hk x).
      * congruence.
Qed.

Lemma group_series_spec (articles : list Article) (sid : string) (arts : list Article) :
  In (sid, arts) (group_series articles) ->
  nonempty sid = true /\ arts = filter (has_series sid) articles.
Proof.
  unfold group_series.
  assert (H : forall pre m, group_inv pre m ->
    group_inv (pre ++ articles)
      (fold_left (fun m a =>
                    match a_series a with
                    | Some sid => if nonempty sid then group_add sid a m else m
                    | None => m
                    end) articles m)).
  { induction articles as [|a rest IH]; intros pre m Hi; simpl.
    - now rewrite app_nil_r.
    - replace (pre ++ a :: rest) with ((pre ++ [a]) ++ rest) by now rewrite <- app_assoc.
      apply IH. now apply group_inv_step. }
  intros Hin. destruct (H [] [] ltac:(split; [constructor|split; simpl; tauto]))
    as [_ [Hm _]].
  exact (Hm _ _ Hin).
Qed.

Lemma number_from_fst (i : N) (l : list Article) : map fst (number_from i l) = l.
Proof.
  revert i. induction l as [|a l IH]; intros i; simpl; [reflexivity|]. now rewrite IH.
Qed.

Lemma number_from_snd (n : nat) (l : list Article) :
  map snd (number_from (N.of_nat n) l) = map N.of_nat (seq n (List.length l)).
Proof.
  revert n. induction l as [|a l IH]; intros n; simpl; [reflexivity|].
  f_equal. replace (N.of_nat n + 1)%N with (N.of_nat (S n)) by lia. apply IH.
Qed.

Lemma extract_series_in (articles : list Article) (sid : string) (d : SeriesData) :
  In (sid, d) (_extract_series_info articles) ->
  exists arts, In (sid, arts) (group_series articles) /\ d = finish_series sid arts.
Proof.
  unfold _extract_series_info. intros Hin. apply in_map_iff in Hin.
  destruct Hin as [[k arts] [Heq Hin]]. injection Heq as Hk Hd. subst. eauto.
Qed.

Lemma asc_str_refl (s : string) : asc_str s s = true.
Proof. unfold asc_str. now destruct (String.leb_total s s). Qed.

Lemma asc_str_empty (s : string) : asc_str EmptyString s = true.
Proof. destruct s; reflexivity. Qed.

(** C5: the members of every series built by [_extract_series_info] are the
    articles carrying that series id, sorted ascending by the key
    [published_at] or [''] when it is missing, stably (articles with equal
    keys keep their fetch order), and [series_part] is the 1-based position.
    A missing timestamp has the least key, so such articles sort first. *)
Theorem series_members_sorted (articles : list Article) (sid : string) (d : SeriesData) :
  In (sid, d) (_extract_series_info articles) ->
  let members := map fst (sd_articles d) in
  Permutation members (filter (has_series sid) articles) /\
  Sorted (fun x y => asc_str (pub_key x) (pub_key y) = true) members /\
  (forall k, filter (fun a => String.eqb (pub_key a) k) members =
             filter (fun a => String.eqb (pub_key a) k) (filter (has_series sid) articles)) /\
  map snd (sd_articles d) = map N.of_nat (seq 1 (List.length members)) /\
  (forall a b, a_published_at a = None -> asc_str (pub_key a) (pub_key b) = true).
Proof.
  intros Hin members.
  destruct (extract_series_in _ _ _ Hin) as [arts [Hg ->]].
  destruct (group_series_spec _ _ _ Hg) as [_ ->].
  subst members. cbn [finish_series sd_articles]. rewrite number_from_fst.
  split; [|split; [|split; [|split]]].
  - apply sort_stable_perm.
  - apply (sort_stable_sorted _ _ pub_key asc_str asc_str_total).
  - intros k. apply (sort_stable_filter _ _ pub_key asc_str String.eqb k).
    intros x y Hx Hy. apply String.eqb_eq in Hx, Hy. subst. apply asc_str_refl.
  - change 1%N with (N.of_nat 1). rewrite number_from_snd. reflexivity.
  - intros a b Ha. unfold pub_key at 1. rewrite Ha. apply asc_str_empty.
Qed.

Lemma series_completion_rate_witness :
  exists p, In p (analyze_series_performance (_extract_series_info series_rows)) /\
            sp_completion_rate p = (QN 40 / QN 100)%Q.
Proof.
  set (L := analyze_series_performance (_extract_series_info series_rows)).
  set (p0 := hd (mkSeriesPerf EmptyString EmptyString 0 0 0 0 0 0 0 0 []) L).
  assert (Hin : In p0 L) by (vm_compute; left; reflexivity).
  exists p0. split; [exact Hin|].
  destruct (series_completion_rate _ _ Hin) as [_ [_ [_ Hc]]].
  apply (proj2 (Hc 100%N [40%N] ltac:(vm_compute; reflexivity)));
    [vm_compute; discriminate | discriminate].
Defined.

Lemma series_members_sorted_witness :
  In ("S1"%string, finish_series "S1" (filter (has_series "S1") series_rows))
     (_extract_series_info series_rows) /\
  map (fun x => (a_id (fst x), snd x))
      (sd_articles (finish_series "S1" (filter (has_series "S1") series_rows))) =
    [(1%N, 1%N); (2%N, 2%N)] /\
  Sorted (fun x y => asc_str (pub_key x) (pub_key y) = true)
    (map fst (sd_articles (finish_series "S1" (filter (has_series "S1") series_rows)))).
Proof.
  assert (Hin : In ("S1"%string, finish_series "S1" (filter (has_series "S1") series_rows))
                   (_extract_series_info series_rows)) by (left; reflexivity).
  split; [exact Hin|]. split; [vm_compute; reflexivity|].
  exact (proj1 (proj2 (series_members_sorted _ _ _ Hin))).
Defined.

(** C5 (counterexample): in series [S1] of [undated_rows] the article
    without [published_at] (id 2) is not placed last: its key [''] sorts
    before the dated one, so it comes first and gets [series_part] 1. *)
Lemma series_undated_sorted_first :
  ~ forall sid d, In (sid, d) (_extract_series_info undated_rows) ->
      forall i j a b, nth_error (sd_articles d) i = Some a ->
        nth_error (sd_articles d) j = Some b ->
        a_published_at (fst a) = None -> a_published_at (fst b) <> None -> (j < i)%nat.
Proof.
  intros H.
  assert (Hin : In ("S1"%string, finish_series "S1" (filter (has_series "S1") undated_rows))
                   (_extract_series_info undated_rows)) by (left; reflexivity).
  assert (Hlt := H _ _ Hin 0%nat 1%nat _ _ eq_refl eq_refl eq_refl ltac:(discriminate)).
  lia.
Qed.

(* ------------------------------------------------------------------ *)
(** ** The view-count fallbacks *)

Lemma randint_100_2000 (g : RNG) :
  (100 <= Z.to_N (fst (randint 100 2000 g)) <= 2000)%N.
Proof.
  unfold randint. destruct (draw g) as [k g']. cbn [fst].
  replace (2000 - 100 + 1)%Z with 1901%Z by reflexivity.
  pose proof (Z.mod_pos_bound k 1901 ltac:(lia)).
  split; [change 100%N with (Z.to_N 100) | change 2000%N with (Z.to_N 2000)];
    apply Z2N.inj_le; lia.
Qed.

Lemma set_views_same (a : Article) (v : N) :
  same_but_views a (set_views a v) /\ a_page_views_count (set_views a v) = Some v.
Proof. repeat split. Qed.

Lemma fallback_all_spec (l : list Article) (g : RNG) :
  Forall2 (fun a a' => same_but_views a a' /\
             exists v, a_page_views_count a' = Some v /\
                       (a_page_views_count a = Some v \/ (100 <= v <= 2000)%N))
          l (fst (fallback_all l g)).
Proof.
  revert g. induction l as [|a l IH]; intros g; simpl; [constructor|].
  unfold fallback_views.
  destruct (a_page_views_count a) as [v|] eqn:Ha.
  - destruct (fallback_all l g) as [l'' g2] eqn:E. simpl. constructor.
    + split; [repeat split|]. exists v. auto.
    + specialize (IH g). rewrite E in IH. exact IH.
  - pose proof (randint_100_2000 g) as Hr.
    destruct (randint 100 2000 g) as [k g1] eqn:Ek.
    destruct (fallback_all l g1) as [l'' g2] eqn:E. simpl. constructor.
    + destruct (set_views_same a (Z.to_N k)) as [Hs Hv]. split; [exact Hs|].
      exists (Z.to_N k). split; [exact Hv|]. right. exact Hr.
    + specialize (IH g1). rewrite E in IH. exact IH.
Qed.

Lemma reroll_all_spec (l : list Article) (g : RNG) :
  Forall2 (fun a a' => same_but_views a a' /\
             exists v, a_page_views_count a' = Some v /\ (100 <= v <= 2000)%N)
          l (fst (reroll_all l g)).
Proof.
  revert g. induction l as [|a l IH]; intros g; simpl; [constructor|].
  pose proof (randint_100_2000 g) as Hr.
  destruct (randint 100 2000 g) as [k g1] eqn:Ek.
  destruct (reroll_all l g1) as [l'' g2] eqn:E. simpl. constructor.
  - destruct (set_views_same a (Z.to_N k)) as [Hs Hv]. split; [exact Hs|].
    exists (Z.to_N k). auto.
  - specialize (IH g1). rewrite E in IH. exact IH.
Qed.

Lemma Forall2_compose {B : Type} (P Q R : B -> B -> Prop) (l1 l2 l3 : list B) :
  (forall x y z, P x y -> Q y z -> R x z) ->
  Forall2 P l1 l2 -> Forall2 Q l2 l3 -> Forall2 R l1 l3.
Proof.
  intros HPQ H12. revert l3. induction H12 as [|x y l1 l2 Hxy H12 IH]; intros l3 H23;
    inversion H23; subst; constructor; eauto.
Qed.

(** The view fallbacks read nothing of an article but its view count. *)
Lemma fallback_all_views (l l' : list Article) (g : RNG) :
  map a_page_views_count l' = map a_page_views_count l ->
  map a_page_views_count (fst (fallback_all l' g)) = map a_page_views_count (fst (fallback_all l g)) /\
  snd (fallback_all l' g) = snd (fallback_all l g).
Proof.
  revert l' g. induction l as [|a l IH]; intros [|a' l'] g H; try discriminate; [split; reflexivity|].
  injection H as Ha H. cbn [fallback_all]. unfold fallback_views. rewrite Ha.
  destruct (a_page_views_count a) as [v|] eqn:Ea.
  - specialize (IH l' g H).
    destruct (fallback_all l g) as [m g2], (fallback_all l' g) as [m' g2']. cbn in *.
    destruct IH as [IH1 IH2]. rewrite Ha, Ea, IH1, IH2. split; reflexivity.
  - destruct (randint 100 2000 g) as [k g1]. specialize (IH l' g1 H).
    destruct (fallback_all l g1) as [m g2], (fallback_all l' g1) as [m' g2']. cbn in *.
    destruct IH as [IH1 IH2]. rewrite IH1, IH2. split; reflexivity.
Qed.

Lemma reroll_all_views (l : list Article) (g : RNG) :
  map a_page_views_count (fst (reroll_all l g)) =
  map (fun k => Some (Z.to_N k)) (randint_draws (List.length l) g).
Proof.
  revert g. induction l as [|a l IH]; intros g; [reflexivity|].
  cbn [reroll_all List.length randint_draws].
  destruct (randint 100 2000 g) as [k g1]. specialize (IH g1).
  destruct (reroll_all l g1) as [m g2]. cbn in *. rewrite IH. reflexivity.
Qed.

Lemma fallback_all_length (l : list Article) (g : RNG) :
  List.length (fst (fallback_all l g)) = List.length l.
Proof.
  revert g. induction l as [|a l IH]; intros g; [reflexivity|].
  cbn [fallback_all]. destruct (fallback_views a g) as [a' g1].
  specialize (IH g1). destruct (fallback_all l g1) as [m g2]. cbn in *. now rewrite IH.
Qed.

Lemma positive_views_map (l l' : list Article) :
  map a_page_views_count l' = map a_page_views_count l ->
  existsb (fun a => match a_page_views_count a with
                    | Some v => N.ltb 0 v
                    | None => false
                    end) l' =
  existsb (fun a => match a_page_views_count a with
                    | Some v => N.ltb 0 v
                    | None => false
                    end) l.
Proof.
  revert l'. induction l as [|a l IH]; intros [|a' l'] H; try discriminate; [reflexivity|].
  injection H as Ha H. cbn [existsb]. rewrite Ha, (IH l' H). reflexivity.
Qed.

Lemma random_range (g : RNG) : 0 <= fst (random g) /\ fst (random g) < 1.
Proof.
  unfold random. destruct (draw g) as [k g']. cbn [fst].
  pose proof (Z.mod_pos_bound k (2 ^ 53) ltac:(reflexivity)) as Hb.
  assert (HD : 0 < inject_Z (2 ^ 53)) by (unfold Qlt, inject_Z; simpl; lia).
  split.
  - apply Qle_shift_div_l; [exact HD|]. rewrite Qmult_0_l.
    unfold Qle, inject_Z; simpl; lia.
  - apply Qlt_shift_div_r; [exact HD|]. rewrite Qmult_1_l.
    unfold Qlt, inject_Z; simpl; lia.
Qed.

(** The factor [random.uniform(0.8, 1.2)] lies in [[0.8, 1.2)]. *)
Lemma uniform_08_12 (g : RNG) :
  8 # 10 <= fst (uniform (8 # 10) (12 # 10) g) /\ fst (uniform (8 # 10) (12 # 10) g) < 12 # 10.
Proof.
  unfold uniform. pose proof (random_range g) as [H0 H1].
  destruct (random g) as [u g']. cbn [fst] in *.
  split.
  - rewrite <- (Qplus_0_r (8 # 10)) at 1. apply Qplus_le_compat; [apply Qle_refl|].
    apply Qmult_le_0_compat; [discriminate|exact H0].
  - apply Qlt_le_trans with ((8 # 10) + ((12 # 10) - (8 # 10)) * 1);
      [|apply Qle_bool_imp_le; reflexivity].
    apply Qplus_lt_r. apply Qmult_lt_l; [reflexivity|exact H1].
Qed.

Lemma randint_50_200 (g : RNG) : (50 <= fst (randint 50 200 g) <= 200)%Z.
Proof.
  unfold randint. destruct (draw g) as [k g']. cbn [fst].
  pose proof (Z.mod_pos_bound k (200 - 50 + 1) ltac:(reflexivity)). lia.
Qed.

(** The synthetic view counts of [calculate_metrics], row by row. *)
Lemma synth_views_col_spec (rp cp : bool) (df : list Article) (g g' : RNG) (vs : list N) :
  synth_views_col rp cp df g = (Ok vs, g') ->
  Forall2 (fun a v => exists r c u k,
             row_get rp (a_public_reactions_count a) = Some r /\
             row_get cp (a_comments_count a) = Some c /\
             8 # 10 <= u < 12 # 10 /\ (50 <= k <= 200)%Z /\
             v = Z.to_N (py_int ((QN r * 15 + QN c * 25) * u + inject_Z k)))
          df vs.
Proof.
  revert g vs. induction df as [|a df IH]; intros g vs H; cbn [synth_views_col] in H.
  - injection H as <- _. constructor.
  - unfold synth_views in H.
    pose proof (uniform_08_12 g) as Hu.
    destruct (uniform (8 # 10) (12 # 10) g) as [u g1]. cbn [fst] in Hu.
    pose proof (randint_50_200 g1) as Hk.
    destruct (randint 50 200 g1) as [k g2]. cbn [fst] in Hk.
    destruct (row_get rp (a_public_reactions_count a)) as [r|] eqn:Er;
      [|injection H as H _; discriminate H].
    destruct (row_get cp (a_comments_count a)) as [c|] eqn:Ec;
      [|injection H as H _; discriminate H].
    destruct (synth_views_col rp cp df g2) as [[vs'|e] g3] eqn:Es;
      injection H as H Hg; [|discriminate H].
    subst vs g3. constructor.
    + exists r, c, u, k. split; [exact Er|]. split; [exact Ec|]. split; [exact Hu|]. split; [exact Hk|reflexivity].
    + exact (IH g2 vs' Es).
Qed.

(** C9 (amended): whatever the state of the unseeded global generator, the
    fallback of [get_detailed_articles] gives every article a view count,
    either the one it had or a draw of [random.randint(100, 2000)]; the
    article's id, reactions and comments are left as they were.  When no
    article has a positive count after the first pass (and there is one),
    every count is redrawn: the counts are the next [randint(100, 2000)]
    draws, one per article in order.  The counts depend on the articles'
    view counts and the generator state only, not on their reactions or
    comments.  When [calculate_metrics] finds no view count it synthesises
    one per row from [random.uniform(0.8, 1.2)] and
    [random.randint(50, 200)], advancing the same generator. *)
Theorem detailed_views_fallback (merged : list Article) (g : RNG) :
  Forall2 (fun a a' => same_but_views a a' /\
             exists v, a_page_views_count a' = Some v /\
                       (a_page_views_count a = Some v \/ (100 <= v <= 2000)%N))
          merged (fst (detailed_views merged g)) /\
  (forall l1 g1, fallback_all merged g = (l1, g1) -> merged <> [] ->
     existsb (fun a => match a_page_views_count a with
                       | Some v => N.ltb 0 v
                       | None => false
                       end) l1 = false ->
     map a_page_views_count (fst (detailed_views merged g)) =
     map (fun k => Some (Z.to_N k)) (randint_draws (List.length merged) g1)) /\
  (forall merged', map a_page_views_count merged' = map a_page_views_count merged ->
     map a_page_views_count (fst (detailed_views merged' g)) =
     map a_page_views_count (fst (detailed_views merged g))) /\
  (forall df : list Article, df <> [] -> col_present a_page_views_count df = false ->
     let rp := col_present a_public_reactions_count df in
     let cp := col_present a_comments_count df in
     snd (calculate_metrics_df df g) = snd (synth_views_col rp cp df g) /\
     forall vs g', synth_views_col rp cp df g = (Ok vs, g') ->
       Forall2 (fun a v => exists r c u k,
                  row_get rp (a_public_reactions_count a) = Some r /\
                  row_get cp (a_comments_count a) = Some c /\
                  8 # 10 <= u < 12 # 10 /\ (50 <= k <= 200)%Z /\
                  v = Z.to_N (py_int ((QN r * 15 + QN c * 25) * u + inject_Z k)))
               df vs).
Proof.
  split; [|split; [|split]].
  - unfold detailed_views. pose proof (fallback_all_spec merged g) as Hf.
    destruct (fallback_all merged g) as [l g1] eqn:E. simpl in Hf.
    destruct (existsb _ l); [exact Hf|].
    destruct l as [|x l']; [exact Hf|].
    eapply Forall2_compose; [|exact Hf|apply reroll_all_spec].
    intros a b c [[Hi [Hr Hc]] _] [[Hi' [Hr' Hc']] [v [Hv Hb]]].
    split; [repeat split; congruence|]. exists v. auto.
  - intros l1 g1 E Hne Hpos. unfold detailed_views. rewrite E, Hpos.
    pose proof (fallback_all_length merged g) as Hlen. rewrite E in Hlen. cbn [fst] in Hlen.
    destruct l1 as [|x l1']; [destruct merged; [congruence|discriminate]|].
    rewrite reroll_all_views, Hlen. reflexivity.
  - intros merged' Hm. unfold detailed_views.
    destruct (fallback_all_views merged merged' g Hm) as [Hv Hg].
    pose proof (fallback_all_length merged g) as Hl.
    pose proof (fallback_all_length merged' g) as Hl'.
    destruct (fallback_all merged g) as [l g1], (fallback_all merged' g) as [l' g1'].
    cbn [fst snd] in *. subst g1'.
    rewrite (positive_views_map l l' Hv).
    destruct (existsb _ l); [exact Hv|].
    assert (Hlen : List.length l' = List.length l).
    { rewrite Hl, Hl'. apply (f_equal (@List.length _)) in Hm. now rewrite !length_map in Hm. }
    destruct l as [|x m], l' as [|x' m']; try discriminate; [exact Hv|].
    rewrite !reroll_all_views, Hlen. reflexivity.
  - intros df Hne Hv rp cp. split.
    + unfold calculate_metrics_df. fold rp cp. rewrite Hv. cbn [negb].
      destruct df as [|a df']; [congruence|].
      destruct (synth_views_col rp cp (a :: df') g) as [vcol g1].
      destruct vcol as [vs|e]; cbn [bind]; [destruct (reading_col _)|]; reflexivity.
    + intros vs g' H. exact (synth_views_col_spec rp cp df g g' vs H).
Qed.

(** C9 (counterexample): the same merged article, missing its view count,
    gets 100 views under one generator state and 101 under another; the
    synthesized value is not reproducible across runs. *)
Lemma detailed_views_not_reproducible :
  ~ forall (merged : list Article) (g g' : RNG),
      map a_page_views_count (fst (detailed_views merged g)) =
      map a_page_views_count (fst (detailed_views merged g')).
Proof.
  intros H. specialize (H [noview_article] [0%Z] [1%Z]).
  vm_compute in H. discriminate.
Qed.

(* ================================================================== *)
(** * Further properties of the code *)

(* ------------------------------------------------------------------ *)
(** ** [_estimate_reading_time] *)

(** The estimate is the least whole number of minutes, at least one, in
    which the text's words are read at 225 words per minute. *)
Theorem estimate_reading_time_ceiling (text : string) :
  let w := N.of_nat (count_words text) in
  let r := _estimate_reading_time text in
  (1 <= r)%N /\ (w <= 225 * r)%N /\ ((1 <= w)%N -> (225 * (r - 1) < w)%N).
Proof.
  intros w r. subst w r. unfold _estimate_reading_time.
  destruct text as [|c s]; [cbn; lia|].
  set (w := N.of_nat (count_words (String c s))).
  pose proof (N.div_mod (w + 224) 225 ltac:(discriminate)) as Hd.
  pose proof (N.mod_lt (w + 224) 225 ltac:(discriminate)) as Hm.
  set (q := ((w + 224) / 225)%N) in *. set (m := ((w + 224) mod 225)%N) in *.
  lia.
Qed.

(* ------------------------------------------------------------------ *)
(** ** The other recommendation groups *)

Lemma in_firstn_skipn_rel {B : Type} (R : B -> B -> Prop) (n : nat) (l : list B) (x y : B) :
  StronglySorted R l -> In x (firstn n l) -> In y l -> ~ In y (firstn n l) -> R x y.
Proof.
  intros Hs Hx Hy Hny. rewrite <- (firstn_skipn n l) in Hs, Hy.
  apply in_app_iff in Hy. destruct Hy as [Hy|Hy]; [contradiction|].
  exact (strongly_sorted_app_rel R _ _ x y Hs Hx Hy).
Qed.

Lemma sort_desc_Q_strongly {B : Type} (key : B -> Q) (l : list B) :
  StronglySorted (fun x y => desc_Q (key x) (key y) = true) (sort_stable key desc_Q l).
Proof.
  apply Sorted_StronglySorted.
  - intros a b c. apply desc_Q_trans.
  - apply sort_stable_sorted. apply desc_Q_total.
Qed.

Lemma recommendations_under_in (df : list Row) (tp : list TagStat)
  (recs : list Recommendation) tags ms :
  _analyze_tag_performance df = Ok tp ->
  generate_tag_recommendations df = Ok recs ->
  In (RecUnderused tags ms) recs ->
  exists u,
    u = sort_stable tag_score desc_Q
          (filter (fun t => N.leb (ts_count t) 2 && negb (Qle_bool (tag_score t) 0))
             (sort_stable tag_score desc_Q tp)) /\
    u <> [] /\ tags = map ts_tag (firstn 3 u) /\
    ms = map (fun t => (ts_tag t, ts_avg_reactions t, ts_avg_comments t, ts_count t))
           (firstn 3 u).
Proof.
  intros Htp Hrec H. unfold generate_tag_recommendations in Hrec.
  destruct df as [|r df']; [injection Hrec as <-; destruct H|].
  rewrite Htp in Hrec. cbn [bind] in Hrec. injection Hrec as <-.
  rewrite !in_app_iff in H. destruct H as [H|[H|[H|H]]].
  - destruct (sort_stable tag_score desc_Q tp) as [|a [|b [|c rest]]];
      cbn in H; try contradiction; destruct H as [H|[]]; discriminate.
  - match type of H with
    | context [match ?x with [] => _ | _ :: _ => _ end] => destruct x as [|u0 us] eqn:E
    end; cbn [In] in H; [contradiction|].
    destruct H as [H|[]]. injection H as Ht Hm.
    exists (u0 :: us). split; [first [reflexivity | symmetry; exact E]|]. split; [discriminate|].
    split; [symmetry; exact Ht|symmetry; exact Hm].
  - match type of H with
    | context [match ?x with [] => _ | _ :: _ => _ end] => destruct x
    end; cbn [In] in H; [contradiction|]. destruct H as [H|[]]; discriminate.
  - match type of H with
    | context [match ?x with [] => _ | _ :: _ => _ end] => destruct x
    end; cbn [In] in H; [contradiction|]. destruct H as [H|[]]; discriminate.
Qed.

Lemma underused_members (tp u : list TagStat) :
  u = sort_stable tag_score desc_Q
        (filter (fun t => N.leb (ts_count t) 2 && negb (Qle_bool (tag_score t) 0))
           (sort_stable tag_score desc_Q tp)) ->
  forall t, In t u <-> In t tp /\ (ts_count t <= 2)%N /\ 0 < tag_score t.
Proof.
  intros -> t. split.
  - intros H. apply (Permutation_in _ (sort_stable_perm _ _ _ _ _)), filter_In in H.
    destruct H as [H He]. apply (Permutation_in _ (sort_stable_perm _ _ _ _ _)) in H.
    apply andb_prop in He. destruct He as [Hc Hs].
    apply N.leb_le in Hc. apply negb_true_iff in Hs.
    split; [exact H|]. split; [exact Hc|].
    apply Qnot_le_lt. intros Hle. apply Qle_bool_iff in Hle. congruence.
  - intros [H [Hc Hs]].
    apply (Permutation_in _ (Permutation_sym (sort_stable_perm _ _ _ _ _))), filter_In.
    split; [apply (Permutation_in _ (Permutation_sym (sort_stable_perm _ _ _ _ _))); exact H|].
    apply andb_true_intro. split; [now apply N.leb_le|].
    apply negb_true_iff. destruct (Qle_bool (tag_score t) 0) eqn:E; [|reflexivity].
    apply Qle_bool_iff in E. exfalso. apply (Qlt_not_le _ _ Hs E).
Qed.

(** The "underused" recommendation group lists one to three tags, each used
    in at most two articles and with a positive score (average reactions
    plus average comments), with their metrics; no other tag of at most two
    uses and positive score outranks a listed one. *)
Theorem underused_group_spec (df : list Row) (tp : list TagStat)
  (recs : list Recommendation) tags ms :
  _analyze_tag_performance df = Ok tp ->
  generate_tag_recommendations df = Ok recs ->
  In (RecUnderused tags ms) recs ->
  (1 <= List.length tags <= 3)%nat /\
  map (fun '(x, _, _, _) => x) ms = tags /\
  (forall x ar ac c, In (x, ar, ac, c) ms ->
     (c <= 2)%N /\ 0 < ar + ac /\
     exists s, In s tp /\ ts_tag s = x /\ ts_avg_reactions s = ar /\
               ts_avg_comments s = ac /\ ts_count s = c) /\
  (forall s t, In s tp -> In t tp -> (ts_count t <= 2)%N -> 0 < tag_score t ->
     In (ts_tag s) tags -> ~ In (ts_tag t) tags -> tag_score t <= tag_score s).
Proof.
  intros Htp Hrec Hin.
  destruct (recommendations_under_in df tp recs tags ms Htp Hrec Hin) as [u [Hu [Hne [-> ->]]]].
  pose proof (underused_members tp u Hu) as Hmem.
  pose proof (analyze_tag_performance_nodup df tp Htp) as Hnd.
  split; [|split; [|split]].
  - rewrite length_map, length_firstn. destruct u; [congruence|]. cbn [List.length]. lia.
  - rewrite map_map. apply map_ext. intros t. reflexivity.
  - intros x ar ac c Hx. apply in_map_iff in Hx. destruct Hx as [s [Heq Hs]].
    injection Heq as <- <- <- <-.
    apply in_firstn_in, Hmem in Hs. destruct Hs as [Hs [Hc Hp]].
    split; [exact Hc|]. split; [exact Hp|]. exists s. auto.
  - intros s t Hs Ht Htc Hts Hsin Htn.
    apply in_map_iff in Hsin. destruct Hsin as [s' [Hss' Hs']].
    assert (Hs'tp : In s' tp) by (apply (in_firstn_in 3), Hmem in Hs'; tauto).
    assert (s' = s) by (apply (NoDup_map_inj ts_tag tp); auto). subst s'.
    assert (Htu : In t u) by (apply Hmem; auto).
    assert (Htf : ~ In t (firstn 3 u)) by (intros H; apply Htn; now apply in_map).
    assert (Hss : StronglySorted (fun x y => desc_Q (tag_score x) (tag_score y) = true) u)
      by (rewrite Hu; apply sort_desc_Q_strongly).
    pose proof (in_firstn_skipn_rel _ 3 u s t Hss Hs' Htu Htf) as Hq.
    unfold desc_Q in Hq. now apply Qle_bool_iff in Hq.
Qed.

Lemma underused_group_spec_witness :
  exists tp recs tags ms,
    _analyze_tag_performance c7_rows = Ok tp /\
    generate_tag_recommendations c7_rows = Ok recs /\
    In (RecUnderused tags ms) recs /\
    (1 <= List.length tags <= 3)%nat.
Proof.
  eexists. eexists. eexists. eexists.
  assert (Htp : _analyze_tag_performance c7_rows = Ok
            (match _analyze_tag_performance c7_rows with Ok l => l | Err _ => [] end))
    by (vm_compute; reflexivity).
  assert (Hrec : generate_tag_recommendations c7_rows = Ok
            (match generate_tag_recommendations c7_rows with Ok l => l | Err _ => [] end))
    by (vm_compute; reflexivity).
  assert (Hin : In (RecUnderused ["d"; "a"; "b"]%string
                     [("d"%string, 100, 0, 1%N); ("a"%string, 1, 0, 1%N); ("b"%string, 1, 0, 1%N)])
                  (match generate_tag_recommendations c7_rows with Ok l => l | Err _ => [] end))
    by (vm_compute; right; left; reflexivity).
  split; [exact Htp|]. split; [exact Hrec|]. split; [exact Hin|].
  exact (proj1 (underused_group_spec _ _ _ _ _ Htp Hrec Hin)).
Defined.

Lemma recommendations_trend_in (df : list Row) (tp : list TagStat)
  (recs : list Recommendation) tags :
  _analyze_tag_performance df = Ok tp ->
  generate_tag_recommendations df = Ok recs ->
  In (RecTrending tags) recs ->
  exists m,
    m = flat_map (fun tag =>
                    match find (fun ut => String.eqb (lower tag) (lower (ts_tag ut)))
                                 (sort_stable tag_score desc_Q tp) with
                    | Some ut => [ut]
                    | None => []
                    end) trending_tags /\
    m <> [] /\ tags = map ts_tag m.
Proof.
  intros Htp Hrec H. unfold generate_tag_recommendations in Hrec.
  destruct df as [|r df']; [injection Hrec as <-; destruct H|].
  rewrite Htp in Hrec. cbn [bind] in Hrec. injection Hrec as <-.
  rewrite !in_app_iff in H. destruct H as [H|[H|[H|H]]].
  - destruct (sort_stable tag_score desc_Q tp) as [|a [|b [|c rest]]];
      cbn in H; try contradiction; destruct H as [H|[]]; discriminate.
  - match type of H with
    | context [match ?x with [] => _ | _ :: _ => _ end] => destruct x
    end; cbn [In] in H; [contradiction|]. destruct H as [H|[]]; discriminate.
  - match type of H with
    | context [match ?x with [] => _ | _ :: _ => _ end] => destruct x
    end; cbn [In] in H; [contradiction|]. destruct H as [H|[]]; discriminate.
  - match type of H with
    | context [match ?x with [] => _ | _ :: _ => _ end] => destruct x as [|m0 ms] eqn:E
    end; cbn [In] in H; [contradiction|].
    destruct H as [H|[]]. injection H as Ht.
    exists (m0 :: ms). split; [first [reflexivity | symmetry; exact E]|].
    split; [discriminate|]. symmetry. exact Ht.
Qed.

Lemma flat_map_opt_length {B C : Type} (f : B -> list C) (l : list B) :
  (forall x, (List.length (f x) <= 1)%nat) -> (List.length (flat_map f l) <= List.length l)%nat.
Proof.
  intros Hf. induction l as [|x l IH]; simpl; [lia|].
  rewrite length_app. specialize (Hf x). lia.
Qed.

(** The "trending" recommendation group lists at most five tags of the tag
    table, each equal up to case ([str.lower]) to one of the hard-coded trending tags;
    every trending tag that some tag of the table matches is represented. *)
Theorem trending_group_spec (df : list Row) (tp : list TagStat)
  (recs : list Recommendation) tags :
  _analyze_tag_performance df = Ok tp ->
  generate_tag_recommendations df = Ok recs ->
  In (RecTrending tags) recs ->
  (1 <= List.length tags <= 5)%nat /\
  (forall x, In x tags ->
     (exists s, In s tp /\ ts_tag s = x) /\
     (exists tr, In tr trending_tags /\ lower tr = lower x)) /\
  (forall tr s, In tr trending_tags -> In s tp -> lower tr = lower (ts_tag s) ->
     exists x, In x tags /\ lower x = lower tr).
Proof.
  intros Htp Hrec Hin.
  destruct (recommendations_trend_in df tp recs tags Htp Hrec Hin) as [m [Hm [Hne ->]]].
  set (tps := sort_stable tag_score desc_Q tp) in Hm.
  assert (Hperm : Permutation tps tp) by apply sort_stable_perm.
  split; [|split].
  - rewrite length_map. split; [destruct m; [congruence|]; cbn [List.length]; lia|].
    rewrite Hm. change 5%nat with (List.length trending_tags).
    apply flat_map_opt_length. intros x. destruct (find _ _); cbn; lia.
  - intros x Hx. apply in_map_iff in Hx. destruct Hx as [ut [<- Hut]].
    rewrite Hm in Hut. apply in_flat_map in Hut. destruct Hut as [tr [Htr Hf]].
    destruct (find _ tps) eqn:E; [|destruct Hf].
    destruct Hf as [<-|[]]. apply find_some in E. destruct E as [E1 E2].
    split.
    + exists t. split; [exact (Permutation_in _ Hperm E1)|reflexivity].
    + exists tr. split; [exact Htr|]. now apply String.eqb_eq in E2.
  - intros tr s Htr Hs Heq.
    destruct (find (fun ut => String.eqb (lower tr) (lower (ts_tag ut))) tps) as [ut|] eqn:E.
    + exists (ts_tag ut). split.
      * apply in_map. rewrite Hm. apply in_flat_map. exists tr. split; [exact Htr|].
        rewrite E. now left.
      * apply find_some in E. destruct E as [_ E]. apply String.eqb_eq in E. congruence.
    + exfalso. apply (Permutation_in _ (Permutation_sym Hperm)) in Hs.
      pose proof (find_none _ _ E s Hs) as Hf. cbn beta in Hf.
      rewrite Heq, String.eqb_refl in Hf. discriminate.
Qed.

Lemma trending_group_spec_witness :
  exists tp recs tags,
    _analyze_tag_performance [dup_row] = Ok tp /\
    generate_tag_recommendations [dup_row] = Ok recs /\
    In (RecTrending tags) recs /\ (1 <= List.length tags <= 5)%nat.
Proof.
  set (tp := match _analyze_tag_performance [dup_row] with Ok l => l | Err _ => [] end).
  set (recs := match generate_tag_recommendations [dup_row] with Ok l => l | Err _ => [] end).
  assert (Htp : _analyze_tag_performance [dup_row] = Ok tp) by (vm_compute; reflexivity).
  assert (Hrec : generate_tag_recommendations [dup_row] = Ok recs) by (vm_compute; reflexivity).
  assert (Hin : In (RecTrending ["python"%string]) recs) by (vm_compute; right; left; reflexivity).
  exists tp, recs, ["python"%string].
  split; [exact Htp|]. split; [exact Hrec|]. split; [exact Hin|].
  exact (proj1 (trending_group_spec _ _ _ _ Htp Hrec Hin)).
Defined.

(* ------------------------------------------------------------------ *)
(** ** The "combinations" recommendation group *)

Lemma pair_eqb_eq (p q : string * string) : pair_eqb p q = true <-> p = q.
Proof.
  destruct p as [a b], q as [c d]. unfold pair_eqb. cbn [fst snd].
  rewrite andb_true_iff, !String.eqb_eq. split; [intros [-> ->]; reflexivity|].
  intros H. injection H as -> ->. auto.
Qed.

Lemma pair_eqb_refl (p : string * string) : pair_eqb p p = true.
Proof. now apply pair_eqb_eq. Qed.

Lemma sum_N_app (l1 l2 : list N) : sum_N (l1 ++ l2) = (sum_N l1 + sum_N l2)%N.
Proof.
  unfold sum_N. induction l1 as [|x l1 IH]; cbn [fold_right app]; [reflexivity|].
  rewrite IH. lia.
Qed.

Lemma fold_left_map_comm {B C D : Type} (f : D -> C -> D) (g : B -> C) (l : list B) (d : D) :
  fold_left f (map g l) d = fold_left (fun d x => f d (g x)) l d.
Proof. revert d. induction l as [|x l IH]; intros d; [reflexivity|]. apply IH. Qed.

Lemma fold_combo_row (df : list Row) (cs : list Combo) :
  fold_left combo_row df cs =
  fold_left (fun cs o => combo_update (fst o) (snd o) cs) (combo_occurrences df) cs.
Proof.
  revert cs. induction df as [|r df IH]; intros cs; [reflexivity|].
  cbn [fold_left]. unfold combo_occurrences. cbn [flat_map]. rewrite fold_left_app.
  fold (combo_occurrences df). rewrite <- IH. f_equal.
  unfold combo_row, combo_occ. destruct (2 <=? _); [|reflexivity].
  rewrite fold_left_map_comm. reflexivity.
Qed.

Lemma pair_count_snoc k k' e occ :
  pair_count k' (occ ++ [(k, e)]) = (pair_count k' occ + if pair_eqb k k' then 1 else 0)%N.
Proof.
  unfold pair_count. rewrite filter_app, length_app. cbn [filter fst].
  destruct (pair_eqb k k'); cbn [List.length]; lia.
Qed.

Lemma pair_total_snoc k k' e occ :
  pair_total k' (occ ++ [(k, e)]) = (pair_total k' occ + if pair_eqb k k' then e else 0)%N.
Proof.
  unfold pair_total. rewrite filter_app, map_app, sum_N_app. cbn.
  destruct (pair_eqb k k'); cbn; lia.
Qed.

Lemma pair_count_zero_total k occ : pair_count k occ = 0%N -> pair_total k occ = 0%N.
Proof.
  unfold pair_count, pair_total. destruct (filter _ occ); [reflexivity|]. cbn. lia.
Qed.

Lemma pair_count_in k occ : (0 < pair_count k occ)%N -> exists e, In (k, e) occ.
Proof.
  unfold pair_count. destruct (filter (fun o => pair_eqb (fst o) k) occ) as [|[k' e] l] eqn:E.
  - cbn. lia.
  - intros _. assert (H : In (k', e) (filter (fun o => pair_eqb (fst o) k) occ))
      by (rewrite E; now left).
    apply filter_In in H. destruct H as [H Hk]. apply pair_eqb_eq in Hk. cbn in Hk. subst.
    eauto.
Qed.

Lemma combo_update_absent k e cs :
  ~ In k (map c_combo cs) -> combo_update k e cs = cs ++ [mkCombo k 1 e (QN e)].
Proof.
  induction cs as [|c cs IH]; intros Hn; [reflexivity|].
  cbn [combo_update]. destruct (pair_eqb (c_combo c) k) eqn:E.
  - apply pair_eqb_eq in E. exfalso. apply Hn. now left.
  - rewrite IH; [reflexivity|]. intros H. apply Hn. now right.
Qed.

Lemma combo_update_present k e cs :
  NoDup (map c_combo cs) -> In k (map c_combo cs) ->
  map c_combo (combo_update k e cs) = map c_combo cs /\
  forall c', In c' (combo_update k e cs) ->
    (In c' cs /\ c_combo c' <> k) \/
    exists c, In c cs /\ c_combo c = k /\
      c' = mkCombo k (c_count c + 1) (c_total c + e) (QN (c_total c + e) / QN (c_count c + 1)).
Proof.
  induction cs as [|c cs IH]; intros Hnd Hin; [destruct Hin|].
  cbn [map] in Hnd. inversion Hnd as [|? ? Hnc Hnd']; subst.
  cbn [combo_update]. destruct (pair_eqb (c_combo c) k) eqn:E.
  - apply pair_eqb_eq in E. subst k. split; [reflexivity|].
    intros c' [<-|Hc'].
    + right. exists c. split; [now left|]. split; reflexivity.
    + left. split; [now right|]. intros Heq. apply Hnc. rewrite <- Heq. now apply in_map.
  - assert (Hk : In k (map c_combo cs)).
    { destruct Hin as [Hin|Hin]; [|exact Hin]. rewrite Hin, pair_eqb_refl in E. discriminate. }
    destruct (IH Hnd' Hk) as [Hm Hel]. split; [cbn [map]; now rewrite Hm|].
    intros c' [<-|Hc'].
    + left. split; [now left|]. intros Heq. rewrite Heq, pair_eqb_refl in E. discriminate.
    + destruct (Hel c' Hc') as [[H1 H2]|[c0 [H1 H2]]].
      * left. split; [now right|exact H2].
      * right. exists c0. split; [now right|exact H2].
Qed.

Lemma combo_inv_nil : combo_inv [] [].
Proof.
  split; [constructor|]. split; [intros c []|]. intros k H. cbn in H. lia.
Qed.

Lemma pair_dec (p q : string * string) : {p = q} + {p <> q}.
Proof. decide equality; apply string_dec. Qed.

Lemma QN_div_1 (e : N) : QN e == QN e / QN 1.
Proof. unfold Qdiv. change (Qinv (QN 1)) with 1. now rewrite Qmult_1_r. Qed.

Lemma combo_inv_step occ cs k e :
  combo_inv occ cs -> combo_inv (occ ++ [(k, e)]) (combo_update k e cs).
Proof.
  intros [Hnd [Hel Hcov]].
  destruct (in_dec pair_dec k (map c_combo cs)) as [Hin|Hin].
  - destruct (combo_update_present k e cs Hnd Hin) as [Hm Hc'].
    split; [now rewrite Hm|]. split.
    + intros c' Hc. destruct (Hc' c' Hc) as [[H1 H2]|[c [H1 [H2 ->]]]].
      * destruct (Hel c' H1) as [E1 [E2 E3]].
        rewrite pair_count_snoc, pair_total_snoc.
        destruct (pair_eqb k (c_combo c')) eqn:E.
        { apply pair_eqb_eq in E. congruence. }
        rewrite !N.add_0_r. auto.
      * destruct (Hel c H1) as [E1 [E2 E3]]. cbn [c_combo c_count c_total c_avg].
        rewrite pair_count_snoc, pair_total_snoc, pair_eqb_refl, <- H2, <- E1, <- E2.
        split; [reflexivity|]. split; reflexivity.
    + intros k' Hk'. rewrite Hm. rewrite pair_count_snoc in Hk'.
      destruct (pair_eqb k k') eqn:E.
      * apply pair_eqb_eq in E. now subst.
      * apply Hcov. lia.
  - rewrite (combo_update_absent k e cs Hin).
    assert (H0 : pair_count k occ = 0%N).
    { destruct (pair_count k occ) eqn:E; [reflexivity|].
      exfalso. apply Hin, Hcov. rewrite E. lia. }
    split; [|split].
    + rewrite map_app. cbn [map c_combo]. apply NoDup_app; [exact Hnd|repeat constructor; auto|].
      intros x Hx [<-|[]]. contradiction.
    + intros c' Hc. apply in_app_iff in Hc. destruct Hc as [Hc|[<-|[]]].
      * destruct (Hel c' Hc) as [E1 [E2 E3]].
        rewrite pair_count_snoc, pair_total_snoc.
        destruct (pair_eqb k (c_combo c')) eqn:E.
        { apply pair_eqb_eq in E. subst k. exfalso. apply Hin. now apply in_map. }
        rewrite !N.add_0_r. auto.
      * cbn [c_combo c_count c_total c_avg].
        rewrite pair_count_snoc, pair_total_snoc, pair_eqb_refl, H0,
          (pair_count_zero_total k occ H0).
        split; [reflexivity|]. split; [reflexivity|]. apply QN_div_1.
    + intros k' Hk'. rewrite map_app, in_app_iff. rewrite pair_count_snoc in Hk'.
      destruct (pair_eqb k k') eqn:E.
      * apply pair_eqb_eq in E. subst. right. now left.
      * left. apply Hcov. lia.
Qed.

Lemma combo_inv_fold occ :
  combo_inv occ (fold_left (fun cs o => combo_update (fst o) (snd o) cs) occ []).
Proof.
  rewrite <- (rev_involutive occ). induction (rev occ) as [|[k e] l IH]; [exact combo_inv_nil|].
  cbn [rev]. rewrite fold_left_app. cbn [fold_left fst snd]. now apply combo_inv_step.
Qed.

Lemma combo_occurrences_sorted (df : list Row) k e :
  In (k, e) (combo_occurrences df) -> String.leb (fst k) (snd k) = true.
Proof.
  unfold combo_occurrences. intros H. apply in_flat_map in H. destruct H as [r [_ H]].
  unfold combo_occ in H. destruct (2 <=? _); [|destruct H].
  apply in_map_iff in H. destruct H as [[a b] [Heq _]]. injection Heq as <- _.
  unfold sorted_pair. destruct (String.leb a b) eqn:E; [exact E|].
  destruct (String.leb_total a b) as [H|H]; [congruence|exact H].
Qed.

Lemma StronglySorted_firstn {B : Type} (R : B -> B -> Prop) (n : nat) (l : list B) :
  StronglySorted R l -> StronglySorted R (firstn n l).
Proof.
  revert n. induction l as [|x l IH]; intros n Hs; [destruct n; constructor|].
  destruct n as [|n]; [constructor|]. apply StronglySorted_inv in Hs. destruct Hs as [Hs Hf].
  cbn [firstn]. constructor; [now apply IH|].
  rewrite Forall_forall in *. intros y Hy. apply Hf. exact (in_firstn_in _ _ _ Hy).
Qed.

Lemma StronglySorted_map_impl {B C : Type} (R : B -> B -> Prop) (R' : C -> C -> Prop)
  (f : B -> C) (l : list B) :
  (forall x y, R x y -> R' (f x) (f y)) -> StronglySorted R l -> StronglySorted R' (map f l).
Proof.
  intros HR. induction l as [|x l IH]; intros Hs; [constructor|].
  apply StronglySorted_inv in Hs. destruct Hs as [Hs Hf]. cbn [map]. constructor; [auto|].
  apply Forall_map. exact (Forall_impl _ (HR x) Hf).
Qed.

Lemma NoDup_map_filter {B C : Type} (g : B -> C) (P : B -> bool) (l : list B) :
  NoDup (map g l) -> NoDup (map g (filter P l)).
Proof.
  induction l as [|x l IH]; intros Hnd; [constructor|].
  cbn [map] in Hnd. inversion Hnd as [|? ? Hn Hnd']; subst. cbn [filter].
  destruct (P x); [|auto]. cbn [map]. constructor; [|auto].
  intros H. apply Hn. apply in_map_iff in H. destruct H as [y [<- Hy]].
  apply filter_In in Hy. now apply in_map.
Qed.

Lemma NoDup_map_firstn {B C : Type} (g : B -> C) (n : nat) (l : list B) :
  NoDup (map g l) -> NoDup (map g (firstn n l)).
Proof.
  rewrite <- firstn_map. intros H. rewrite <- (firstn_skipn n (map g l)) in H.
  exact (NoDup_app_remove_r _ _ H).
Qed.

Lemma recommendations_comb_in (df : list Row) (recs : list Recommendation) cs :
  generate_tag_recommendations df = Ok recs ->
  In (RecCombinations cs) recs ->
  exists b,
    b = sort_stable c_avg desc_Q (filter (fun c => N.leb 2 (c_count c)) (fold_left combo_row df [])) /\
    b <> [] /\
    cs = map (fun c => (fst (c_combo c), snd (c_combo c), c_avg c, c_count c)) (firstn 3 b).
Proof.
  intros Hrec H. unfold generate_tag_recommendations in Hrec.
  destruct df as [|r df']; [injection Hrec as <-; destruct H|].
  destruct (_analyze_tag_performance (r :: df')) as [tp|ex]; cbn [bind] in Hrec; [|discriminate].
  injection Hrec as <-.
  rewrite !in_app_iff in H. destruct H as [H|[H|[H|H]]].
  - destruct (sort_stable tag_score desc_Q tp) as [|a [|b [|c rest]]];
      cbn in H; try contradiction; destruct H as [H|[]]; discriminate.
  - match type of H with
    | context [match ?x with [] => _ | _ :: _ => _ end] => destruct x
    end; cbn [In] in H; [contradiction|]. destruct H as [H|[]]; discriminate.
  - match type of H with
    | context [match ?x with [] => _ | _ :: _ => _ end] => destruct x as [|b0 bs] eqn:E
    end; cbn [In] in H; [contradiction|].
    destruct H as [H|[]]. injection H as Hc.
    exists (b0 :: bs). split; [first [reflexivity | symmetry; exact E]|].
    split; [discriminate|]. symmetry. exact Hc.
  - match type of H with
    | context [match ?x with [] => _ | _ :: _ => _ end] => destruct x
    end; cbn [In] in H; [contradiction|]. destruct H as [H|[]]; discriminate.
Qed.

(** The "combinations" recommendation group lists one to three distinct tag
    pairs [(a, b)] with [a <= b], sorted by average engagement, highest
    first; each pair occurs at least twice among the index pairs [i < j] of
    the rows with two or more tags, and its average is its summed engagement
    over those occurrences divided by their number; no unlisted pair that
    occurs twice has a higher average than a listed one. *)
Theorem combinations_group_spec (df : list Row) (recs : list Recommendation) cs :
  generate_tag_recommendations df = Ok recs ->
  In (RecCombinations cs) recs ->
  (1 <= List.length cs <= 3)%nat /\
  NoDup (map combo_entry_pair cs) /\
  StronglySorted (fun x y => combo_entry_avg y <= combo_entry_avg x) cs /\
  (forall a b q n, In (a, b, q, n) cs ->
     String.leb a b = true /\ (2 <= n)%N /\ n = pair_count (a, b) (combo_occurrences df) /\
     q == QN (pair_total (a, b) (combo_occurrences df)) / QN n) /\
  (forall k, (2 <= pair_count k (combo_occurrences df))%N ->
     ~ In k (map combo_entry_pair cs) ->
     forall x, In x cs ->
       QN (pair_total k (combo_occurrences df)) / QN (pair_count k (combo_occurrences df))
         <= combo_entry_avg x).
Proof.
  intros Hrec Hin.
  destruct (recommendations_comb_in df recs cs Hrec Hin) as [b [Hb [Hne ->]]].
  rewrite fold_combo_row in Hb.
  set (occ := combo_occurrences df) in *.
  set (cs0 := fold_left (fun cs o => combo_update (fst o) (snd o) cs) occ []) in Hb.
  destruct (combo_inv_fold occ) as [Hnd [Hel Hcov]]. fold cs0 in Hnd, Hel, Hcov.
  assert (Hperm : Permutation b (filter (fun c => N.leb 2 (c_count c)) cs0))
    by (rewrite Hb; apply sort_stable_perm).
  assert (Hbm : forall c, In c b <-> In c cs0 /\ (2 <= c_count c)%N).
  { intros c. split.
    - intros H. apply (Permutation_in _ Hperm), filter_In in H.
      destruct H as [H1 H2]. split; [exact H1|]. now apply N.leb_le.
    - intros [H1 H2]. apply (Permutation_in _ (Permutation_sym Hperm)), filter_In.
      split; [exact H1|]. now apply N.leb_le. }
  assert (Hpair : map combo_entry_pair
                    (map (fun c => (fst (c_combo c), snd (c_combo c), c_avg c, c_count c))
                       (firstn 3 b)) = map c_combo (firstn 3 b)).
  { rewrite map_map. apply map_ext. intros c. destruct (c_combo c); reflexivity. }
  assert (Hss : StronglySorted (fun x y => desc_Q (c_avg x) (c_avg y) = true) b)
    by (rewrite Hb; apply sort_desc_Q_strongly).
  split; [|split; [|split; [|split]]].
  - rewrite length_map, length_firstn. destruct b; [congruence|]. cbn [List.length]. lia.
  - rewrite Hpair. apply NoDup_map_firstn.
    apply (Permutation_NoDup (Permutation_map c_combo (Permutation_sym Hperm))).
    now apply NoDup_map_filter.
  - apply (StronglySorted_map_impl (fun x y => desc_Q (c_avg x) (c_avg y) = true)).
    + intros x y H. unfold desc_Q in H. cbn [combo_entry_avg]. now apply Qle_bool_iff.
    + now apply StronglySorted_firstn.
  - intros a b' q n H. apply in_map_iff in H. destruct H as [c [Heq Hc]].
    apply in_firstn_in, Hbm in Hc. destruct Hc as [Hc Hn].
    destruct (Hel c Hc) as [E1 [E2 E3]].
    destruct (c_combo c) as [a0 b0] eqn:Ec. cbn [fst snd] in Heq.
    injection Heq as <- <- <- <-.
    split; [|split; [exact Hn|split; [exact E1|]]].
    + assert (Hpos : (0 < pair_count (a0, b0) occ)%N) by lia.
      destruct (pair_count_in _ _ Hpos) as [e He].
      exact (combo_occurrences_sorted df (a0, b0) e He).
    + now rewrite E3, E1, E2.
  - intros k Hk Hnk x Hx.
    assert (Hk0 : In k (map c_combo cs0)) by (apply Hcov; lia).
    apply in_map_iff in Hk0. destruct Hk0 as [c0 [Hc0k Hc0]].
    destruct (Hel c0 Hc0) as [F1 [F2 F3]].
    assert (Hc0b : In c0 b) by (apply Hbm; split; [exact Hc0|]; rewrite F1, Hc0k; exact Hk).
    assert (Hc0f : ~ In c0 (firstn 3 b)).
    { intros H. apply Hnk. rewrite Hpair, <- Hc0k. now apply in_map. }
    apply in_map_iff in Hx. destruct Hx as [c [<- Hc]].
    pose proof (in_firstn_skipn_rel _ 3 b c c0 Hss Hc Hc0b Hc0f) as Hq.
    unfold desc_Q in Hq. apply Qle_bool_iff in Hq. cbn [combo_entry_avg].
    rewrite <- Hc0k, <- F1, <- F2, <- F3. exact Hq.
Qed.

Lemma combinations_group_spec_witness :
  exists recs cs,
    generate_tag_recommendations combo_rows = Ok recs /\
    In (RecCombinations cs) recs /\ (1 <= List.length cs <= 3)%nat.
Proof.
  set (recs := match generate_tag_recommendations combo_rows with Ok l => l | Err _ => [] end).
  assert (Hrec : generate_tag_recommendations combo_rows = Ok recs) by (vm_compute; reflexivity).
  assert (Hin : In (RecCombinations [("ai"%string, "python"%string, 16 # 2, 2%N)]) recs)
    by (vm_compute; right; right; left; reflexivity).
  exists recs, [("ai"%string, "python"%string, 16 # 2, 2%N)].
  split; [exact Hrec|]. split; [exact Hin|].
  exact (proj1 (combinations_group_spec _ _ _ Hrec Hin)).
Defined.

(* ------------------------------------------------------------------ *)
(** ** Series: grouping and the performance table *)

Lemma group_series_inv (articles : list Article) :
  group_inv articles (group_series articles).
Proof.
  unfold group_series.
  assert (H : forall pre m, group_inv pre m ->
    group_inv (pre ++ articles)
      (fold_left (fun m a =>
                    match a_series a with
                    | Some sid => if nonempty sid then group_add sid a m else m
                    | None => m
                    end) articles m)).
  { induction articles as [|a rest IH]; intros pre m Hi; simpl.
    - now rewrite app_nil_r.
    - replace (pre ++ a :: rest) with ((pre ++ [a]) ++ rest) by now rewrite <- app_assoc.
      apply IH. now apply group_inv_step. }
  exact (H [] [] ltac:(split; [constructor|split; simpl; tauto])).
Qed.

Lemma group_add_nonempty (sid : string) (a : Article) (m : list (string * list Article)) :
  Forall (fun p => snd p <> []) m -> Forall (fun p => snd p <> []) (group_add sid a m).
Proof.
  induction m as [|[k l] m IH]; intros Hm; cbn [group_add].
  - repeat constructor. discriminate.
  - inversion Hm as [|? ? Hkl Hm']; subst. destruct (String.eqb k sid).
    + constructor; [|exact Hm']. cbn [snd]. destruct l; discriminate.
    + constructor; [exact Hkl|]. now apply IH.
Qed.

Lemma group_series_nonempty (articles : list Article) :
  Forall (fun p => snd p <> []) (group_series articles).
Proof.
  unfold group_series. generalize (@Forall_nil (string * list Article) (fun p => snd p <> [])).
  generalize (@nil (string * list Article)).
  induction articles as [|a rest IH]; intros m Hm; cbn [fold_left]; [exact Hm|].
  apply IH. destruct (a_series a); [destruct (nonempty s)|]; auto using group_add_nonempty.
Qed.

(** Every article whose [series] is a non-empty string lands in the group of
    that id; the ids of [self.series] are distinct and no group is empty. *)
Theorem extract_series_groups (articles : list Article) :
  NoDup (map fst (_extract_series_info articles)) /\
  (forall sid d, In (sid, d) (_extract_series_info articles) -> sd_articles d <> []) /\
  (forall a sid, In a articles -> a_series a = Some sid -> nonempty sid = true ->
     exists d, In (sid, d) (_extract_series_info articles) /\ In a (map fst (sd_articles d))).
Proof.
  destruct (group_series_inv articles) as [Hnd [Hm Hcov]].
  assert (Hfst : map fst (_extract_series_info articles) = map fst (group_series articles)).
  { unfold _extract_series_info. rewrite map_map. apply map_ext. now intros [k l]. }
  split; [|split].
  - now rewrite Hfst.
  - intros sid d Hin. destruct (extract_series_in _ _ _ Hin) as [arts [Hg ->]].
    cbn [finish_series sd_articles].
    pose proof (proj1 (Forall_forall _ _) (group_series_nonempty articles) _ Hg) as Hne.
    cbn [snd] in Hne. intros H. apply Hne.
    apply (f_equal (map fst)) in H. rewrite number_from_fst in H. cbn [map] in H.
    apply Permutation_nil. rewrite <- H. apply sort_stable_perm.
  - intros a sid Ha Hs Hne. specialize (Hcov a sid Ha Hs Hne).
    apply in_map_iff in Hcov. destruct Hcov as [[k arts] [Hk Hg]]. cbn [fst] in Hk. subst k.
    exists (finish_series sid arts). split.
    + unfold _extract_series_info. apply in_map_iff. exists (sid, arts). auto.
    + cbn [finish_series sd_articles]. rewrite number_from_fst.
      apply (Permutation_in _ (Permutation_sym (sort_stable_perm _ _ _ _ _))).
      destruct (Hm _ _ Hg) as [_ ->]. apply filter_In. split; [exact Ha|].
      unfold has_series. rewrite Hs. apply String.eqb_refl.
Qed.

Lemma sum_N_perm (l l' : list N) : Permutation l l' -> sum_N l = sum_N l'.
Proof.
  unfold sum_N. induction 1; cbn [fold_right]; lia.
Qed.

Lemma series_perf_some (sid : string) (d : SeriesData) :
  sd_articles d <> [] ->
  exists p, series_perf sid d = Some p /\ sp_id p = sid.
Proof.
  intros Hne. unfold series_perf. destruct (sd_articles d) as [|x l] eqn:E; [congruence|].
  cbn [map List.length]. eexists. split; reflexivity.
Qed.

Lemma series_perf_ids (ser : list (string * SeriesData)) :
  (forall sid d, In (sid, d) ser -> sd_articles d <> []) ->
  map sp_id (flat_map (fun '(sid, d) => match series_perf sid d with
                                        | Some p => [p]
                                        | None => []
                                        end) ser) = map fst ser.
Proof.
  induction ser as [|[sid d] ser IH]; intros Hne; [reflexivity|].
  cbn [flat_map map fst]. rewrite map_app.
  destruct (series_perf_some sid d (Hne sid d (or_introl eq_refl))) as [p [Hp Hid]].
  rewrite Hp. cbn [map app]. rewrite Hid. f_equal.
  apply IH. intros s0 d0 H. apply (Hne s0 d0). now right.
Qed.

(** [analyze_series_performance] on the table of [_extract_series_info]:
    one entry per series, ordered by total reactions (highest first); each
    entry's totals are those [_extract_series_info] stored, its article
    count is the number of articles with that id, and its parts are 1, 2,
    ... in order. *)
Theorem series_performance_table (articles : list Article) :
  let ps := analyze_series_performance (_extract_series_info articles) in
  Sorted (fun x y => (sp_total_reactions y <= sp_total_reactions x)%N) ps /\
  Permutation (map sp_id ps) (map fst (_extract_series_info articles)) /\
  (forall p, In p ps ->
     exists d, In (sp_id p, d) (_extract_series_info articles) /\
       sp_total_reactions p = sd_total_reactions d /\
       sp_total_comments p = sd_total_comments d /\
       sp_article_count p = List.length (filter (has_series (sp_id p)) articles) /\
       map sa_part (sp_articles p) = map N.of_nat (seq 1 (sp_article_count p))).
Proof.
  intros ps.
  set (f := fun '(sid, d) => match series_perf sid d with Some p => [p] | None => [] end).
  assert (Hperm : Permutation ps (flat_map f (_extract_series_info articles)))
    by apply sort_stable_perm.
  destruct (extract_series_groups articles) as [_ [Hne _]].
  split; [|split].
  - eapply sorted_impl; [|apply (sort_stable_sorted _ _ sp_total_reactions desc_N desc_N_total)].
    intros a b H. unfold desc_N in H. now apply N.leb_le in H.
  - rewrite (Permutation_map sp_id Hperm). subst f. rewrite series_perf_ids; [reflexivity|].
    exact Hne.
  - intros p Hp. apply (Permutation_in _ Hperm), in_flat_map in Hp.
    destruct Hp as [[sid d] [Hin Hf]]. cbn [f] in Hf.
    destruct (series_perf sid d) as [p0|] eqn:Hp0; [|destruct Hf].
    destruct Hf as [<-|[]].
    destruct (extract_series_in _ _ _ Hin) as [arts [Hg Hd]].
    destruct (group_series_spec articles sid arts Hg) as [_ Harts].
    unfold series_perf in Hp0. rewrite Hd in Hp0. cbn [finish_series sd_articles sd_title] in Hp0.
    rewrite number_from_fst in Hp0.
    set (srt := sort_stable pub_key asc_str arts) in Hp0.
    assert (Hs : Permutation srt arts) by apply sort_stable_perm.
    destruct (List.length srt) eqn:Hlen; [discriminate|].
    injection Hp0 as <-. cbn [sp_id sp_total_reactions sp_total_comments sp_article_count sp_articles].
    exists (finish_series sid arts). rewrite <- Hd. split; [exact Hin|].
    rewrite Hd. cbn [finish_series sd_total_reactions sd_total_comments sd_articles].
    split; [apply sum_N_perm, Permutation_map, Hs|].
    split; [apply sum_N_perm, Permutation_map, Hs|].
    split; [rewrite <- Hlen, (Permutation_length Hs), Harts; reflexivity|].
    rewrite map_map.
    transitivity (map snd (number_from 1 srt)).
    + apply map_ext. now intros [a part].
    + change 1%N with (N.of_nat 1). rewrite number_from_snd, Hlen. reflexivity.
Qed.

(* ------------------------------------------------------------------ *)
(** ** Paging *)

Lemma fetch_pages_spec {X : Type} (get : Z -> PageResponse X) (page : Z) (fuel : nat) :
  exists n, (n <= fuel)%nat /\
    (forall i, (i < n)%nat -> exists x l, get (page + Z.of_nat i)%Z = Some (x :: l)) /\
    ((n < fuel)%nat -> get (page + Z.of_nat n)%Z = None \/ get (page + Z.of_nat n)%Z = Some []) /\
    fetch_pages get page fuel = List.concat (map (fun i => page_items (get (page + Z.of_nat i)%Z)) (seq 0 n)).
Proof.
  revert page. induction fuel as [|fuel IH]; intros page.
  - exists O. split; [lia|]. split; [intros i Hi; lia|]. split; [lia|reflexivity].
  - cbn [fetch_pages]. destruct (get page) as [[|x l]|] eqn:E.
    + exists O. split; [lia|]. split; [intros i Hi; lia|].
      split; [intros _; right; now rewrite Z.add_0_r|reflexivity].
    + destruct (IH (page + 1)%Z) as [n [Hn [Hok [Hstop Heq]]]].
      exists (S n). split; [lia|]. split; [|split].
      * intros [|i] Hi.
        -- exists x, l. now rewrite Z.add_0_r.
        -- destruct (Hok i ltac:(lia)) as [y [l' Hy]]. exists y, l'.
           replace (page + Z.of_nat (S i))%Z with (page + 1 + Z.of_nat i)%Z by lia. exact Hy.
      * intros Hlt. replace (page + Z.of_nat (S n))%Z with (page + 1 + Z.of_nat n)%Z by lia.
        apply Hstop. lia.
      * rewrite Heq. cbn [seq map List.concat]. rewrite Z.add_0_r, E. cbn [page_items]. f_equal.
        rewrite <- seq_shift, map_map. f_equal. apply map_ext. intros i.
        f_equal. f_equal. lia.
    + exists O. split; [lia|]. split; [intros i Hi; lia|].
      split; [intros _; left; now rewrite Z.add_0_r|reflexivity].
Qed.

(** [fetch_all_articles] reads pages 1, 2, ... while they are non-empty,
    at most [max_pages] of them, and stops at the first empty page or
    request error; the articles are those pages' lists concatenated in page
    order, and [self.series] is derived from exactly those articles. *)
Theorem fetch_all_articles_pages (get : Z -> Z -> PageResponse Article)
  (max_pages articles_per_page : Z) :
  exists n, (Z.of_nat n <= Z.max 0 max_pages)%Z /\
    (forall i, (1 <= i <= Z.of_nat n)%Z -> exists x l, get i articles_per_page = Some (x :: l)) /\
    ((Z.of_nat n < max_pages)%Z ->
       get (Z.of_nat n + 1)%Z articles_per_page = None \/
       get (Z.of_nat n + 1)%Z articles_per_page = Some []) /\
    fetch_all_articles get max_pages articles_per_page =
      (List.concat (map (fun i => page_items (get i articles_per_page)) (map Z.of_nat (seq 1 n))),
       _extract_series_info
         (List.concat (map (fun i => page_items (get i articles_per_page)) (map Z.of_nat (seq 1 n))))).
Proof.
  destruct (fetch_pages_spec (fun page => get page articles_per_page) 1 (Z.to_nat max_pages))
    as [n [Hn [Hok [Hstop Heq]]]].
  assert (Hseq : map (fun i => page_items (get (1 + Z.of_nat i)%Z articles_per_page)) (seq 0 n) =
                 map (fun i => page_items (get i articles_per_page)) (map Z.of_nat (seq 1 n))).
  { rewrite map_map, <- seq_shift, map_map. apply map_ext. intros i. f_equal. f_equal. lia. }
  exists n. split; [|split; [|split]].
  - lia.
  - intros i Hi. destruct (Hok (Z.to_nat (i - 1)) ltac:(lia)) as [x [l H]].
    exists x, l. replace i with (1 + Z.of_nat (Z.to_nat (i - 1)))%Z by lia. exact H.
  - intros Hlt. replace (Z.of_nat n + 1)%Z with (1 + Z.of_nat n)%Z by lia. apply Hstop. lia.
  - unfold fetch_all_articles. rewrite Heq, Hseq. reflexivity.
Qed.

(** Without an API key ([None] or [""]) [fetch_followers] returns [[]]
    whatever the server would answer; with one it reads at most
    [max_pages] pages, stopping at the first empty page or request error,
    and returns their followers concatenated in page order. *)
Theorem fetch_followers_pages {X : Type} (api_key : option string) (get : Z -> PageResponse X)
  (max_pages : Z) :
  (api_key = None \/ api_key = Some EmptyString -> fetch_followers api_key get max_pages = []) /\
  exists n, (Z.of_nat n <= Z.max 0 max_pages)%Z /\
    (forall i, (1 <= i <= Z.of_nat n)%Z -> exists x l, get i = Some (x :: l)) /\
    ((Z.of_nat n < max_pages)%Z -> get (Z.of_nat n + 1)%Z = None \/ get (Z.of_nat n + 1)%Z = Some []) /\
    (forall k, api_key = Some k -> k <> EmptyString ->
       fetch_followers api_key get max_pages =
       List.concat (map (fun i => page_items (get i)) (map Z.of_nat (seq 1 n)))).
Proof.
  split.
  - intros [-> | ->]; reflexivity.
  - destruct (fetch_pages_spec get 1 (Z.to_nat max_pages)) as [n [Hn [Hok [Hstop Heq]]]].
    exists n. split; [|split; [|split]].
    + lia.
    + intros i Hi. destruct (Hok (Z.to_nat (i - 1)) ltac:(lia)) as [x [l H]].
      exists x, l. replace i with (1 + Z.of_nat (Z.to_nat (i - 1)))%Z by lia. exact H.
    + intros Hlt. replace (Z.of_nat n + 1)%Z with (1 + Z.of_nat n)%Z by lia. apply Hstop. lia.
    + intros k -> Hk. unfold fetch_followers. destruct k as [|c k]; [congruence|].
      rewrite Heq, map_map, <- seq_shift, map_map. f_equal. apply map_ext. intros i.
      f_equal. f_equal. lia.
Qed.

(* ------------------------------------------------------------------ *)
(** ** [calculate_metrics] and the two reports built on it *)

Lemma calculate_metrics_err (argsort : list Q -> list nat)
  (parse_datetime : string -> option (string * Z)) (detailed_articles : list Article) (g : RNG) :
  exists e, fst (calculate_metrics argsort parse_datetime detailed_articles g) = Err e.
Proof.
  unfold calculate_metrics. destruct (calculate_metrics_df detailed_articles g) as [[rows|e] g1].
  - cbn [fst bind]. destruct (date_columns _ _ _) as [tdf|e]; cbn [bind]; [|eauto].
    destruct (_analyze_tag_performance rows) as [tp|e]; cbn [bind]; [|eauto].
    exists AttributeError. reflexivity.
  - exists e. reflexivity.
Qed.

(** [calculate_metrics] never returns.  On no articles it raises
    [ValueError] (the reading-time column cannot be assigned); on articles
    with view counts but no [reading_time_minutes] it raises
    [AttributeError] ([self._estimate_reading_time] is not a method of the
    class); once the DataFrame is prepared and the dates parsed, it raises
    [AttributeError] from [_calculate_overall_stats]; any other failure
    raises before.  So [generate_analysis_report] and
    [get_data_for_llm_analysis], which both start with it, never return
    either. *)
Theorem calculate_metrics_never_returns (argsort : list Q -> list nat)
  (parse_datetime : string -> option (string * Z)) (detailed_articles : list Article) (g : RNG) :
  (exists e, fst (calculate_metrics argsort parse_datetime detailed_articles g) = Err e) /\
  fst (calculate_metrics argsort parse_datetime [] g) = Err ValueError /\
  (detailed_articles <> [] ->
     col_present a_page_views_count detailed_articles = true ->
     col_present a_reading_time_minutes detailed_articles = false ->
     fst (calculate_metrics argsort parse_datetime detailed_articles g) = Err AttributeError) /\
  (forall rows tdf,
     fst (calculate_metrics_df detailed_articles g) = Ok rows ->
     date_columns parse_datetime (col_present a_published_at detailed_articles) rows = Ok tdf ->
     fst (calculate_metrics argsort parse_datetime detailed_articles g) = Err AttributeError) /\
  (forall username now,
     exists e, fst (generate_analysis_report argsort parse_datetime username now
                      detailed_articles g) = Err e) /\
  (forall username,
     exists e, fst (get_data_for_llm_analysis argsort parse_datetime username
                      detailed_articles g) = Err e).
Proof.
  destruct (calculate_metrics_err argsort parse_datetime detailed_articles g) as [e He].
  split; [|split; [|split; [|split; [|split]]]].
  - exists e. exact He.
  - unfold calculate_metrics, calculate_metrics_df, synth_views_empty. cbn [col_present existsb negb].
    destruct (uniform _ _ g) as [u g1]. destruct (randint _ _ g1) as [k g2]. reflexivity.
  - intros Hne Hv Hr. unfold calculate_metrics, calculate_metrics_df. rewrite Hv. cbn [negb].
    unfold reading_col. rewrite Hr.
    destruct detailed_articles as [|a l]; [congruence|]. reflexivity.
  - intros rows tdf Hrows Hd. unfold calculate_metrics.
    destruct (calculate_metrics_df detailed_articles g) as [r g1]. cbn [fst] in Hrows |- *.
    subst r. cbn [bind]. rewrite Hd. cbn [bind]. rewrite analyze_tag_performance_eq. reflexivity.
  - intros username now. exists e. unfold generate_analysis_report.
    destruct (calculate_metrics argsort parse_datetime detailed_articles g) as [m g1].
    cbn [fst] in He |- *. now rewrite He.
  - intros username. exists e. unfold get_data_for_llm_analysis.
    destruct (calculate_metrics argsort parse_datetime detailed_articles g) as [m g1].
    cbn [fst] in He |- *. now rewrite He.
Qed.

(* ------------------------------------------------------------------ *)
(** ** [_analyze_time_performance]: the group-by *)

Section GroupByFacts.
Variables (K : Type) (keq kle : K -> K -> bool).
Hypothesis keq_spec : forall a b, keq a b = true <-> a = b.
Hypothesis kle_total : forall a b, kle a b = false -> kle b a = true.

Let nsum (l : list nat) : nat := fold_right Nat.add 0%nat l.

Lemma dedup_in (l : list K) (x : K) : In x (dedup keq l) <-> In x l.
Proof.
  induction l as [|y l IH]; cbn [dedup]; [tauto|].
  destruct (existsb (keq y) l) eqn:E.
  - rewrite IH. split; [now right|]. intros [<-|H]; [|exact H].
    apply existsb_exists in E. destruct E as [z [Hz Hyz]]. apply keq_spec in Hyz. now subst.
  - cbn [In]. rewrite IH. tauto.
Qed.

Lemma dedup_nodup (l : list K) : NoDup (dedup keq l).
Proof.
  induction l as [|y l IH]; cbn [dedup]; [constructor|].
  destruct (existsb (keq y) l) eqn:E; [exact IH|].
  constructor; [|exact IH]. rewrite dedup_in. intros H.
  assert (existsb (keq y) l = true) by (apply existsb_exists; exists y; split; [exact H|now apply keq_spec]).
  congruence.
Qed.

Lemma nsum_zero (U : list K) (f : K -> nat) : (forall k, In k U -> f k = 0%nat) -> nsum (map f U) = 0%nat.
Proof.
  unfold nsum. induction U as [|a U IH]; intros H; cbn [map fold_right]; [reflexivity|].
  rewrite (H a (or_introl eq_refl)), IH; [reflexivity|]. intros k Hk. apply H. now right.
Qed.

Lemma nsum_indicator (U : list K) (x : K) :
  NoDup U -> In x U -> nsum (map (fun k => if keq x k then 1 else 0)%nat U) = 1%nat.
Proof.
  induction U as [|a U IH]; intros Hnd Hin; [destruct Hin|].
  inversion Hnd as [|? ? Ha Hnd']; subst.
  change (nsum (map (fun k => if keq x k then 1 else 0)%nat (a :: U)))
    with ((if keq x a then 1 else 0) + nsum (map (fun k => if keq x k then 1 else 0)%nat U))%nat.
  destruct Hin as [->|Hin].
  - replace (keq x x) with true by (symmetry; now apply keq_spec).
    rewrite nsum_zero; [reflexivity|]. intros k Hk.
    destruct (keq x k) eqn:E; [|reflexivity]. apply keq_spec in E. subst. contradiction.
  - destruct (keq a x) eqn:E0; [apply keq_spec in E0; subst; contradiction|].
    destruct (keq x a) eqn:E.
    + apply keq_spec in E. subst. contradiction.
    + now rewrite IH.
Qed.

Lemma nsum_map_add (U : list K) (f g : K -> nat) :
  nsum (map (fun k => f k + g k)%nat U) = (nsum (map f U) + nsum (map g U))%nat.
Proof. unfold nsum. induction U as [|a U IH]; cbn [map fold_right]; [reflexivity|]. rewrite IH. lia. Qed.

Lemma nsum_perm (l l' : list nat) : Permutation l l' -> nsum l = nsum l'.
Proof. unfold nsum. induction 1; cbn [fold_right]; lia. Qed.

Lemma group_counts_sum (key : TimeRow -> option K) (U : list K) (df : list TimeRow) :
  NoDup U -> (forall k, In k (key_list key df) -> In k U) ->
  nsum (map (fun k => List.length (filter (in_group keq key k) df)) U) =
  List.length (filter (fun r => match key r with Some _ => true | None => false end) df).
Proof.
  intros Hnd. induction df as [|r df IH]; intros Hcov.
  - cbn [filter List.length]. apply nsum_zero. reflexivity.
  - assert (Hcov' : forall k, In k (key_list key df) -> In k U).
    { intros k Hk. apply Hcov. unfold key_list. cbn [flat_map]. apply in_app_iff. now right. }
    transitivity (nsum (map (fun k => (if in_group keq key k r then 1 else 0) +
                                       List.length (filter (in_group keq key k) df))%nat U)).
    { f_equal. apply map_ext. intros k. cbn [filter]. destruct (in_group keq key k r); reflexivity. }
    rewrite nsum_map_add, IH by exact Hcov'. cbn [filter].
    unfold in_group at 1. destruct (key r) as [kr|] eqn:E.
    + rewrite nsum_indicator; [reflexivity|exact Hnd|].
      apply Hcov. unfold key_list. cbn [flat_map]. rewrite E. now left.
    + rewrite nsum_zero; reflexivity.
Qed.

Lemma Sorted_map_key {B : Type} (R : K -> K -> Prop) (f : K -> B) (g : B -> K) (l : list K) :
  (forall k, g (f k) = k) -> Sorted R l -> Sorted (fun a b => R (g a) (g b)) (map f l).
Proof.
  intros Hgf Hs. induction Hs as [|a l Hs IH Hhd]; cbn [map]; constructor; [exact IH|].
  destruct Hhd as [|b l Hab]; cbn [map]; constructor. now rewrite !Hgf.
Qed.

Lemma groupby_mean_spec (key : TimeRow -> option K) (df : list TimeRow) :
  let st := groupby_mean keq kle key df in
  NoDup (map tm_key st) /\
  Sorted (fun a b => kle (tm_key a) (tm_key b) = true) st /\
  (forall r k, In r df -> key r = Some k -> In k (map tm_key st)) /\
  (forall s, In s st ->
     (1 <= tm_article_count s)%nat /\
     tm_article_count s = List.length (filter (in_group keq key (tm_key s)) df)) /\
  nsum (map tm_article_count st) =
    List.length (filter (fun r => match key r with Some _ => true | None => false end) df).
Proof.
  intros st.
  set (U := sort_stable (fun k => k) kle (dedup keq (key_list key df))).
  assert (HU : Permutation U (dedup keq (key_list key df))) by apply sort_stable_perm.
  assert (Hkeys : map tm_key st = U) by (unfold st, groupby_mean; rewrite map_map; apply map_id).
  assert (HUin : forall k, In k U <-> In k (key_list key df)).
  { intros k. transitivity (In k (dedup keq (key_list key df))); [|apply dedup_in].
    split; apply Permutation_in; [exact HU|now symmetry]. }
  split; [|split; [|split; [|split]]].
  - rewrite Hkeys. apply (Permutation_NoDup (Permutation_sym HU)), dedup_nodup.
  - apply (Sorted_map_key (fun a b => kle a b = true)); [reflexivity|].
    apply (sort_stable_sorted _ _ (fun k => k) kle kle_total).
  - intros r k Hr Hk. rewrite Hkeys. apply HUin. unfold key_list. apply in_flat_map.
    exists r. rewrite Hk. split; [exact Hr|now left].
  - intros s Hs. unfold st, groupby_mean in Hs. apply in_map_iff in Hs.
    destruct Hs as [k [<- Hk]]. cbn [tm_key tm_article_count]. split; [|reflexivity].
    apply HUin in Hk. unfold key_list in Hk. apply in_flat_map in Hk.
    destruct Hk as [r [Hr Hrk]]. destruct (key r) as [k'|] eqn:E; [|destruct Hrk].
    destruct Hrk as [<-|[]].
    assert (Hin : In r (filter (in_group keq key k') df)).
    { apply filter_In. split; [exact Hr|]. unfold in_group. rewrite E. now apply keq_spec. }
    destruct (filter (in_group keq key k') df); [destruct Hin|]. cbn [List.length]. lia.
  - transitivity (nsum (map (fun k => List.length (filter (in_group keq key k) df)) U)).
    { unfold st, groupby_mean. rewrite map_map. reflexivity. }
    rewrite (group_counts_sum key U df); [reflexivity| |].
    + apply (Permutation_NoDup (Permutation_sym HU)), dedup_nodup.
    + intros k Hk. now apply HUin.
Qed.

End GroupByFacts.

(** [_analyze_time_performance] with the [day_of_week] column: the groups
    of [by_day] and of [by_hour] have distinct keys in ascending order,
    every row with a day (hour) is in the group of its day (hour), each
    group counts the rows with its key, at least one, and the counts add up
    to the number of rows with a day (hour): the rows with a missing date
    are left out.  Without the column, or on no rows, both lists are
    empty. *)
Theorem time_performance_groups (df : list TimeRow) :
  _analyze_time_performance false df = ([], []) /\
  _analyze_time_performance true [] = ([], []) /\
  let by_day := fst (_analyze_time_performance true df) in
  let by_hour := snd (_analyze_time_performance true df) in
  NoDup (map tm_key by_day) /\
  Sorted (fun a b => String.leb (tm_key a) (tm_key b) = true) by_day /\
  (forall r d, In r df -> t_day r = Some d -> In d (map tm_key by_day)) /\
  (forall s, In s by_day ->
     (1 <= tm_article_count s)%nat /\
     tm_article_count s = List.length (filter (in_group String.eqb t_day (tm_key s)) df)) /\
  fold_right Nat.add 0%nat (map tm_article_count by_day) =
    List.length (filter (fun r => match t_day r with Some _ => true | None => false end) df) /\
  NoDup (map tm_key by_hour) /\
  Sorted (fun a b => Z.leb (tm_key a) (tm_key b) = true) by_hour /\
  (forall r h, In r df -> t_hour r = Some h -> In h (map tm_key by_hour)) /\
  (forall s, In s by_hour ->
     (1 <= tm_article_count s)%nat /\
     tm_article_count s = List.length (filter (in_group Z.eqb t_hour (tm_key s)) df)) /\
  fold_right Nat.add 0%nat (map tm_article_count by_hour) =
    List.length (filter (fun r => match t_hour r with Some _ => true | None => false end) df).
Proof.
  split; [reflexivity|]. split; [reflexivity|]. intros by_day by_hour.
  assert (Hstr : forall a b, String.leb a b = false -> String.leb b a = true).
  { intros a b H. destruct (String.leb_total a b); congruence. }
  assert (HZ : forall a b, Z.leb a b = false -> Z.leb b a = true).
  { intros a b H. apply Z.leb_gt in H. apply Z.leb_le. lia. }
  destruct df as [|r0 df'].
  - cbn in by_day, by_hour. subst by_day by_hour. cbn.
    repeat split; try constructor; intros; contradiction.
  - destruct (groupby_mean_spec string String.eqb String.leb String.eqb_eq Hstr t_day (r0 :: df'))
      as [D1 [D2 [D3 [D4 D5]]]].
    destruct (groupby_mean_spec Z Z.eqb Z.leb Z.eqb_eq HZ t_hour (r0 :: df'))
      as [H1 [H2 [H3 [H4 H5]]]].
    subst by_day by_hour. cbn [_analyze_time_performance fst snd].
    exact (conj D1 (conj D2 (conj D3 (conj D4 (conj D5
             (conj H1 (conj H2 (conj H3 (conj H4 H5))))))))).
Qed.

(* ------------------------------------------------------------------ *)
(** ** String concatenation *)

Lemma append_assoc_str (a b c : string) : (a ++ (b ++ c) = (a ++ b) ++ c)%string.
Proof. induction a as [|x a IH]; cbn; [reflexivity|]. now rewrite IH. Qed.

Lemma append_empty_str (a : string) : (a ++ EmptyString)%string = a.
Proof. induction a as [|x a IH]; cbn; [reflexivity|]. now rewrite IH. Qed.

(* ------------------------------------------------------------------ *)
(** ** [_generate_title] *)

Lemma str_prefix_app (p y : string) : str_prefix p (p ++ y) = true.
Proof. induction p as [|a p IH]; cbn; [reflexivity|]. now rewrite Ascii.eqb_refl, IH. Qed.

Lemma str_prefix_spec (p s : string) : str_prefix p s = true -> exists y, s = (p ++ y)%string.
Proof.
  revert s. induction p as [|a p IH]; intros s H; [exists s; reflexivity|].
  destruct s as [|b s]; cbn in H; [discriminate|].
  apply andb_prop in H as [Hab Hp]. apply Ascii.eqb_eq in Hab. subst b.
  destruct (IH s Hp) as [y ->]. exists y. reflexivity.
Qed.

Lemma str_contains_iff (sub s : string) :
  str_contains sub s = true <-> exists x y, s = (x ++ sub ++ y)%string.
Proof.
  split.
  - induction s as [|c s IH]; intros H; cbn [str_contains] in H.
    + rewrite orb_false_r in H. destruct (str_prefix_spec _ _ H) as [y Hy].
      exists EmptyString, y. exact Hy.
    + apply orb_prop in H as [H|H].
      * destruct (str_prefix_spec _ _ H) as [y Hy]. exists EmptyString, y. exact Hy.
      * destruct (IH H) as [x [y ->]]. exists (String c x), y. reflexivity.
  - intros [x [y ->]]. induction x as [|c x IH]; cbn [append].
    + pose proof (str_prefix_app sub y) as Hp.
      destruct (sub ++ y)%string; cbn [str_contains]; rewrite Hp; reflexivity.
    + cbn [str_contains]. rewrite IH. apply orb_true_r.
Qed.

Lemma str_contains_trans (a b c : string) :
  str_contains a b = true -> str_contains b c = true -> str_contains a c = true.
Proof.
  rewrite !str_contains_iff. intros [x1 [y1 ->]] [x2 [y2 ->]].
  exists (x2 ++ x1)%string, (y1 ++ y2)%string.
  rewrite <- !append_assoc_str. reflexivity.
Qed.

Lemma str_contains_cons (sub : string) (c : ascii) (s : string) :
  str_contains sub s = true -> str_contains sub (String c s) = true.
Proof. intros H. cbn [str_contains]. rewrite H. apply orb_true_r. Qed.

Lemma replace_from_contains (old new s : string) :
  old <> EmptyString -> str_contains old s = true ->
  str_contains new (replace_from old new 0 s) = true.
Proof.
  intros Hne. induction s as [|c s IH]; intros H.
  - destruct old; [congruence|]. discriminate.
  - cbn [replace_from]. destruct (str_prefix old (String c s)) eqn:Ep.
    + apply str_contains_iff. exists EmptyString, (replace_from old new (String.length old - 1) s).
      reflexivity.
    + cbn [str_contains] in H. rewrite Ep in H. cbn in H.
      apply str_contains_cons, IH, H.
Qed.

Lemma replace_empty_contains (new s : string) : str_contains new (replace_empty new s) = true.
Proof.
  apply str_contains_iff. destruct s as [|c s]; cbn [replace_empty].
  - exists EmptyString, EmptyString. cbn. now rewrite append_empty_str.
  - exists EmptyString, (String c (replace_empty new s)). reflexivity.
Qed.

(** After [s.replace(old, new)] on a string holding [old], [new] occurs. *)
Lemma py_replace_contains (s old new : string) :
  str_contains old s = true -> str_contains new (py_replace s old new) = true.
Proof.
  intros H. unfold py_replace. destruct old as [|a old].
  - apply replace_empty_contains.
  - apply replace_from_contains; [discriminate|exact H].
Qed.

Lemma str_lookup_in {B : Type} (k : string) (d : list (string * B)) (v : B) :
  str_lookup k d = Some v -> In v (map snd d).
Proof.
  unfold str_lookup. destruct (find _ d) as [[k' v']|] eqn:E; [|discriminate].
  intros [= <-]. apply find_some in E as [Hin _].
  apply (in_map snd) in Hin. exact Hin.
Qed.

Lemma random_choice_in {A : Type} (l : list A) (g : RNG) (x : A) (g' : RNG) :
  random_choice l g = (Ok x, g') -> In x l.
Proof.
  unfold random_choice. destruct l as [|y l]; [discriminate|].
  destruct (draw g) as [k g0].
  assert (Hi : (Z.to_nat (k mod Z.of_nat (List.length (y :: l))) < List.length (y :: l))%nat).
  { apply Nat2Z.inj_lt. rewrite Z2Nat.id.
    - apply Z.mod_pos_bound. cbn [List.length]. lia.
    - apply Z.mod_pos_bound. cbn [List.length]. lia. }
  pose proof (nth_In (y :: l) y Hi) as Hin.
  intros H. injection H as Hx _. rewrite <- Hx. exact Hin.
Qed.

Lemma title_templates_contain (pattern t0 chosen : string) :
  In chosen (match str_lookup pattern (title_patterns_of t0) with
             | Some l => l
             | None => match str_lookup "tutorial" (title_patterns_of t0) with
                       | Some l => l | None => [] end
             end) ->
  str_contains t0 chosen = true.
Proof.
  assert (Hall : forall v, In v (map snd (title_patterns_of t0)) ->
                 forall c, In c v -> str_contains t0 c = true).
  { intros v Hv c Hc. apply str_contains_iff.
    cbn [title_patterns_of map snd In] in Hv.
    destruct Hv as [Hv|[Hv|[Hv|[]]]]; subst v;
      repeat (destruct Hc as [Hc|Hc]; [subst c;
        match goal with
        | |- exists _ _, (t0 ++ ?b)%string = _ => exists EmptyString, b; reflexivity
        | |- exists _ _, (?a ++ t0 ++ ?b)%string = _ => exists a, b; reflexivity
        end|]); destruct Hc. }
  destruct (str_lookup pattern (title_patterns_of t0)) as [l|] eqn:E.
  - apply (Hall l). exact (str_lookup_in _ _ _ E).
  - cbn [title_patterns_of str_lookup find fst String.eqb]. apply (Hall _). cbn; left; reflexivity.
Qed.

Lemma generate_title_ok (pattern : string) (tags : list string)
  (posts : list LLMEngagementPost) (g : RNG) :
  match tags with
  | [] => _generate_title pattern tags posts g = (Err IndexError, g)
  | t0 :: rest =>
      exists title g', _generate_title pattern tags posts g = (Ok title, g') /\
        str_contains t0 title = true /\
        (rest <> [] -> str_contains "with" title = true)
  end.
Proof.
  destruct tags as [|t0 rest]; [reflexivity|].
  unfold _generate_title.
  set (tp := match str_lookup pattern (title_patterns_of t0) with
             | Some l => l
             | None => match str_lookup "tutorial" (title_patterns_of t0) with
                       | Some l => l | None => [] end
             end).
  assert (Htp : forall c, In c tp -> str_contains t0 c = true)
    by (intros c; apply title_templates_contain).
  assert (Hne : tp <> []).
  { unfold tp. destruct (str_lookup pattern (title_patterns_of t0)) as [l|] eqn:E.
    - apply str_lookup_in in E. cbn [title_patterns_of map snd In] in E.
      destruct E as [<-|[<-|[<-|[]]]]; discriminate.
    - discriminate. }
  destruct (random_choice tp g) as [r g'] eqn:Er.
  destruct r as [chosen|e].
  2:{ exfalso. unfold random_choice in Er. destruct tp; [congruence|].
      destruct (draw g). discriminate. }
  pose proof (Htp chosen (random_choice_in _ _ _ _ Er)) as Hc.
  cbn [bind]. eexists; eexists; split; [reflexivity|].
  destruct rest as [|t1 rest]; [split; [exact Hc|congruence]|].
  destruct (str_contains "with" chosen) eqn:Ew; cbn [negb].
  - split; [exact Hc|intros _; exact Ew].
  - assert (Hn : str_contains (t0 ++ " with " ++ t1) (py_replace chosen t0 (t0 ++ " with " ++ t1)) = true)
      by (apply py_replace_contains; exact Hc).
    split.
    + apply (str_contains_trans _ _ _ (proj2 (str_contains_iff _ _)
               (ex_intro _ EmptyString (ex_intro _ (" with " ++ t1)%string eq_refl))) Hn).
    + intros _. refine (str_contains_trans _ _ _ _ Hn).
      apply str_contains_iff. exists (t0 ++ " ")%string, (" " ++ t1)%string.
      rewrite <- append_assoc_str. reflexivity.
Qed.

(** [_generate_title] raises [IndexError] on an empty tag list, before
    drawing from [random].  Otherwise it returns a title that contains
    [tags[0]], and, when there are at least two tags, the word "with":
    either the template already held it, or [tags[0]] was replaced by
    [tags[0] + " with " + tags[1]]. *)
Theorem generate_title_spec (pattern : string) (tags : list string)
  (posts : list LLMEngagementPost) (g : RNG) :
  match tags with
  | [] => _generate_title pattern tags posts g = (Err IndexError, g)
  | t0 :: rest =>
      exists title g', _generate_title pattern tags posts g = (Ok title, g') /\
        str_contains t0 title = true /\
        (rest <> [] -> str_contains "with" title = true)
  end.
Proof. exact (generate_title_ok pattern tags posts g). Qed.


(* ------------------------------------------------------------------ *)
(** ** [_get_mock_topic_ideas] *)

Section CapitalizeFacts.
Variable capitalize : string -> string.


(** [m] returns, from any state of [random], a value satisfying [P]. *)
Definition rs_ok {A : Type} (m : RS A) (P : A -> Prop) : Prop :=
  forall g, exists a g', m g = (Ok a, g') /\ P a.

Lemma rs_ok_ret {A : Type} (a : A) (P : A -> Prop) : P a -> rs_ok (rs_ret a) P.
Proof. intros H g. exists a, g. split; [reflexivity|exact H]. Qed.

Lemma rs_ok_bind {A B : Type} (m : RS A) (f : A -> RS B) (Q : A -> Prop) (P : B -> Prop) :
  rs_ok m Q -> (forall a, Q a -> rs_ok (f a) P) -> rs_ok (rs_bind m f) P.
Proof.
  intros Hm Hf g. destruct (Hm g) as [a [g1 [E Ha]]].
  destruct (Hf a Ha g1) as [b [g2 [E2 Hb]]].
  exists b, g2. unfold rs_bind. rewrite E. split; [exact E2|exact Hb].
Qed.

Lemma generate_title_rs_ok (pattern t : string) (ts : list string) (posts : list LLMEngagementPost) :
  rs_ok (_generate_title pattern (t :: ts) posts) (fun title => str_contains t title = true).
Proof.
  intros g. destruct (generate_title_ok pattern (t :: ts) posts g) as [title [g' [E [H _]]]].
  exists title, g'. split; [exact E|exact H].
Qed.

Lemma tag_combo_update_keys (combo : list string) (e : Q) (d : list (list string * (Q * N))) :
  (2 <= List.length combo)%nat ->
  (forall k v, In (k, v) d -> (2 <= List.length k)%nat) ->
  forall k v, In (k, v) (tag_combo_update combo e d) -> (2 <= List.length k)%nat.
Proof.
  intros Hc. induction d as [|[k0 [e0 c0]] d IH]; intros Hd k v Hin; cbn [tag_combo_update] in Hin.
  - destruct Hin as [[= <- _]|[]]. exact Hc.
  - destruct (strs_eqb k0 combo).
    + destruct Hin as [[= <- _]|Hin]; [exact (Hd k0 (e0, c0) (or_introl eq_refl))|].
      exact (Hd k v (or_intror Hin)).
    + destruct Hin as [[= <- _]|Hin]; [exact (Hd k0 (e0, c0) (or_introl eq_refl))|].
      exact (IH (fun k' v' H => Hd k' v' (or_intror H)) k v Hin).
Qed.

(** Every combination of [successful_tag_combos] has at least two tags. *)
Lemma successful_tag_combos_keys (posts : list LLMEngagementPost) :
  forall k v, In (k, v) (successful_tag_combos capitalize posts) -> (2 <= List.length k)%nat.
Proof.
  unfold successful_tag_combos.
  assert (Hgen : forall d, (forall k v, In (k, v) d -> (2 <= List.length k)%nat) ->
    forall k v, In (k, v) (fold_left (fun d p =>
               let tags := post_tags_normalized capitalize (le_tags p) in
               if (2 <=? List.length tags)%nat
               then tag_combo_update (sort_stable (fun t => t) asc_str tags) (le_engagement_ratio p) d
               else d) posts d) -> (2 <= List.length k)%nat).
  { induction posts as [|p posts IH]; intros d Hd; cbn [fold_left]; [exact Hd|].
    apply IH. destruct (2 <=? List.length (post_tags_normalized capitalize (le_tags p)))%nat eqn:E; [|exact Hd].
    apply tag_combo_update_keys; [|exact Hd].
    rewrite (Permutation_length (sort_stable_perm _ _ _ _ _)). apply Nat.leb_le, E. }
  apply Hgen. intros k v [].
Qed.

Lemma tag_combo_update_nonnil (combo : list string) (e : Q) (d : list (list string * (Q * N))) :
  tag_combo_update combo e d <> [].
Proof. destruct d as [|[k [e0 c]] d]; cbn; [discriminate|]. destruct (strs_eqb k combo); discriminate. Qed.

(** [successful_tag_combos] is empty exactly when no post has two tags. *)
Lemma successful_tag_combos_nil (posts : list LLMEngagementPost) :
  match successful_tag_combos capitalize posts with [] => 0%nat | _ :: _ => 1%nat end =
  if existsb (fun p => (2 <=? List.length (post_tags_normalized capitalize (le_tags p)))%nat) posts then 1%nat else 0%nat.
Proof.
  unfold successful_tag_combos.
  match goal with |- context [fold_left ?F posts []] => set (f := F) end.
  set (two := fun p : LLMEngagementPost => (2 <=? List.length (post_tags_normalized capitalize (le_tags p)))%nat).
  assert (Hgen : forall d, fold_left f posts d = [] <-> d = [] /\ existsb two posts = false).
  { induction posts as [|p posts IH]; intros d; cbn [fold_left existsb].
    - split; [intros ->; split; reflexivity|intros [-> _]; reflexivity].
    - rewrite IH. unfold f. cbv zeta. unfold two.
      destruct (2 <=? List.length (post_tags_normalized capitalize (le_tags p)))%nat; cbn [orb].
      + split; [intros [H _]; exfalso; exact (tag_combo_update_nonnil _ _ _ H)|intros [_ H]; discriminate].
      + reflexivity. }
  destruct (existsb two posts) eqn:Ex.
  - destruct (fold_left f posts []) eqn:E; [|reflexivity].
    apply Hgen in E as [_ H]. discriminate H.
  - rewrite (proj2 (Hgen []) (conj eq_refl eq_refl)). reflexivity.
Qed.

(** An idea whose title contains the first of its suggested tags. *)
Definition idea_ok (i : TopicIdea) : Prop :=
  exists t, hd_error (idea_suggested_tags i) = Some t /\ str_contains t (idea_title i) = true.

(** The number of ideas the method builds before slicing. *)
Definition mock_idea_count (analysis_data : TopicInput) : nat :=
  let m := Nat.min 5 (List.length (ti_top_tags analysis_data)) in
  (if (2 <=? m)%nat then 3 else 0) + (if (1 <=? m)%nat then 3 else 0) +
  (if existsb (fun p => (2 <=? List.length (post_tags_normalized capitalize (le_tags p)))%nat)
              (ti_highest_engagement_posts analysis_data) then 1 else 0).

Lemma py_slice_to_length {A : Type} (l : list A) (n : Z) :
  Z.of_nat (List.length (py_slice_to l n)) =
  if (0 <=? n)%Z then Z.min n (Z.of_nat (List.length l))
  else Z.max 0 (Z.of_nat (List.length l) + n).
Proof.
  unfold py_slice_to. destruct (0 <=? n)%Z eqn:E.
  - apply Z.leb_le in E. rewrite length_firstn, Nat2Z.inj_min, Z2Nat.id by lia. reflexivity.
  - apply Z.leb_gt in E. rewrite length_firstn, Nat2Z.inj_min.
    destruct (Z.le_gt_cases 0 (Z.of_nat (List.length l) + n)).
    + rewrite Z2Nat.id by lia. lia.
    + replace (Z.to_nat (Z.of_nat (List.length l) + n)) with 0%nat by lia. lia.
Qed.

Lemma Forall_py_slice_to {A : Type} (P : A -> Prop) (l : list A) (n : Z) :
  Forall P l -> Forall P (py_slice_to l n).
Proof.
  intros H. unfold py_slice_to.
  assert (Hf : forall k, Forall P (firstn k l)).
  { intros k. revert l H. induction k as [|k IH]; intros l H; [constructor|].
    destruct l as [|x l]; [constructor|]. inversion H; subst. constructor; auto. }
  destruct (0 <=? n)%Z; apply Hf.
Qed.

Ltac idea_block :=
  let l := fresh "idea" in let Hl := fresh "Hl" in let Hn := fresh "Hn" in
  cbv beta iota;
  lazymatch goal with
  | |- rs_ok (rs_bind (rs_ret []) _) _ =>
      apply (rs_ok_bind _ _ (fun l : list TopicIdea => Forall idea_ok l /\ List.length l = 0%nat));
      [ apply rs_ok_ret; split; [apply Forall_nil|reflexivity]
      | intros l [Hl Hn] ]
  | |- rs_ok (rs_bind (rs_bind (_generate_title _ _ _) _) _) _ =>
      apply (rs_ok_bind _ _ (fun l : list TopicIdea => Forall idea_ok l /\ List.length l = 1%nat));
      [ eapply rs_ok_bind; [apply generate_title_rs_ok|];
        let title := fresh "title" in let Ht := fresh "Ht" in
        intros title Ht; apply rs_ok_ret; split;
        [apply Forall_cons; [eexists; split; [reflexivity|exact Ht]|apply Forall_nil] | reflexivity]
      | intros l [Hl Hn] ]
  end.

Lemma mock_topic_ideas_rs_ok (format_fixed : nat -> Q -> string) (format_int : N -> string)
  (analysis_data : TopicInput) (num_ideas : Z) :
  rs_ok (_get_mock_topic_ideas capitalize format_fixed format_int analysis_data num_ideas)
    (fun ideas =>
       Z.of_nat (List.length ideas) =
         (if (0 <=? num_ideas)%Z then Z.min num_ideas (Z.of_nat (mock_idea_count analysis_data))
          else Z.max 0 (Z.of_nat (mock_idea_count analysis_data) + num_ideas)) /\
       Forall idea_ok ideas).
Proof.
  unfold _get_mock_topic_ideas, mock_idea_count. cbv zeta.
  remember (firstn 5 (map (fun t => _normalize_tag capitalize (lt_tag t)) (ti_top_tags analysis_data))) as tpt eqn:Etpt.
  assert (Hm : Nat.min 5 (List.length (ti_top_tags analysis_data)) = List.length tpt)
    by (rewrite Etpt, length_firstn, length_map; reflexivity).
  rewrite Hm. clear Etpt Hm.
  pose proof (successful_tag_combos_keys (ti_highest_engagement_posts analysis_data)) as Hkeys.
  pose proof (sort_stable_perm _ _ snd desc_eng_count (successful_tag_combos capitalize (ti_highest_engagement_posts analysis_data))) as Hperm.
  rewrite <- successful_tag_combos_nil.
  remember (successful_tag_combos capitalize (ti_highest_engagement_posts analysis_data)) as sc eqn:Esc.
  remember (sort_stable snd desc_eng_count sc) as bc eqn:Ebc.
  clear Ebc Esc.
  assert (Hsc : match sc with [] => 0%nat | _ :: _ => 1%nat end = match bc with [] => 0%nat | _ :: _ => 1%nat end).
  { apply Permutation_length in Hperm. destruct sc, bc; cbn in Hperm; congruence. }
  rewrite Hsc. clear Hsc.
  assert (Hbc : bc = [] \/ exists b0 b1 bk' eng cnt bc', bc = (b0 :: b1 :: bk', (eng, cnt)) :: bc').
  { destruct bc as [|[bk [eng cnt]] bc']; [left; reflexivity|right].
    assert (Hk : (2 <= List.length bk)%nat).
    { apply (Hkeys bk (eng, cnt)). apply (Permutation_in _ Hperm). left; reflexivity. }
    destruct bk as [|b0 [|b1 bk']]; cbn [List.length] in Hk; [lia|lia|].
    exists b0, b1, bk', eng, cnt, bc'. reflexivity. }
  clear Hkeys Hperm.
  destruct Hbc as [->|[b0 [b1 [bk' [eng [cnt [bc' ->]]]]]]];
  destruct tpt as [|t0 [|t1 r]];
  do 7 idea_block;
  (apply rs_ok_ret; split;
   [ rewrite py_slice_to_length, !length_app, Hn, Hn0, Hn1, Hn2, Hn3, Hn4, Hn5; reflexivity
   | apply Forall_py_slice_to; rewrite !Forall_app; repeat split; assumption ]).
Qed.

(* ------------------------------------------------------------------ *)
(** ** [_get_mock_insights] *)

Lemma map_firstn_len_1_2 {A B : Type} (f : A -> B) (x : A) (l : list A) :
  (1 <= List.length (map f (firstn 2 (x :: l))) <= 2)%nat.
Proof. destruct l; cbn; lia. Qed.

(** [generate_insights] never raises: the guard on ['top_tags'] makes
    [top_tags[0]] safe.  Its best days and best hours have one or two
    entries each.  The recommended tags are the tags of a [top_performing]
    recommendation of the input when there is one; otherwise they are the
    first three top-tag names of the input, or the three default tags. *)
Theorem mock_insights_spec (str_int : Z -> string) (analysis_data : InsightInput) :
  exists ins, generate_insights str_int analysis_data = Ok ins /\
    (1 <= List.length (ins_best_days ins) <= 2)%nat /\
    (1 <= List.length (ins_best_hours ins) <= 2)%nat /\
    ((exists tags ms, In (RecTopPerforming tags ms) (ii_tag_recommendations analysis_data)) ->
       exists ms, In (RecTopPerforming (ins_recommended_tags ins) ms) (ii_tag_recommendations analysis_data)) /\
    ((forall tags ms, ~ In (RecTopPerforming tags ms) (ii_tag_recommendations analysis_data)) ->
       ins_recommended_tags ins =
         match ii_top_tags analysis_data with
         | [] => ["javascript"; "webdev"; "programming"]%string
         | l => map lt_tag (firstn 3 l)
         end /\
       (1 <= List.length (ins_recommended_tags ins) <= 3)%nat).
Proof.
  unfold generate_insights, _get_mock_insights. cbv zeta.
  set (top_tags := match ii_top_tags analysis_data with
                   | [] => ["javascript"; "webdev"; "programming"]%string
                   | l => map lt_tag (firstn 3 l)
                   end).
  assert (Htt : (1 <= List.length top_tags <= 3)%nat).
  { unfold top_tags. destruct (ii_top_tags analysis_data) as [|x [|y [|z l]]]; cbn; lia. }
  set (recs := ii_tag_recommendations analysis_data).
  set (isTP := fun r => match top_performing_tags_of r with Some _ => true | None => false end).
  assert (Hrec : match find isTP recs with
                 | Some r => match top_performing_tags_of r with Some tags => tags | None => top_tags end
                 | None => top_tags end = top_tags /\
                   (forall tags ms, ~ In (RecTopPerforming tags ms) recs) \/
                 (exists ms, In (RecTopPerforming
                    (match find isTP recs with
                     | Some r => match top_performing_tags_of r with Some tags => tags | None => top_tags end
                     | None => top_tags end) ms) recs)).
  { destruct (find isTP recs) as [r|] eqn:E.
    - right. apply find_some in E as [Hin Hp].
      destruct r as [tags ms| | |]; cbn in Hp; try discriminate. exists ms. exact Hin.
    - left. split; [reflexivity|]. intros tags ms Hin.
      pose proof (find_none _ _ E _ Hin) as H. discriminate H. }
  destruct top_tags as [|t0 rest] eqn:Et; [cbn in Htt; lia|].
  eexists. split; [reflexivity|]. cbn [ins_best_days ins_best_hours ins_recommended_tags].
  split; [destruct (ii_best_days analysis_data); [cbn; lia|apply map_firstn_len_1_2]|].
  split; [destruct (ii_best_hours analysis_data); [cbn; lia|apply map_firstn_len_1_2]|].
  split.
  - intros [tags [ms Hin]]. destruct Hrec as [[_ Hno]|Hyes]; [exfalso; exact (Hno tags ms Hin)|exact Hyes].
  - intros Hno. destruct Hrec as [[Heq _]|[ms Hin]].
    + rewrite Heq. split; [reflexivity|exact Htt].
    + exfalso. exact (Hno _ ms Hin).
Qed.

(* ------------------------------------------------------------------ *)
(** ** The Flask routes *)

Lemma generate_analysis_report_err (argsort : list Q -> list nat)
  (parse_datetime : string -> option (string * Z)) (username now : string)
  (detailed_articles : list Article) (g : RNG) :
  exists e, fst (generate_analysis_report argsort parse_datetime username now detailed_articles g) = Err e.
Proof.
  destruct (calculate_metrics_err argsort parse_datetime detailed_articles g) as [e He].
  exists e. unfold generate_analysis_report.
  destruct (calculate_metrics argsort parse_datetime detailed_articles g) as [m g1].
  cbn [fst] in He |- *. now rewrite He.
Qed.

Lemma generate_insights_ok (str_int : Z -> string) (analysis_data : InsightInput) :
  exists ins, generate_insights str_int analysis_data = Ok ins.
Proof.
  unfold generate_insights, _get_mock_insights. cbv zeta.
  destruct (ii_top_tags analysis_data) as [|t l]; cbn [map firstn]; eexists; reflexivity.
Qed.

(** The two analysis routes answer 400 when the username is missing or
    empty, and 500 otherwise, whatever the network returns: building the
    report always raises.  The two LLM routes answer 400 without a report
    and 200 with the mock insights or topic ideas otherwise. *)
Theorem app_routes_status (argsort : list Q -> list nat)
  (parse_datetime : string -> option (string * Z)) (str_int : Z -> string)
  (format_fixed : nat -> Q -> string) (format_int : N -> string) :
  (forall username llm_provider openai_key groq_key now detailed g,
     analyze_route capitalize argsort parse_datetime str_int format_fixed format_int
       username llm_provider openai_key groq_key now detailed g =
     ErrorResponse (if py_truthy username then 500 else 400)) /\
  (forall report,
     (report = None -> api_generate_insights str_int report = ErrorResponse 400) /\
     (report <> None -> exists ins, api_generate_insights str_int report = InsightsResponse 200 ins)) /\
  (forall report num_ideas g,
     (report = None -> api_generate_topic_ideas capitalize format_fixed format_int report num_ideas g = ErrorResponse 400) /\
     (report <> None -> exists ideas,
        api_generate_topic_ideas capitalize format_fixed format_int report num_ideas g = TopicIdeasResponse 200 ideas)).
Proof.
  split; [|split].
  - intros username llm_provider openai_key groq_key now detailed g.
    unfold analyze_route. destruct username as [[|c u]|]; cbn [py_truthy]; try reflexivity.
    destruct detailed as [detailed_articles|e]; [|reflexivity].
    destruct (generate_analysis_report_err argsort parse_datetime (String c u) now detailed_articles g) as [e He].
    destruct (generate_analysis_report argsort parse_datetime (String c u) now detailed_articles g) as [r g1].
    cbn [fst] in He. subst r. reflexivity.
  - intros report. split; [intros ->; reflexivity|].
    intros Hn. destruct report as [r|]; [|congruence].
    destruct (generate_insights_ok str_int r) as [ins Hins].
    exists ins. unfold api_generate_insights. rewrite Hins. reflexivity.
  - intros report num_ideas g. split; [intros ->; reflexivity|].
    intros Hn. destruct report as [r|]; [|congruence].
    set (n := match num_ideas with Some n => n | None => 5%Z end).
    destruct (mock_topic_ideas_rs_ok format_fixed format_int r n g) as [ideas [g' [E _]]].
    exists ideas. unfold api_generate_topic_ideas, generate_topic_ideas. fold n. rewrite E. reflexivity.
Qed.

(* ------------------------------------------------------------------ *)
(** ** [generate_topic_ideas] *)

(** [generate_topic_ideas] never raises.  Before slicing it builds three
    ideas when there are at least two top tags, three more when there is
    at least one, and one more when some highest-engagement post has two
    or more non-empty tags; it
    returns [ideas[:num_ideas]], so its length is [min(num_ideas, k)],
    or [max(0, k + num_ideas)] for a negative [num_ideas].  Every idea's
    title contains the first of its suggested tags. *)
Theorem mock_topic_ideas_spec (format_fixed : nat -> Q -> string) (format_int : N -> string)
  (analysis_data : TopicInput) (num_ideas : Z) (g : RNG) :
  exists ideas g',
    generate_topic_ideas capitalize format_fixed format_int analysis_data num_ideas g = (Ok ideas, g') /\
    Z.of_nat (List.length ideas) =
      (if (0 <=? num_ideas)%Z then Z.min num_ideas (Z.of_nat (mock_idea_count analysis_data))
       else Z.max 0 (Z.of_nat (mock_idea_count analysis_data) + num_ideas)) /\
    Forall idea_ok ideas.
Proof. exact (mock_topic_ideas_rs_ok format_fixed format_int analysis_data num_ideas g). Qed.
End CapitalizeFacts.
